(** * Conversation persistence and model lifecycle of the on-device chat app

    A shallow embedding of the hooks [useConversations], [useMessages],
    [useAiChat] (the orchestrator and its single-hook predecessor) and of
    [parseSizeToBytes], with the properties their specification states.

    Conventions of the embedding:
    - a JS string is a [string], its characters code units below 256;
      [undefined]/[null] are [None];
    - the key/value store is a finite map from keys to structured records;
    - React state and refs are fields of one record that the handlers
      thread through a small state monad, in the order the source runs them;
    - an [await] on an external capability is a point where the environment
      supplies the outcome ([Resolved] or [Rejected]). *)

From Stdlib Require Import ZArith QArith Qabs Ascii String List Bool Lia.
From stdpp Require Import base option list strings gmap fin_maps pretty sorting.

Local Open Scope string_scope.
Local Open Scope list_scope.

(** ** JavaScript values and helpers *)

Module JS.

(** Truthiness of a string: the empty string is falsy. *)
Definition truthy_str (s : string) : bool :=
  negb (String.eqb s "").

(** Truthiness of an optional string ([undefined], [null] and [""] are
    falsy). *)
Definition truthy (o : option string) : bool :=
  match o with
  | Some s => truthy_str s
  | None => false
  end.

(** [a || b] on optional strings. *)
Definition or_else (a b : option string) : option string :=
  if truthy a then a else b.

(** [s.slice(0, n)] on a string. *)
Definition str_slice0 (n : nat) (s : string) : string :=
  String.substring 0 n s.

(** Outcome of awaiting a promise. *)
Inductive outcome (A : Type) : Type :=
| Resolved (a : A)
| Rejected.
Arguments Resolved {A} a.
Arguments Rejected {A}.

(** [Array.prototype.join]. *)
Fixpoint join (sep : string) (l : list string) : string :=
  match l with
  | [] => ""
  | [x] => x
  | x :: rest => x ++ sep ++ join sep rest
  end.

(** Insertion of [x] into a list sorted by the comparator [cmp]: [x] goes
    before the first element it does not compare greater than, so an
    element inserted later lands in front of its equals. *)
Fixpoint insert_sorted {A} (cmp : A -> A -> Z) (x : A) (l : list A) : list A :=
  match l with
  | [] => [x]
  | y :: rest =>
      if (0 <? cmp x y)%Z then y :: insert_sorted cmp x rest else x :: y :: rest
  end.

(** [Array.prototype.sort] with a comparator: a stable sort.  The elements
    are inserted from the right, so equal elements keep their order. *)
Definition sort {A} (cmp : A -> A -> Z) (l : list A) : list A :=
  foldr (insert_sorted cmp) [] l.

(** [WhiteSpace] and [LineTerminator] code units below 256: what [trim]
    strips and [\s] matches. *)
Definition isWhiteSpace (c : ascii) : bool :=
  let n := nat_of_ascii c in
  (Nat.leb 9 n && Nat.leb n 13) || Nat.eqb n 32 || Nat.eqb n 160.

Fixpoint dropWhile {A} (p : A -> bool) (l : list A) : list A :=
  match l with
  | [] => []
  | x :: rest => if p x then dropWhile p rest else l
  end.

Fixpoint takeWhile {A} (p : A -> bool) (l : list A) : list A :=
  match l with
  | [] => []
  | x :: rest => if p x then x :: takeWhile p rest else []
  end.

(** [String.prototype.trim] *)
Definition trim (s : list ascii) : list ascii :=
  rev (dropWhile isWhiteSpace (rev (dropWhile isWhiteSpace s))).

(** [trim] on a string. *)
Definition trimStr (s : string) : string :=
  string_of_list_ascii (trim (list_ascii_of_string s)).

End JS.

Export JS.

(** ** Data model (hooks/models) *)

(** Modelled from the spec: the type declarations of hooks/models are not
    part of the sources.  The fields are those of the spec's data model and
    of the objects the hooks build; [includeInContext] and [remainTokens]
    are optional, since the older [createMessage] sets neither and
    [m?.includeInContext !== false] provides for a missing flag. *)
Record Message := mkMessage {
  msg_id : string;
  text : string;
  isUser : bool;
  timestamp : string;
  includeInContext : option bool;
  remainTokens : option Z
}.

(** Modelled from the spec: declared in hooks/models as well; [title],
    [summary] and [lastMessagePreview] may be [null] or missing. *)
Record ConversationMeta := mkConversationMeta {
  id : string;
  modelId : string;
  title : option string;
  summary : option string;
  createdAt : string;
  updatedAt : string;
  lastMessagePreview : option string
}.

(** A message of a generation request: a role and its text. *)
Record PromptMessage := mkPromptMessage { role : string; content : string }.

#[global] Instance PromptMessage_eq_dec : EqDecision PromptMessage.
Proof. solve_decision. Defined.

#[global] Instance Message_eq_dec : EqDecision Message.
Proof. solve_decision. Defined.

#[global] Instance ConversationMeta_eq_dec : EqDecision ConversationMeta.
Proof. solve_decision. Defined.

(** ** The key/value store (utils/storage) *)

(** Modelled from the spec: utils/storage is not part of the sources.  The
    store is a synchronous [save]/[load]/[remove] over string keys whose
    values are structured records returned as they were saved; an absent
    record, or one of another shape than the caller asks for, reads as
    absent. *)
Inductive value : Type :=
| VMessages (l : list Message)
| VConversations (l : list ConversationMeta)
| VString (s : string).

Abbreviation Store := (gmap string value).

Definition save (k : string) (v : value) (st : Store) : Store := <[k := v]> st.
Definition remove (k : string) (st : Store) : Store := delete k st.

Definition load_messages (k : string) (st : Store) : option (list Message) :=
  match st !! k with
  | Some (VMessages l) => Some l
  | _ => None
  end.

Definition load_conversations (k : string) (st : Store) : option (list ConversationMeta) :=
  match st !! k with
  | Some (VConversations l) => Some l
  | _ => None
  end.

Definition load_string (k : string) (st : Store) : option string :=
  match st !! k with
  | Some (VString s) => Some s
  | _ => None
  end.

(** ** Persistence keys (hooks/models) *)

(** Modelled from the spec: the three key derivations live in hooks/models,
    which is not part of the sources.  They are deterministic and
    collision-free: distinct conversations have distinct message keys and
    no two of the derivations produce the same key.  The legacy key of a
    model is the bare model id. *)
Class KeyScheme := {
  getConversationListKey : string -> string;
  getMessagesKey : string -> string;
  getLastConversationKey : string -> string;
  messages_key_inj : forall c c', getMessagesKey c = getMessagesKey c' -> c = c';
  list_key_not_messages : forall m c, getConversationListKey m <> getMessagesKey c;
  last_key_not_messages : forall m c, getLastConversationKey m <> getMessagesKey c;
  list_key_not_last : forall m m', getConversationListKey m <> getLastConversationKey m'
}.

(** The bare model id [m] is not itself one of the derived keys in use. *)
Definition legacy_key_apart `{KeyScheme} (m cid : string) : Prop :=
  getConversationListKey m <> m /\
  getLastConversationKey m <> m /\
  getMessagesKey cid <> m.

(** [new Date(s).getTime()] for the timestamps the hooks write with
    [new Date().toISOString()]: the milliseconds the string denotes. *)
Class DateParser := getTime : string -> Z.

(** ** The session: store, React state and refs of the composed hooks *)

(** Calls to the model lifecycle component (useModelSetup), which is a
    collaborator of the orchestrator. *)
Inductive LifecycleCall : Type :=
| RemoveModelFromDevice.

Record World := mkWorld {
  store : Store;
  (* useConversations *)
  conversations : list ConversationMeta;
  conversationsRef : list ConversationMeta;
  activeConversationId : option string;
  convMountedRef : bool;
  (* useMessages *)
  messagesState : list Message;
  msgRef : list Message;
  conversationIdRef : option string;
  prevConversationIdRef : option string;
  msgMountedRef : bool;
  (* useAiChat *)
  activeConversationIdRef : option string;
  lifecycleCalls : list LifecycleCall
}.

(** A handler is a state transformer over the session that returns a
    value. *)
Definition Handler (A : Type) : Type := World -> A * World.

#[global] Instance Handler_ret : MRet Handler := fun A a w => (a, w).
#[global] Instance Handler_bind : MBind Handler :=
  fun A B k c w => let '(a, w') := c w in k a w'.

Definition get_world : Handler World := fun w => (w, w).
Definition modify (f : World -> World) : Handler unit := fun w => (tt, f w).
Definition run {A} (c : Handler A) (w : World) : World := snd (c w).
Definition result {A} (c : Handler A) (w : World) : A := fst (c w).

Definition with_store (f : Store -> Store) (w : World) : World :=
  mkWorld (f (store w)) (conversations w) (conversationsRef w)
    (activeConversationId w) (convMountedRef w) (messagesState w) (msgRef w)
    (conversationIdRef w) (prevConversationIdRef w) (msgMountedRef w)
    (activeConversationIdRef w) (lifecycleCalls w).

Definition with_conversations (l : list ConversationMeta) (w : World) : World :=
  mkWorld (store w) l (conversationsRef w)
    (activeConversationId w) (convMountedRef w) (messagesState w) (msgRef w)
    (conversationIdRef w) (prevConversationIdRef w) (msgMountedRef w)
    (activeConversationIdRef w) (lifecycleCalls w).

Definition with_conversationsRef (l : list ConversationMeta) (w : World) : World :=
  mkWorld (store w) (conversations w) l
    (activeConversationId w) (convMountedRef w) (messagesState w) (msgRef w)
    (conversationIdRef w) (prevConversationIdRef w) (msgMountedRef w)
    (activeConversationIdRef w) (lifecycleCalls w).

Definition with_activeConversationId (a : option string) (w : World) : World :=
  mkWorld (store w) (conversations w) (conversationsRef w)
    a (convMountedRef w) (messagesState w) (msgRef w)
    (conversationIdRef w) (prevConversationIdRef w) (msgMountedRef w)
    (activeConversationIdRef w) (lifecycleCalls w).

Definition with_messages (l : list Message) (w : World) : World :=
  mkWorld (store w) (conversations w) (conversationsRef w)
    (activeConversationId w) (convMountedRef w) l l
    (conversationIdRef w) (prevConversationIdRef w) (msgMountedRef w)
    (activeConversationIdRef w) (lifecycleCalls w).

Definition with_prevConversationIdRef (p : option string) (w : World) : World :=
  mkWorld (store w) (conversations w) (conversationsRef w)
    (activeConversationId w) (convMountedRef w) (messagesState w) (msgRef w)
    (conversationIdRef w) p (msgMountedRef w)
    (activeConversationIdRef w) (lifecycleCalls w).

Definition with_msgMountedRef (b : bool) (w : World) : World :=
  mkWorld (store w) (conversations w) (conversationsRef w)
    (activeConversationId w) (convMountedRef w) (messagesState w) (msgRef w)
    (conversationIdRef w) (prevConversationIdRef w) b
    (activeConversationIdRef w) (lifecycleCalls w).

Definition with_lifecycleCall (c : LifecycleCall) (w : World) : World :=
  mkWorld (store w) (conversations w) (conversationsRef w)
    (activeConversationId w) (convMountedRef w) (messagesState w) (msgRef w)
    (conversationIdRef w) (prevConversationIdRef w) (msgMountedRef w)
    (activeConversationIdRef w) (lifecycleCalls w ++ [c]).

(** Storage primitives lifted to handlers. *)
Definition saveH (k : string) (v : value) : Handler unit := modify (with_store (save k v)).
Definition removeH (k : string) : Handler unit := modify (with_store (remove k)).
Definition loadMessagesH (k : string) : Handler (option (list Message)) :=
  fun w => (load_messages k (store w), w).
Definition loadConversationsH (k : string) : Handler (option (list ConversationMeta)) :=
  fun w => (load_conversations k (store w), w).
Definition loadStringH (k : string) : Handler (option string) :=
  fun w => (load_string k (store w), w).

(** React setters and ref assignments. *)
Definition setConversations (l : list ConversationMeta) : Handler unit :=
  modify (with_conversations l).
Definition setConversationsRef (l : list ConversationMeta) : Handler unit :=
  modify (with_conversationsRef l).
Definition setActiveConversationId (a : option string) : Handler unit :=
  modify (with_activeConversationId a).

(** [setMessages] of useMessages: the state and [msgRef] change together. *)
Definition setMessages (l : list Message) : Handler unit :=
  modify (with_messages l).

(** ** useConversations *)

Module Conversations.
Section Hook.
Context `{KeyScheme} `{DateParser}.

Definition TITLE_INSTRUCTION : string :=
  "Give this conversation a short title (max 5 words), using the same language as the conversation. Only respond with the title, nothing else.".

Definition toPromptMessage (m : Message) : PromptMessage :=
  mkPromptMessage (if isUser m then "user" else "assistant") (text m).

(** The messages sent to [promptAI] for a title. *)
Definition titleRequest (msgs : list Message) : list PromptMessage :=
  map toPromptMessage (take 5 msgs) ++ [mkPromptMessage "user" TITLE_INSTRUCTION].

(** The comparator of the two sorts: newest [updatedAt] first. *)
Definition byUpdatedAtDesc (a b : ConversationMeta) : Z :=
  (getTime (updatedAt b) - getTime (updatedAt a))%Z.

(** [find (c => c.id === i)] as a membership test. *)
Definition hasId (i : string) (l : list ConversationMeta) : bool :=
  existsb (fun c => String.eqb (id c) i) l.

(** [x?.text?.slice(0, 100) || null] *)
Definition previewOf (m : option Message) : option string :=
  match m with
  | Some x => or_else (Some (str_slice0 100 (text x))) None
  | None => None
  end.

Definition loadConversations (model : option string) : Handler unit :=
  match model with
  | Some m =>
      if negb (truthy_str m) then mret tt else
      stored ← loadConversationsH (getConversationListKey m);
      let list := default [] stored in
      setConversations list;;
      setConversationsRef list;;
      lastId ← loadStringH (getLastConversationKey m);
      if truthy lastId && hasId (default "" lastId) list then
        setActiveConversationId lastId
      else
        match sort byUpdatedAtDesc list with
        | first :: _ => setActiveConversationId (Some (id first))
        | [] => mret tt
        end
  | None => mret tt
  end.

(** [migrateLegacyData]: [promptAI] is the title generator, [cid] the id
    [generateId()] returns and [now] the clock reading. *)
Definition migrateLegacyData
    (promptAI : string -> list PromptMessage -> outcome string)
    (cid now : string) (model : option string) : Handler bool :=
  match model with
  | Some m =>
      if negb (truthy_str m) then mret false else
      legacy ← loadMessagesH m;
      match legacy with
      | None | Some [] => mret false
      | Some legacyMessages =>
          let listKey := getConversationListKey m in
          existingList ← loadConversationsH listKey;
          match existingList with
          | Some (_ :: _) => mret false
          | _ =>
              let title :=
                match promptAI m (titleRequest legacyMessages) with
                | Resolved summaryResult =>
                    if truthy_str summaryResult
                    then Some (str_slice0 50 summaryResult)
                    else Some "Chat 1"
                | Rejected => Some "Chat 1"
                end in
              let lastMessage := last legacyMessages in
              let meta := mkConversationMeta cid m title None now now
                            (previewOf lastMessage) in
              saveH (getMessagesKey cid) (VMessages legacyMessages);;
              saveH listKey (VConversations [meta]);;
              saveH (getLastConversationKey m) (VString cid);;
              removeH m;;
              w ← get_world;
              (if convMountedRef w then
                 setConversationsRef [meta];;
                 setConversations [meta];;
                 setActiveConversationId (Some cid)
               else mret tt);;
              mret true
          end
      end
  | None => mret false
  end.

Definition createConversation (cid now : string) (model : option string)
    (initialTitle : option string) : Handler (option string) :=
  match model with
  | Some m =>
      if negb (truthy_str m) then mret None else
      let meta := mkConversationMeta cid m (or_else initialTitle None) None now now None in
      w ← get_world;
      let updatedList := meta :: conversationsRef w in
      saveH (getConversationListKey m) (VConversations updatedList);;
      saveH (getLastConversationKey m) (VString cid);;
      saveH (getMessagesKey cid) (VMessages []);;
      setConversations updatedList;;
      setActiveConversationId (Some cid);;
      mret (Some cid)
  | None => mret None
  end.

Definition selectConversation (model : option string) (conversationId : string)
    : Handler unit :=
  match model with
  | Some m =>
      if negb (truthy_str m) then mret tt else
      setActiveConversationId (Some conversationId);;
      saveH (getLastConversationKey m) (VString conversationId)
  | None => mret tt
  end.

Definition deleteConversation (model : option string) (conversationId : string)
    : Handler unit :=
  match model with
  | Some m =>
      if negb (truthy_str m) then mret tt else
      removeH (getMessagesKey conversationId);;
      w ← get_world;
      let updatedList :=
        filter (fun c => id c <> conversationId) (conversationsRef w) in
      saveH (getConversationListKey m) (VConversations updatedList);;
      setConversations updatedList;;
      w' ← get_world;
      if decide (activeConversationId w' = Some conversationId) then
        match sort byUpdatedAtDesc updatedList with
        | first :: _ =>
            saveH (getLastConversationKey m) (VString (id first));;
            setActiveConversationId (Some (id first))
        | [] =>
            removeH (getLastConversationKey m);;
            setActiveConversationId None
        end
      else mret tt
  | None => mret tt
  end.

(** The fields a caller of [updateConversationMeta] may pass; [None] is a
    key that is not passed. *)
Record MetaUpdates := mkMetaUpdates {
  upd_title : option (option string);
  upd_summary : option (option string);
  upd_lastMessagePreview : option (option string);
  upd_updatedAt : option string
}.

Definition applyUpdates (now : string) (u : MetaUpdates) (c : ConversationMeta)
    : ConversationMeta :=
  mkConversationMeta (id c) (modelId c)
    (default (title c) (upd_title u))
    (default (summary c) (upd_summary u))
    (createdAt c)
    (default now (or_else (upd_updatedAt u) None))
    (default (lastMessagePreview c) (upd_lastMessagePreview u)).

Definition updateConversationMeta (now : string) (model : option string)
    (conversationId : string) (updates : MetaUpdates) : Handler unit :=
  match model with
  | Some m =>
      if negb (truthy_str m) then mret tt else
      w ← get_world;
      let updatedList :=
        map (fun c => if decide (id c = conversationId)
                      then applyUpdates now updates c else c)
            (conversationsRef w) in
      saveH (getConversationListKey m) (VConversations updatedList);;
      setConversationsRef updatedList;;
      setConversations updatedList
  | None => mret tt
  end.

(** [forEach (c => remove(getMessagesKey(c.id)))] *)
Definition removeMessageRecords (l : list ConversationMeta) (st : Store) : Store :=
  fold_left (fun s c => remove (getMessagesKey (id c)) s) l st.

Definition deleteAllConversations (model : option string) : Handler unit :=
  match model with
  | Some m =>
      if negb (truthy_str m) then mret tt else
      w ← get_world;
      modify (with_store (removeMessageRecords (conversationsRef w)));;
      removeH (getConversationListKey m);;
      removeH (getLastConversationKey m);;
      setConversationsRef [];;
      setConversations [];;
      setActiveConversationId None
  | None => mret tt
  end.

End Hook.
End Conversations.

(** ** useMessages *)

Module Messages.
Section Hook.
Context `{KeyScheme}.

(** [{ ...m, includeInContext: m?.includeInContext !== false }] *)
Definition withContextFlag (m : Message) : Message :=
  mkMessage (msg_id m) (text m) (isUser m) (timestamp m)
    (Some (negb (bool_decide (includeInContext m = Some false))))
    (remainTokens m).

(** [[...l].map(withContextFlag).reverse()]: the conversion applied at both
    boundaries, live state (newest first) to storage (oldest first) and
    back. *)
Definition flip (l : list Message) : list Message :=
  rev (map withContextFlag l).

Definition isEmpty {A} (l : list A) : bool :=
  match l with [] => true | _ => false end.

(** [saveMessages]; [onMessagesChange] is the optional callback of the
    hook's options. *)
Definition saveMessages (onMessagesChange : option (list Message -> Handler unit))
    : Handler unit :=
  w ← get_world;
  match conversationIdRef w with
  | Some currentConvId =>
      if negb (truthy_str currentConvId) || isEmpty (msgRef w) then mret tt else
      saveH (getMessagesKey currentConvId) (VMessages (flip (msgRef w)));;
      match onMessagesChange with
      | Some notify => notify (msgRef w)
      | None => mret tt
      end
  | None => mret tt
  end.

(** The body of the effect that runs when [conversationId] changes, up to
    the assignment of [prevConversationIdRef]. *)
Definition loadEffect (conversationId : option string) : Handler unit :=
  modify (with_msgMountedRef true);;
  w ← get_world;
  (match prevConversationIdRef w with
   | Some prev =>
       if truthy_str prev && negb (bool_decide (conversationId = Some prev))
       then
         if isEmpty (msgRef w) then mret tt
         else saveH (getMessagesKey prev) (VMessages (flip (msgRef w)))
       else mret tt
   | None => mret tt
   end);;
  (if truthy conversationId then
     listMsg ← loadMessagesH (getMessagesKey (default "" conversationId));
     match default [] listMsg with
     | [] => setMessages []
     | stored => setMessages (flip stored)
     end
   else setMessages []);;
  modify (with_prevConversationIdRef conversationId).

(** [item.includeInContext] as a filter condition. *)
Definition inContext (m : Message) : bool :=
  match includeInContext m with
  | Some b => b
  | None => false
  end.

(** The memoised [totalToken]. *)
Definition totalToken (messages : list Message) : nat :=
  String.length (join "" (map text (filter (fun item => inContext item = true) messages))).

End Hook.
End Messages.

(** ** useAiChat, the orchestrator *)

Module AiChat.
Section Hook.
Context `{KeyScheme} `{DateParser}.

(** [handleMessagesChange]: refreshes the preview and [updatedAt] of the
    active conversation from the newest message. *)
Definition handleMessagesChange (now : string) (model : option string)
    (messages : list Message) : Handler unit :=
  w ← get_world;
  match activeConversationIdRef w with
  | Some currentConvId =>
      if negb (truthy_str currentConvId) || Messages.isEmpty messages then mret tt else
      Conversations.updateConversationMeta now model currentConvId
        (Conversations.mkMetaUpdates None None
           (Some (Conversations.previewOf (head messages))) (Some now))
  | None => mret tt
  end.

(** [saveMessages] as the orchestrator wires it. *)
Definition saveMessages (now : string) (model : option string) : Handler unit :=
  Messages.saveMessages (Some (handleMessagesChange now model)).

(** [removeModel]: the removal itself is the lifecycle component's. *)
Definition removeModel (model : option string) : Handler unit :=
  Conversations.deleteAllConversations model;;
  setMessages [];;
  modify (with_lifecycleCall RemoveModelFromDevice).

End Hook.
End AiChat.

(** ** JavaScript numbers: IEEE 754 binary64, non-negative part *)

Module Number.

(** A number is [NaN], [+Infinity] or a finite double, kept as the exact
    rational it denotes (in lowest terms).  The sizes parsed here carry no
    sign. *)
Inductive number : Type :=
| NaN
| Infinity
| Num (q : Q).

(** Nearest integer to [a / b] for [0 <= a], [0 < b], ties to even. *)
Definition roundHalfEven (a b : Z) : Z :=
  let fl := (a / b)%Z in
  let r := (a mod b)%Z in
  match (2 * r ?= b)%Z with
  | Lt => fl
  | Gt => (fl + 1)%Z
  | Eq => if Z.even fl then fl else (fl + 1)%Z
  end.

(** [floor (log2 (n / d))] for positive [n], [d]. *)
Definition floorLog2 (n d : Z) : Z :=
  let e := (Z.log2 n - Z.log2 d)%Z in
  if (0 <=? e)%Z
  then (if (d * 2 ^ e <=? n)%Z then e else e - 1)%Z
  else (if (d <=? n * 2 ^ (- e))%Z then e else e - 1)%Z.

(** Rounding of the non-negative rational [n / d] to binary64: 53
    significant bits, least exponent -1022 (subnormals below), round to
    nearest, ties to even, overflow to [Infinity]. *)
Definition toDouble (q : Q) : number :=
  let n := Qnum q in
  let d := Zpos (Qden q) in
  if (n <=? 0)%Z then Num 0 else
  let e := floorLog2 n d in
  let p := (Z.max e (-1022) - 52)%Z in
  let m := if (0 <=? p)%Z
           then roundHalfEven n (d * 2 ^ p)
           else roundHalfEven (n * 2 ^ (- p)) d in
  if (0 <=? p)%Z
  then (if (2 ^ 1024 <=? m * 2 ^ p)%Z then Infinity else Num (inject_Z (m * 2 ^ p)))
  else Num (Qred (Qmake m (Z.to_pos (2 ^ (- p))))).

(** The product of two numbers: the exact product, rounded. *)
Definition mul (a b : number) : number :=
  match a, b with
  | NaN, _ | _, NaN => NaN
  | Infinity, Infinity => Infinity
  | Infinity, Num q | Num q, Infinity => if Qeq_bool q 0 then NaN else Infinity
  | Num x, Num y => toDouble (Qmult x y)
  end.

Definition ofZ (z : Z) : number := toDouble (inject_Z z).

(** [|n - target| <= tol] for a finite [n]. *)
Definition within (tol target : Q) (n : number) : Prop :=
  match n with
  | Num q => (Qabs (q - target) <= tol)%Q
  | _ => False
  end.

End Number.

(** ** parseSizeToBytes *)

Module SizeParser.
Import Number.

Definition isDigit (c : ascii) : bool :=
  let n := nat_of_ascii c in Nat.leb 48 n && Nat.leb n 57.

(** The class [[\d.]]. *)
Definition isNumberChar (c : ascii) : bool :=
  isDigit c || Ascii.eqb c ".".

(** [String.prototype.toUpperCase] on the letters a-z; every other
    character the pattern can match is its own upper case. *)
Definition upperChar (c : ascii) : ascii :=
  let n := nat_of_ascii c in
  if Nat.leb 97 n && Nat.leb n 122 then ascii_of_nat (n - 32) else c.

Definition toUpperCase (s : list ascii) : list ascii := map upperChar s.

Inductive unit_ : Type := KB | MB | GB.

(** The unit alternatives [(KB|MB|GB)?] followed by [$]: [Some None] is an
    absent group. *)
Definition matchUnit (s : list ascii) : option (option unit_) :=
  match string_of_list_ascii s with
  | "" => Some None
  | "KB" => Some (Some KB)
  | "MB" => Some (Some MB)
  | "GB" => Some (Some GB)
  | _ => None
  end.

(** [s.match(/^([\d.]+)\s*(KB|MB|GB)?$/i)] on an upper-cased [s]: the two
    groups of the match, if any.  The three parts of the pattern match
    disjoint character classes, so the greedy split is the only one. *)
Definition matchSize (s : list ascii) : option (list ascii * option unit_) :=
  let digits := takeWhile isNumberChar s in
  match digits with
  | [] => None
  | _ =>
      let rest := dropWhile isWhiteSpace (dropWhile isNumberChar s) in
      match matchUnit rest with
      | Some u => Some (digits, u)
      | None => None
      end
  end.

(** The value of a string of decimal digits. *)
Definition digitsValue (ds : list ascii) : Z :=
  fold_left (fun acc c => (10 * acc + (Z.of_nat (nat_of_ascii c) - 48))%Z) ds 0%Z.

(** [parseFloat] on a string of digits and dots: the longest prefix that is
    a decimal literal, or [NaN] when there is none. *)
Definition parseFloat (s : list ascii) : number :=
  let intPart := takeWhile isDigit s in
  let fracPart :=
    match dropWhile isDigit s with
    | c :: rest => if Ascii.eqb c "." then takeWhile isDigit rest else []
    | [] => []
    end in
  match intPart, fracPart with
  | [], [] => NaN
  | _, _ =>
      toDouble (Qmake (digitsValue (intPart ++ fracPart))
                      (Z.to_pos (10 ^ Z.of_nat (length fracPart))))
  end.

Definition n1024 : number := ofZ 1024.

Definition parseSizeToBytes (sizeStr : string) : number :=
  let normalized := toUpperCase (trim (list_ascii_of_string sizeStr)) in
  match matchSize normalized with
  | None => ofZ 0
  | Some (digits, unit) =>
      let value := parseFloat digits in
      match unit with
      | Some GB => mul (mul (mul value n1024) n1024) n1024
      | Some MB => mul (mul value n1024) n1024
      | Some KB => mul value n1024
      | None => mul (mul value n1024) n1024
      end
  end.

End SizeParser.

(** ** The single-hook chat: model lifecycle and message stream *)

Module Chat.

Inductive ModelStatus : Type := not_setup | downloading | preparing | ready.

#[global] Instance ModelStatus_eq_dec : EqDecision ModelStatus.
Proof. solve_decision. Defined.

(** The argument of [streamText]. *)
Inductive StreamParams : Type :=
| WithMessages (messages : list PromptMessage)
| WithPrompt (prompt : string).

#[global] Instance StreamParams_eq_dec : EqDecision StreamParams.
Proof. solve_decision. Defined.

(** Calls to the inference engine, in the order they are issued. *)
Inductive EngineCall : Type :=
| IsDownloaded (m : string)
| Prepare (m : string)
| Download (m : string)
| Unload (m : string)
| Remove (m : string)
| StreamText (m : string) (params : StreamParams).

#[global] Instance EngineCall_eq_dec : EqDecision EngineCall.
Proof. solve_decision. Defined.

Definition STORAGE_KEY_SELECTED_MODEL : string := "ai_selected_model_id".
Definition ERROR_MESSAGE : string := "Sorry, an error occurred. Please try again.".

(** State and refs of the hook.  [modelRef] holds the id of the loaded
    model instance; [controllers] is the heap of [AbortController]s, each
    with its [aborted] flag, and [streamAbortControllerRef] points into
    it. *)
Record State := mkState {
  messages : list Message;
  inputText : string;
  modelStatus : ModelStatus;
  downloadProgress : Z;
  selectedModelId : option string;
  useContextHistory : bool;
  isLoading : bool;
  modelRef : option string;
  isSetupInProgressRef : bool;
  isMountedRef : bool;
  streamAbortControllerRef : option nat;
  controllers : list bool;
  storage : Store;
  engineCalls : list EngineCall
}.

Definition setMessagesS (f : list Message -> list Message) (s : State) : State :=
  mkState (f (messages s)) (inputText s) (modelStatus s) (downloadProgress s)
    (selectedModelId s) (useContextHistory s) (isLoading s) (modelRef s)
    (isSetupInProgressRef s) (isMountedRef s) (streamAbortControllerRef s)
    (controllers s) (storage s) (engineCalls s).

Definition setInputTextState (t : string) (s : State) : State :=
  mkState (messages s) t (modelStatus s) (downloadProgress s)
    (selectedModelId s) (useContextHistory s) (isLoading s) (modelRef s)
    (isSetupInProgressRef s) (isMountedRef s) (streamAbortControllerRef s)
    (controllers s) (storage s) (engineCalls s).

Definition setModelStatus (x : ModelStatus) (s : State) : State :=
  mkState (messages s) (inputText s) x (downloadProgress s)
    (selectedModelId s) (useContextHistory s) (isLoading s) (modelRef s)
    (isSetupInProgressRef s) (isMountedRef s) (streamAbortControllerRef s)
    (controllers s) (storage s) (engineCalls s).

Definition setDownloadProgress (p : Z) (s : State) : State :=
  mkState (messages s) (inputText s) (modelStatus s) p
    (selectedModelId s) (useContextHistory s) (isLoading s) (modelRef s)
    (isSetupInProgressRef s) (isMountedRef s) (streamAbortControllerRef s)
    (controllers s) (storage s) (engineCalls s).

Definition setSelectedModelId (m : option string) (s : State) : State :=
  mkState (messages s) (inputText s) (modelStatus s) (downloadProgress s)
    m (useContextHistory s) (isLoading s) (modelRef s)
    (isSetupInProgressRef s) (isMountedRef s) (streamAbortControllerRef s)
    (controllers s) (storage s) (engineCalls s).

Definition setIsLoading (b : bool) (s : State) : State :=
  mkState (messages s) (inputText s) (modelStatus s) (downloadProgress s)
    (selectedModelId s) (useContextHistory s) b (modelRef s)
    (isSetupInProgressRef s) (isMountedRef s) (streamAbortControllerRef s)
    (controllers s) (storage s) (engineCalls s).

Definition setModelRef (m : option string) (s : State) : State :=
  mkState (messages s) (inputText s) (modelStatus s) (downloadProgress s)
    (selectedModelId s) (useContextHistory s) (isLoading s) m
    (isSetupInProgressRef s) (isMountedRef s) (streamAbortControllerRef s)
    (controllers s) (storage s) (engineCalls s).

Definition setIsSetupInProgressRef (b : bool) (s : State) : State :=
  mkState (messages s) (inputText s) (modelStatus s) (downloadProgress s)
    (selectedModelId s) (useContextHistory s) (isLoading s) (modelRef s)
    b (isMountedRef s) (streamAbortControllerRef s)
    (controllers s) (storage s) (engineCalls s).

Definition setIsMountedRef (b : bool) (s : State) : State :=
  mkState (messages s) (inputText s) (modelStatus s) (downloadProgress s)
    (selectedModelId s) (useContextHistory s) (isLoading s) (modelRef s)
    (isSetupInProgressRef s) b (streamAbortControllerRef s)
    (controllers s) (storage s) (engineCalls s).

Definition setStreamAbortControllerRef (c : option nat) (s : State) : State :=
  mkState (messages s) (inputText s) (modelStatus s) (downloadProgress s)
    (selectedModelId s) (useContextHistory s) (isLoading s) (modelRef s)
    (isSetupInProgressRef s) (isMountedRef s) c
    (controllers s) (storage s) (engineCalls s).

Definition setControllers (l : list bool) (s : State) : State :=
  mkState (messages s) (inputText s) (modelStatus s) (downloadProgress s)
    (selectedModelId s) (useContextHistory s) (isLoading s) (modelRef s)
    (isSetupInProgressRef s) (isMountedRef s) (streamAbortControllerRef s)
    l (storage s) (engineCalls s).

Definition setStorage (f : Store -> Store) (s : State) : State :=
  mkState (messages s) (inputText s) (modelStatus s) (downloadProgress s)
    (selectedModelId s) (useContextHistory s) (isLoading s) (modelRef s)
    (isSetupInProgressRef s) (isMountedRef s) (streamAbortControllerRef s)
    (controllers s) (f (storage s)) (engineCalls s).

Definition engine (c : EngineCall) (s : State) : State :=
  mkState (messages s) (inputText s) (modelStatus s) (downloadProgress s)
    (selectedModelId s) (useContextHistory s) (isLoading s) (modelRef s)
    (isSetupInProgressRef s) (isMountedRef s) (streamAbortControllerRef s)
    (controllers s) (storage s) (engineCalls s ++ [c]).

(** [controller.signal.aborted] *)
Definition aborted (c : nat) (s : State) : bool :=
  default false (controllers s !! c).

(** [controller.abort()] *)
Definition abort (c : nat) (s : State) : State :=
  setControllers (<[c := true]> (controllers s)) s.

(** The cleanup of the mount effect: what teardown of the screen runs. *)
Definition unmount (s : State) : State :=
  let s := setIsMountedRef false s in
  let s := match streamAbortControllerRef s with
           | Some c => setStreamAbortControllerRef None (abort c s)
           | None => s
           end in
  match modelRef s with
  | Some m => setModelRef None (engine (Unload m) s)
  | None => s
  end.

(** *** checkModelExists *)

(** [isDownloaded] and [prepare] are the outcomes of the two awaited engine
    calls; the second is consulted only when the call is made. *)
Definition checkModelExists (modelId : option string)
    (isDownloaded : outcome bool) (prepare : outcome unit) (s : State)
    : bool * State :=
  match or_else modelId (selectedModelId s) with
  | Some modelToCheck =>
      if negb (truthy_str modelToCheck) then (false, s) else
      let s := engine (IsDownloaded modelToCheck) s in
      match isDownloaded with
      | Resolved true =>
          let s := setModelStatus preparing s in
          let s := engine (Prepare modelToCheck) s in
          match prepare with
          | Resolved _ =>
              let s := setModelRef (Some modelToCheck) s in
              let s := setSelectedModelId (Some modelToCheck) s in
              let s := setStorage (save STORAGE_KEY_SELECTED_MODEL (VString modelToCheck)) s in
              let s := setModelStatus ready s in
              (true, s)
          | Rejected => (false, s)
          end
      | Resolved false => (false, s)
      | Rejected => (false, s)
      end
  | None => (false, s)
  end.

(** *** setupModel *)

(** The points at which [setupModel] is suspended on the engine. *)
Inductive SetupPoint : Type :=
| AwaitUnload
| AwaitRemoveOld
| AwaitDownload
| AwaitPrepare.

(** A suspended call of [setupModel]: its argument, the [selectedModelId]
    its closure captured, and where it waits. *)
Record SetupTask := mkSetupTask {
  task_modelId : string;
  task_selectedModelId : option string;
  task_point : SetupPoint
}.

(** The [finally] block. *)
Definition setupFinally (s : State) : option SetupTask * State :=
  (None, setIsSetupInProgressRef false s).

(** The outer [catch] block followed by [finally]. *)
Definition setupCatch (s : State) : option SetupTask * State :=
  setupFinally
    (if isMountedRef s
     then setDownloadProgress 0 (setModelStatus not_setup s)
     else s).

(** From the mount check before the download to the [await] on it. *)
Definition setupDownload (modelId : string) (sel : option string) (s : State)
    : option SetupTask * State :=
  if negb (isMountedRef s) then setupFinally s else
  let s := setModelStatus downloading s in
  let s := setDownloadProgress 0 s in
  let s := engine (Download modelId) s in
  (Some (mkSetupTask modelId sel AwaitDownload), s).

(** After the inner [try]/[catch] around the removal of the old model. *)
Definition setupAfterRemoval (modelId : string) (sel : option string) (s : State)
    : option SetupTask * State :=
  let s := if isMountedRef s
           then setDownloadProgress 0 (setModelStatus not_setup s)
           else s in
  setupDownload modelId sel s.

(** A call of [setupModel modelId] run up to its first [await]; [sel] and
    [status] are the [selectedModelId] and [modelStatus] of the closure. *)
Definition setupModel (modelId : string) (sel : option string)
    (status : ModelStatus) (s : State) : option SetupTask * State :=
  if isSetupInProgressRef s then (None, s) else
  if bool_decide (sel = Some modelId) && bool_decide (status = ready) then (None, s) else
  let s := setIsSetupInProgressRef true s in
  if negb (bool_decide (sel = Some modelId)) && truthy sel then
    match modelRef s with
    | Some loaded =>
        (Some (mkSetupTask modelId sel AwaitUnload), engine (Unload loaded) s)
    | None =>
        (Some (mkSetupTask modelId sel AwaitRemoveOld),
         engine (Remove (default "" sel)) s)
    end
  else setupDownload modelId sel s.

(** A suspended call resumed with the outcome of the call it awaits, run
    up to its next [await] or to its end. *)
Definition setupResume (t : SetupTask) (o : outcome unit) (s : State)
    : option SetupTask * State :=
  let modelId := task_modelId t in
  let sel := task_selectedModelId t in
  match task_point t, o with
  | AwaitUnload, Resolved _ =>
      let s := setModelRef None s in
      (Some (mkSetupTask modelId sel AwaitRemoveOld),
       engine (Remove (default "" sel)) s)
  | AwaitUnload, Rejected => setupAfterRemoval modelId sel s
  | AwaitRemoveOld, _ => setupAfterRemoval modelId sel s
  | AwaitDownload, Resolved _ =>
      if negb (isMountedRef s) then setupFinally s else
      let s := setDownloadProgress 100 s in
      let s := setModelStatus preparing s in
      (Some (mkSetupTask modelId sel AwaitPrepare), engine (Prepare modelId) s)
  | AwaitDownload, Rejected => setupCatch s
  | AwaitPrepare, Resolved _ =>
      setupFinally
        (if isMountedRef s then
           let s := setModelRef (Some modelId) s in
           let s := setSelectedModelId (Some modelId) s in
           let s := setModelStatus ready s in
           setStorage (save STORAGE_KEY_SELECTED_MODEL (VString modelId)) s
         else s)
  | AwaitPrepare, Rejected => setupCatch s
  end.

(** The progress callback handed to [download]; [percentage] is [None] for
    an event without a numeric percentage. *)
Definition setupProgress (t : SetupTask) (percentage : option Z) (s : State) : State :=
  match task_point t, percentage with
  | AwaitDownload, Some p => if isMountedRef s then setDownloadProgress p s else s
  | _, _ => s
  end.

(** The hook together with the calls of [setupModel] that are suspended. *)
Record System := mkSystem {
  hook : State;
  tasks : list SetupTask
}.

(** What the event loop can run next. *)
Inductive Event : Type :=
| CallSetup (modelId : string) (sel : option string) (status : ModelStatus)
| Settle (i : nat) (o : outcome unit)
| Progress (i : nat) (percentage : option Z)
| Teardown.

Definition step (e : Event) (sys : System) : System :=
  match e with
  | CallSetup modelId sel status =>
      match setupModel modelId sel status (hook sys) with
      | (Some t, s) => mkSystem s (tasks sys ++ [t])
      | (None, s) => mkSystem s (tasks sys)
      end
  | Settle i o =>
      match tasks sys !! i with
      | Some t =>
          match setupResume t o (hook sys) with
          | (Some t', s) => mkSystem s (<[i := t']> (tasks sys))
          | (None, s) => mkSystem s (delete i (tasks sys))
          end
      | None => sys
      end
  | Progress i percentage =>
      match tasks sys !! i with
      | Some t => mkSystem (setupProgress t percentage (hook sys)) (tasks sys)
      | None => sys
      end
  | Teardown => mkSystem (unmount (hook sys)) (tasks sys)
  end.

(** The events of a schedule, run in order. *)
Definition exec (es : list Event) (sys : System) : System :=
  fold_left (fun acc e => step e acc) es sys.

(** No setup has been started. *)
Definition idle (sys : System) : Prop :=
  tasks sys = [] /\ isSetupInProgressRef (hook sys) = false.

(** The number of downloads the engine was asked for. *)
Definition isDownload (c : EngineCall) : bool :=
  match c with Download _ => true | _ => false end.

Definition downloads (s : State) : nat :=
  length (List.filter isDownload (engineCalls s)).

(** *** handleSend *)

(** The locals of one call of [handleSend] while its stream is read. *)
Record Generation := mkGeneration {
  aiMessageId : string;
  controller : nat;
  fullText : string;
  started : bool
}.

(** [{ ...msg, text: t }] *)
Definition withText (t : string) (msg : Message) : Message :=
  mkMessage (msg_id msg) t (isUser msg) (timestamp msg)
    (includeInContext msg) (remainTokens msg).

(** [prev.map(msg => msg.id === i ? { ...msg, text: t } : msg)] *)
Definition replaceText (i t : string) (prev : list Message) : list Message :=
  map (fun msg => if String.eqb (msg_id msg) i then withText t msg else msg) prev.

Definition toPromptMessage (m : Message) : PromptMessage :=
  mkPromptMessage (if isUser m then "user" else "assistant") (text m).

(** [handleSend] up to the call of [streamText]: [userId] and [aiId] are
    the ids [createMessage] draws, [now] its timestamp.  [None] when the
    call returns without opening a stream. *)
Definition handleSendStart (userId aiId now : string) (s : State)
    : option Generation * State :=
  if negb (truthy_str (trimStr (inputText s))) || isLoading s
     || negb (bool_decide (modelStatus s = ready)) || negb (bool_decide (is_Some (modelRef s)))
  then (None, s) else
  let userMessageText := trimStr (inputText s) in
  let userMessage := mkMessage userId userMessageText true now None None in
  let aiMessage := mkMessage aiId "" false now None None in
  let messagesWithNewUser := messages s ++ [userMessage; aiMessage] in
  let useContext := useContextHistory s in
  let s := setInputTextState "" s in
  let s := setMessagesS (fun prev => prev ++ [userMessage; aiMessage]) s in
  let s := setIsLoading true s in
  let c := length (controllers s) in
  let s := setControllers (controllers s ++ [false]) s in
  let s := setStreamAbortControllerRef (Some c) s in
  match modelRef s with
  | Some model =>
      if negb (isMountedRef s) then (None, setStreamAbortControllerRef None s) else
      let params :=
        if useContext
        then WithMessages
               (map toPromptMessage
                  (filter (fun msg => negb (String.eqb (msg_id msg) aiId)
                                      && truthy_str (trimStr (text msg)) = true)
                          messagesWithNewUser))
        else WithPrompt userMessageText in
      (Some (mkGeneration aiId c "" false), engine (StreamText model params) s)
  | None => (None, setStreamAbortControllerRef None s)
  end.

(** What happens while the stream is read: a delta arrives, or the screen
    is torn down. *)
Inductive StreamEvent : Type :=
| Delta (delta : string)
| ScreenTeardown.

Definition streamStep (e : StreamEvent) (gs : Generation * State) : Generation * State :=
  let '(g, s) := gs in
  match e with
  | Delta delta =>
      let full := if started g then (fullText g ++ delta)%string else delta in
      (mkGeneration (aiMessageId g) (controller g) full true,
       setMessagesS (replaceText (aiMessageId g) full) s)
  | ScreenTeardown => (g, unmount s)
  end.

Definition streamRun (es : list StreamEvent) (gs : Generation * State) : Generation * State :=
  fold_left (fun acc e => streamStep e acc) es gs.

(** How the stream ends. *)
Inductive StreamEnd : Type := Completed | Failed.

(** From the end of the [for await] loop through [catch] and [finally]. *)
Definition handleSendEnd (how : StreamEnd) (gs : Generation * State) : State :=
  let '(g, s) := gs in
  let live := isMountedRef s && negb (aborted (controller g) s) in
  let s :=
    match how with
    | Completed => if live then setIsLoading false s else s
    | Failed =>
        if live
        then setIsLoading false (setMessagesS (replaceText (aiMessageId g) ERROR_MESSAGE) s)
        else s
    end in
  setStreamAbortControllerRef None s.

End Chat.

(** * Further embedding: the rest of the hooks *)

(** ** useConversations: the ref sync effect and the mount effect *)

Module ConversationEffects.
Section Hook.
Context `{KeyScheme} `{DateParser}.

(** The effect [conversationsRef.current = conversations], which runs after
    a render in which [conversations] changed. *)
Definition syncConversationsRef : Handler unit :=
  w ← get_world;
  setConversationsRef (conversations w).

Definition with_convMountedRef (b : bool) (w : World) : World :=
  mkWorld (store w) (conversations w) (conversationsRef w)
    (activeConversationId w) b (messagesState w) (msgRef w)
    (conversationIdRef w) (prevConversationIdRef w) (msgMountedRef w)
    (activeConversationIdRef w) (lifecycleCalls w).

(** The mount effect: migrate, and load the list when nothing was
    migrated. *)
Definition init (promptAI : string -> list PromptMessage -> outcome string)
    (cid now : string) (model : option string) : Handler unit :=
  modify (with_convMountedRef true);;
  if negb (truthy model) then (mret tt : Handler unit) else
  migrated ← Conversations.migrateLegacyData promptAI cid now model;
  if (migrated : bool) then (mret tt : Handler unit)
  else Conversations.loadConversations model.

(** [conversations.find((c) => c.id === activeConversationId) || null] *)
Definition activeConversation (w : World) : option ConversationMeta :=
  match activeConversationId w with
  | Some a => List.find (fun c => String.eqb (id c) a) (conversations w)
  | None => None
  end.

End Hook.
End ConversationEffects.

(** ** useMessages: the rest of the hook *)

Module MessageEffects.
Section Hook.
Context `{KeyScheme}.

(** The cleanup of the conversation effect; [conversationId] is the id the
    effect ran with. *)
Definition effectCleanup (conversationId : option string) : Handler unit :=
  w ← get_world;
  (if truthy conversationId && negb (Messages.isEmpty (msgRef w))
   then saveH (getMessagesKey (default "" conversationId))
          (VMessages (Messages.flip (msgRef w)))
   else mret tt);;
  modify (fun w => mkWorld (store w) (conversations w) (conversationsRef w)
                     (activeConversationId w) (convMountedRef w) (messagesState w) []
                     (conversationIdRef w) (prevConversationIdRef w) false
                     (activeConversationIdRef w) (lifecycleCalls w)).

Definition with_conversationIdRef (c : option string) (w : World) : World :=
  mkWorld (store w) (conversations w) (conversationsRef w)
    (activeConversationId w) (convMountedRef w) (messagesState w) (msgRef w)
    c (prevConversationIdRef w) (msgMountedRef w)
    (activeConversationIdRef w) (lifecycleCalls w).

(** The effect [conversationIdRef.current = conversationId]. *)
Definition syncConversationIdRef (conversationId : option string) : Handler unit :=
  modify (with_conversationIdRef conversationId).

(** A change of [conversationId] from [old] to [new]: the cleanup of the
    effect that ran with [old], then the effects with [new] in the order
    of the hook, the ref sync and the load. *)
Definition switchConversation (old new : option string) : Handler unit :=
  effectCleanup old;;
  syncConversationIdRef new;;
  Messages.loadEffect new.

(** [updateMessage] *)
Definition updateMessage (messageId : string) (updater : Message -> Message)
    : Handler unit :=
  w ← get_world;
  setMessages (map (fun m => if String.eqb (msg_id m) messageId then updater m else m)
                   (messagesState w)).

(** [prependMessages] *)
Definition prependMessages (newMessages : list Message) : Handler unit :=
  w ← get_world;
  setMessages (newMessages ++ messagesState w).

(** The memoised [remainTokens]: [messages?.[messages?.length - 1]?.remainTokens] *)
Definition remainTokensOf (messages : list Message) : option Z :=
  match last messages with
  | Some m => remainTokens m
  | None => None
  end.

End Hook.
End MessageEffects.

(** ** useAiChat, the orchestrator: new conversation and titles *)

Module AiChatFlows.
Section Hook.
Context `{KeyScheme} `{DateParser}.

(** [handleNewConversation]: [savedAt] and [now] are the clock readings of
    the two calls. *)
Definition handleNewConversation (cid savedAt now : string) (model : option string)
    : Handler unit :=
  AiChat.saveMessages savedAt model;;
  _ ← Conversations.createConversation cid now model None;
  mret tt.

Definition MIN_MESSAGES_FOR_TITLE : nat := 3.

(** [generateConversationTitle] run from its call to its end, with
    [generating] the set [isGeneratingTitleRef.current] at the call.  The
    set is the same before and after, the id being added on entry and
    deleted in [finally]. *)
Definition generateConversationTitle
    (promptAI : string -> list PromptMessage -> outcome string)
    (now : string) (model : option string) (generating : gset string)
    (conversationId : string) (messagesForTitle : list Message) : Handler unit :=
  match model with
  | Some currentModelId =>
      if negb (truthy_str currentModelId) then mret tt else
      if bool_decide (conversationId ∈ generating) then mret tt else
      match promptAI currentModelId (Conversations.titleRequest messagesForTitle) with
      | Resolved summaryResult =>
          if truthy_str summaryResult
          then Conversations.updateConversationMeta now model conversationId
                 (Conversations.mkMetaUpdates
                    (Some (Some (str_slice0 50 (trimStr summaryResult)))) None None None)
          else mret tt
      | Rejected => mret tt
      end
  | None => mret tt
  end.

(** The conversations [generateMissingTitles] walks: those without a title
    that are not generating one. *)
Definition conversationsWithoutTitle (generating : gset string)
    (l : list ConversationMeta) : list ConversationMeta :=
  filter (fun c => negb (truthy (title c)) && negb (bool_decide (id c ∈ generating)) = true) l.

(** One turn of the loop of [generateMissingTitles]; [nowAt] reads the
    clock for the conversation whose title is written. *)
Definition titleTurn (promptAI : string -> list PromptMessage -> outcome string)
    (nowAt : string -> string) (model : option string) (generating : gset string)
    (conv : ConversationMeta) : Handler unit :=
  stored ← loadMessagesH (getMessagesKey (id conv));
  let storedMessages := default [] stored in
  if Nat.leb MIN_MESSAGES_FOR_TITLE (length storedMessages)
  then generateConversationTitle promptAI (nowAt (id conv)) model generating
         (id conv) storedMessages
  else mret tt.

(** [generateMissingTitles], its awaits run one after the other; the list
    walked is the one of the last render. *)
Definition generateMissingTitles
    (promptAI : string -> list PromptMessage -> outcome string)
    (nowAt : string -> string) (model : option string) (generating : gset string)
    : Handler unit :=
  match model with
  | Some currentModelId =>
      if negb (truthy_str currentModelId) then mret tt else
      w ← get_world;
      foldr (fun conv rest => titleTurn promptAI nowAt model generating conv;; rest)
            (mret tt)
            (conversationsWithoutTitle generating (conversations w))
  | None => mret tt
  end.

End Hook.
End AiChatFlows.

(** ** The model catalogue: sorting and loading *)

Module Catalog.
Import Number.

(** Modelled from the spec: [ModelInfo] is declared in hooks/models, which
    is not part of the sources; an immutable catalogue entry of an id, a
    name and a human-readable size. *)
Record ModelInfo := mkModelInfo {
  model_id : string;
  name : string;
  size : string
}.

#[global] Instance ModelInfo_eq_dec : EqDecision ModelInfo.
Proof. solve_decision. Defined.

(** What a sort reads off the comparator value [a - b], its sign: the
    difference is [NaN], which a sort takes as 0, when either number is
    [NaN] or both are infinite, and otherwise it has the sign of the order
    of the two, the rounded difference of two doubles being zero only when
    they are equal. *)
Definition subSign (a b : number) : Z :=
  match a, b with
  | Num x, Num y =>
      match (x ?= y)%Q with
      | Lt => (-1)%Z
      | Eq => 0%Z
      | Gt => 1%Z
      end
  | Infinity, Num _ => 1%Z
  | Num _, Infinity => (-1)%Z
  | _, _ => 0%Z
  end.

Definition bySizeAsc (a b : ModelInfo) : Z :=
  subSign (SizeParser.parseSizeToBytes (size a)) (SizeParser.parseSizeToBytes (size b)).

Definition bySizeDesc (a b : ModelInfo) : Z :=
  subSign (SizeParser.parseSizeToBytes (size b)) (SizeParser.parseSizeToBytes (size a)).

(** [sortModels] of the chat hook: the selected model first, the others by
    ascending size. *)
Definition sortModels (models : list ModelInfo) (selectedModelId : option string)
    : list ModelInfo :=
  let sel := default "" selectedModelId in
  let selectedModel :=
    if truthy selectedModelId
    then List.find (fun m => String.eqb (model_id m) sel) models
    else None in
  let otherModels :=
    if truthy selectedModelId
    then filter (fun m => model_id m <> sel) models
    else models in
  let sorted := sort bySizeAsc otherModels in
  match selectedModel with
  | Some m => m :: sorted
  | None => sorted
  end.

Inductive SortOrder : Type := asc | desc.

(** [toggleSortOrder] *)
Definition toggleSortOrder (o : SortOrder) : SortOrder :=
  match o with asc => desc | desc => asc end.

(** The memoised [sortedModels] of useModels and of the welcome screen. *)
Definition sortedModels (models : list ModelInfo) (sortOrder : SortOrder)
    : list ModelInfo :=
  sort (match sortOrder with asc => bySizeAsc | desc => bySizeDesc end) models.

(** The memoised [displayModels] of the model list sheet. *)
Definition displayModels (sortedModels : list ModelInfo)
    (selectedModelId : option string) (sortOrder : SortOrder) : list ModelInfo :=
  let sel := default "" selectedModelId in
  let selectedModel :=
    if truthy selectedModelId
    then List.find (fun m => String.eqb (model_id m) sel) sortedModels
    else None in
  let otherModels :=
    if truthy selectedModelId
    then filter (fun m => model_id m <> sel) sortedModels
    else sortedModels in
  let sortedOtherModels :=
    match sortOrder with desc => rev otherModels | asc => otherModels end in
  match selectedModel with
  | Some m => m :: sortedOtherModels
  | None => sortedOtherModels
  end.

(** The catalogue response as [loadModels] probes it. *)
Record ApiModelData := mkApiModelData {
  fieldId : string;
  fieldName : string;
  info1 : option string
}.

Record ApiEntry := mkApiEntry {
  attributes : option (option (list ApiModelData))
}.

Record ApiResponse := mkApiResponse {
  api_data : option (list ApiEntry)
}.

Record FetchResult := mkFetchResult {
  ok : bool;
  data : option ApiResponse
}.

(** State of useModels that [loadModels] writes. *)
Record ModelsState := mkModelsState {
  models : list ModelInfo;
  isLoading : bool;
  isRefreshing : bool
}.

Definition toModelInfo (item : ApiModelData) : ModelInfo :=
  mkModelInfo (fieldId item) (fieldName item)
    (default "0 MB" (or_else (info1 item) (Some "0 MB"))).

(** The models of a response: [None] when a probe fails. *)
Definition apiModels (response : option FetchResult) : option (list ApiModelData) :=
  match response with
  | Some r =>
      if ok r then
        match data r with
        | Some apiData =>
            match api_data apiData with
            | Some (first :: _) =>
                match attributes first with
                | Some (Some (item :: items)) => Some (item :: items)
                | _ => None
                end
            | _ => None
            end
        | None => None
        end
      else None
  | None => None
  end.

(** [loadModels]: [fetched] is the outcome of [fetchAiModels()],
    [AVAILABLE_MODELS] the bundled list. *)
Definition loadModels (AVAILABLE_MODELS : list ModelInfo) (isRefresh : bool)
    (fetched : outcome (option FetchResult)) (s : ModelsState) : ModelsState :=
  let s := if isRefresh
           then mkModelsState (models s) (isLoading s) true
           else mkModelsState (models s) true (isRefreshing s) in
  let finish (l : list ModelInfo) :=
    if isRefresh
    then mkModelsState l (isLoading s) false
    else mkModelsState l false (isRefreshing s) in
  match fetched with
  | Resolved response =>
      match apiModels response with
      | Some items => finish (map toModelInfo items)
      | None => finish AVAILABLE_MODELS
      end
  | Rejected => finish AVAILABLE_MODELS
  end.

End Catalog.

(** ** The single-hook chat: removal of models *)

Module ChatRemoval.
Import Chat.

(** [removeModel]: [unloaded] and [removed] are the outcomes of the two
    engine calls, each consulted only when the call is made. *)
Definition removeModel (unloaded removed : outcome unit) (s : State) : State :=
  let s :=
    match modelRef s with
    | Some loaded =>
        let s := engine (Unload loaded) s in
        match unloaded with
        | Resolved _ => setModelRef None s
        | Rejected => setModelRef None s
        end
    | None => s
    end in
  match selectedModelId s with
  | Some sel =>
      if negb (truthy_str sel) then s else
      let s := engine (Remove sel) s in
      match removed with
      | Resolved _ =>
          let s := setModelStatus not_setup s in
          let s := setDownloadProgress 0 s in
          let s := setSelectedModelId None s in
          setStorage (remove STORAGE_KEY_SELECTED_MODEL) s
      | Rejected => s
      end
  | None => s
  end.

(** [removeModelById]; [removed] is the outcome of the removal of
    [modelId] when the call does not hand over to [removeModel]. *)
Definition removeModelById (modelId : string) (unloaded removed : outcome unit)
    (s : State) : State :=
  if bool_decide (selectedModelId s = Some modelId) && bool_decide (modelStatus s = ready)
  then removeModel unloaded removed s
  else
    let s := engine (Remove modelId) s in
    match removed with
    | Resolved _ =>
        if bool_decide (selectedModelId s = Some modelId) then
          let s := setStorage (remove STORAGE_KEY_SELECTED_MODEL) s in
          let s := setSelectedModelId None s in
          setModelStatus not_setup s
        else s
    | Rejected => s
    end.

(** [modelLoadingState] *)
Inductive ModelLoadingState : Type := loading (status : ModelStatus) | idle_.

Definition modelLoadingState (s : State) : ModelLoadingState :=
  match modelStatus s with
  | downloading => loading downloading
  | preparing => loading preparing
  | _ => idle_
  end.

End ChatRemoval.

(** ** useModels: removal of a model with its conversations *)

Module ModelsStore.
Section Hook.
Context `{KeyScheme}.

(** The storage part of [removeModel] of useModels: [removed] is the
    outcome of the engine's removal.  The result is [Rejected] when the
    call throws. *)
Definition removeModel (modelId : string) (removed : outcome unit) (st : Store)
    : outcome unit * Store :=
  match removed with
  | Resolved _ =>
      let listKey := getConversationListKey modelId in
      let conversations := default [] (load_conversations listKey st) in
      let st := Conversations.removeMessageRecords conversations st in
      let st := remove listKey st in
      let st := remove (getLastConversationKey modelId) st in
      let st := remove modelId st in
      (Resolved tt, st)
  | Rejected => (Rejected, st)
  end.

End Hook.
End ModelsStore.

(** ** The conversation list: relative dates *)

Module Dates.

(** [formatDate]: [time] is [new Date(dateStr).getTime()], [None] for
    the [NaN] of an invalid date, against which every comparison is false;
    [nowMs] is the clock reading and [toLocaleDateString] the platform's
    rendering of a date.  Times are integers of at most 8.64e15 in size,
    so the quotients the function prints, all below 60, are exact. *)
Definition formatDate (time : string -> option Z)
    (toLocaleDateString : string -> string) (nowMs : Z) (dateStr : string) : string :=
  match time dateStr with
  | None => toLocaleDateString dateStr
  | Some t =>
      let diffMs := (nowMs - t)%Z in
      let diffMins := (diffMs / 60000)%Z in
      let diffHours := (diffMs / 3600000)%Z in
      let diffDays := (diffMs / 86400000)%Z in
      if (diffMins <? 1)%Z then "Just now"
      else if (diffMins <? 60)%Z then String.append (pretty diffMins) "m ago"
      else if (diffHours <? 24)%Z then String.append (pretty diffHours) "h ago"
      else if (diffDays <? 7)%Z then String.append (pretty diffDays) "d ago"
      else toLocaleDateString dateStr
  end.

End Dates.

(** * Properties *)

(** ** Strings and lists *)

Lemma append_cons (a : ascii) (s t : string) :
  String.append (String a s) t = String a (String.append s t).
Proof. reflexivity. Qed.

Lemma append_empty_l (t : string) : String.append "" t = t.
Proof. reflexivity. Qed.

Lemma length_append (s t : string) :
  String.length (String.append s t) = String.length s + String.length t.
Proof.
  induction s as [|a s IH]; [reflexivity|].
  rewrite append_cons. simpl. now rewrite IH.
Qed.

Lemma append_inj_r (p s t : string) :
  String.append p s = String.append p t -> s = t.
Proof.
  induction p as [|a p IH]; [now rewrite !append_empty_l|].
  rewrite !append_cons. intros Heq. injection Heq as Heq. now apply IH.
Qed.

(** [join ""] adds up the lengths of the pieces. *)
Lemma length_join_empty (l : list string) :
  String.length (join "" l) = sum_list (map String.length l).
Proof.
  induction l as [|x [|y rest] IH].
  - reflexivity.
  - simpl. lia.
  - change (join "" (x :: y :: rest))
      with (String.append x (String.append "" (join "" (y :: rest)))).
    rewrite append_empty_l, length_append, IH. reflexivity.
Qed.

(** ** A concrete key scheme and clock *)

Module Sample.

Definition listKey (m : string) : string := String.append "conversations:" m.
Definition messagesKey (c : string) : string := String.append "messages:" c.
Definition lastKey (m : string) : string := String.append "last:" m.

Lemma messagesKey_inj c c' : messagesKey c = messagesKey c' -> c = c'.
Proof. apply append_inj_r. Qed.

Lemma listKey_not_messagesKey m c : listKey m <> messagesKey c.
Proof. unfold listKey, messagesKey. rewrite !append_cons. discriminate. Qed.

Lemma lastKey_not_messagesKey m c : lastKey m <> messagesKey c.
Proof. unfold lastKey, messagesKey. rewrite !append_cons. discriminate. Qed.

Lemma listKey_not_lastKey m m' : listKey m <> lastKey m'.
Proof. unfold listKey, lastKey. rewrite !append_cons. discriminate. Qed.

#[export] Instance keys : KeyScheme := {|
  getConversationListKey := listKey;
  getMessagesKey := messagesKey;
  getLastConversationKey := lastKey;
  messages_key_inj := messagesKey_inj;
  list_key_not_messages := listKey_not_messagesKey;
  last_key_not_messages := lastKey_not_messagesKey;
  list_key_not_last := listKey_not_lastKey
|}.

(** A clock that reads a timestamp as the number its digits spell. *)
#[export] Instance clock : DateParser :=
  fun s => SizeParser.digitsValue (list_ascii_of_string s).

Definition msg (i t : string) (user : bool) (flag : option bool) : Message :=
  mkMessage i t user "2024-01-01T00:00:00.000Z" flag None.

Definition conv (i m updated : string) : ConversationMeta :=
  mkConversationMeta i m None None "1" updated None.

End Sample.

(** ** Handlers *)

Ltac unfold_handler :=
  cbv beta iota zeta delta
    [run result mbind mret Handler_bind Handler_ret get_world modify
     saveH removeH loadMessagesH loadConversationsH loadStringH
     setConversations setConversationsRef setActiveConversationId setMessages
     fst snd] in *.

Lemma run_bind {A B} (c : Handler A) (k : A -> Handler B) (w : World) :
  run (c ≫= k) w = run (k (result c w)) (run c w).
Proof. unfold run, result, mbind, Handler_bind. now destruct (c w). Qed.

(** Lookups in a store built from [save] and [remove]. *)
Ltac store_lookup :=
  unfold load_messages, load_conversations, load_string, save, remove;
  repeat first
    [ rewrite lookup_insert_eq
    | rewrite lookup_delete_eq
    | rewrite lookup_insert_ne by (auto; congruence)
    | rewrite lookup_delete_ne by (auto; congruence) ];
  try reflexivity.

Lemma load_messages_save_eq k l (st : Store) :
  load_messages k (save k (VMessages l) st) = Some l.
Proof. unfold load_messages, save. now rewrite lookup_insert_eq. Qed.

Lemma load_messages_save_ne k k' v (st : Store) :
  k' <> k -> load_messages k (save k' v st) = load_messages k st.
Proof. intros Hne. unfold load_messages, save. now rewrite lookup_insert_ne. Qed.

Lemma load_messages_remove_ne k k' (st : Store) :
  k' <> k -> load_messages k (remove k' st) = load_messages k st.
Proof. intros Hne. unfold load_messages, remove. now rewrite lookup_delete_ne. Qed.

Lemma load_conversations_save_eq k l (st : Store) :
  load_conversations k (save k (VConversations l) st) = Some l.
Proof. unfold load_conversations, save. now rewrite lookup_insert_eq. Qed.

Lemma load_conversations_save_ne k k' v (st : Store) :
  k' <> k -> load_conversations k (save k' v st) = load_conversations k st.
Proof. intros Hne. unfold load_conversations, save. now rewrite lookup_insert_ne. Qed.

Lemma load_string_save_eq k s (st : Store) :
  load_string k (save k (VString s) st) = Some s.
Proof. unfold load_string, save. now rewrite lookup_insert_eq. Qed.

Lemma load_string_save_ne k k' v (st : Store) :
  k' <> k -> load_string k (save k' v st) = load_string k st.
Proof. intros Hne. unfold load_string, save. now rewrite lookup_insert_ne. Qed.

(** ** totalToken *)

Section TotalToken.

Lemma inContext_true (m : Message) :
  Messages.inContext m = true <-> includeInContext m = Some true.
Proof.
  unfold Messages.inContext. destruct (includeInContext m) as [[|]|]; split; congruence.
Qed.

(** C9. For every in-memory message list, [totalToken] is the length of the
    concatenation of the texts of exactly the messages whose
    [includeInContext] flag is true, that is, the sum of their character
    counts. *)
Theorem totalToken_counts_context_characters (messages : list Message) :
  let included := filter (fun m => includeInContext m = Some true) messages in
  Messages.totalToken messages = String.length (String.concat "" (map text included))
  /\ Messages.totalToken messages = sum_list (map (fun m => String.length (text m)) included).
Proof.
  intros included. unfold Messages.totalToken.
  assert (Hsame : filter (fun item => Messages.inContext item = true) messages = included).
  { subst included. induction messages as [|m rest IH]; [reflexivity|].
    rewrite !filter_cons, IH.
    destruct (decide (Messages.inContext m = true)) as [Hin|Hout];
      destruct (decide (includeInContext m = Some true)) as [Hflag|Hflag];
      try reflexivity; exfalso.
    all: first [ apply Hflag; now apply inContext_true
               | apply Hout; now apply inContext_true ]. }
  rewrite Hsame. split.
  - reflexivity.
  - rewrite length_join_empty, map_map. reflexivity.
Qed.

End TotalToken.

(** ** saveMessages and the load effect *)

Section MessagePersistence.
Context `{KeyScheme} `{DateParser}.

Lemma flip_flip (l : list Message) :
  Messages.flip (Messages.flip l) = map Messages.withContextFlag l.
Proof.
  unfold Messages.flip. rewrite map_rev, rev_involutive, map_map.
  apply map_ext. intros m. unfold Messages.withContextFlag. simpl.
  f_equal. f_equal. destruct (includeInContext m) as [[|]|]; reflexivity.
Qed.

Lemma withContextFlag_defined (m : Message) :
  is_Some (includeInContext m) -> Messages.withContextFlag m = m.
Proof.
  intros [b Hb]. destruct m as [i t u ts flag r]. simpl in Hb. subst flag.
  unfold Messages.withContextFlag. simpl. destruct b; reflexivity.
Qed.

Lemma map_withContextFlag_defined (l : list Message) :
  Forall (fun m => is_Some (includeInContext m)) l ->
  map Messages.withContextFlag l = l.
Proof.
  induction 1 as [|m rest Hm _ IH]; [reflexivity|].
  simpl. now rewrite withContextFlag_defined, IH.
Qed.

Lemma flip_nil_inv (l : list Message) : Messages.flip l = [] -> l = [].
Proof.
  unfold Messages.flip. intros Hnil.
  apply (f_equal (@length _)) in Hnil. rewrite length_rev, length_map in Hnil.
  now destruct l.
Qed.

(** The store after [updateConversationMeta] differs from the one before
    at the conversation list key only. *)
Lemma updateConversationMeta_store now model conversationId updates (w : World) k :
  (forall m, k <> getConversationListKey m) ->
  store (run (Conversations.updateConversationMeta now model conversationId updates) w) !! k
  = store w !! k.
Proof.
  intros Hk. unfold Conversations.updateConversationMeta.
  destruct model as [m|]; [|reflexivity].
  destruct (truthy_str m); [|reflexivity].
  unfold_handler. simpl. unfold save. rewrite lookup_insert_ne; [reflexivity|].
  intros Heq. now apply (Hk m).
Qed.

Lemma handleMessagesChange_store now model messages (w : World) c :
  store (run (AiChat.handleMessagesChange now model messages) w) !! getMessagesKey c
  = store w !! getMessagesKey c.
Proof.
  unfold AiChat.handleMessagesChange. unfold_handler. simpl.
  destruct (activeConversationIdRef w) as [a|]; [|reflexivity].
  destruct (negb (truthy_str a) || Messages.isEmpty messages); [reflexivity|].
  apply (updateConversationMeta_store now model a _ w).
  intros m Heq. symmetry in Heq. now apply list_key_not_messages in Heq.
Qed.

Lemma handleMessagesChange_messages now model messages (w : World) :
  msgRef (run (AiChat.handleMessagesChange now model messages) w) = msgRef w
  /\ prevConversationIdRef (run (AiChat.handleMessagesChange now model messages) w)
     = prevConversationIdRef w.
Proof.
  unfold AiChat.handleMessagesChange, Conversations.updateConversationMeta.
  unfold_handler. simpl.
  destruct (activeConversationIdRef w) as [a|]; [|split; reflexivity].
  destruct (negb (truthy_str a) || Messages.isEmpty messages); [split; reflexivity|].
  destruct model as [m|]; [|split; reflexivity].
  destruct (negb (truthy_str m)); split; reflexivity.
Qed.

(** What the load effect leaves in memory when the conversation has a
    non-empty persisted record. *)
Lemma loadEffect_messages (c : string) (stored : list Message) (w : World) :
  truthy_str c = true ->
  stored <> [] ->
  load_messages (getMessagesKey c) (store w) = Some stored ->
  messagesState (run (Messages.loadEffect (Some c)) w) = Messages.flip stored
  /\ msgRef (run (Messages.loadEffect (Some c)) w) = Messages.flip stored.
Proof.
  intros Hc Hne Hload.
  assert (Hkeep : forall prev, Some c <> Some prev ->
            load_messages (getMessagesKey c)
              (save (getMessagesKey prev) (VMessages (Messages.flip (msgRef w))) (store w))
            = Some stored).
  { intros prev Hdiff. rewrite load_messages_save_ne; [exact Hload|].
    intros Hk. apply Hdiff. f_equal. symmetry. now apply messages_key_inj. }
  unfold Messages.loadEffect.
  destruct stored as [|x rest]; [contradiction|].
  destruct (prevConversationIdRef w) as [prev|] eqn:Hprev.
  - destruct (truthy_str prev && negb (bool_decide (Some c = Some prev))) eqn:Hguard.
    + apply andb_true_iff in Hguard as [Hprevt Hdiff].
      apply negb_true_iff, bool_decide_eq_false in Hdiff.
      destruct (Messages.isEmpty (msgRef w)) eqn:Hempty.
      * unfold_handler. simpl. rewrite Hprev, Hprevt. simpl.
        rewrite (bool_decide_eq_false_2 _ Hdiff). simpl.
        rewrite Hempty, Hc. unfold_handler. simpl. rewrite Hload. simpl.
        split; reflexivity.
      * unfold_handler. simpl. rewrite Hprev, Hprevt. simpl.
        rewrite (bool_decide_eq_false_2 _ Hdiff). simpl.
        rewrite Hempty, Hc. unfold_handler. simpl. rewrite (Hkeep prev Hdiff). simpl.
        split; reflexivity.
    + unfold_handler. simpl. rewrite Hprev, Hguard, Hc. unfold_handler. simpl.
      rewrite Hload. simpl. split; reflexivity.
  - unfold_handler. simpl. rewrite Hprev, Hc. unfold_handler. simpl.
    rewrite Hload. simpl. split; reflexivity.
Qed.

Lemma saveMessages_store now model c (w : World) :
  truthy_str c = true ->
  conversationIdRef w = Some c ->
  msgRef w <> [] ->
  load_messages (getMessagesKey c) (store (run (AiChat.saveMessages now model) w))
  = Some (Messages.flip (msgRef w)).
Proof.
  intros Hc Hconv Hne.
  unfold AiChat.saveMessages, Messages.saveMessages.
  rewrite run_bind. change (result get_world w) with w. change (run get_world w) with w.
  rewrite Hconv, Hc.
  destruct (msgRef w) as [|x rest] eqn:Hmsgs; [contradiction|].
  change (negb true || Messages.isEmpty (x :: rest)) with false. cbv iota.
  rewrite run_bind.
  unfold load_messages. rewrite handleMessagesChange_store.
  unfold saveH, modify, run. simpl. unfold save. now rewrite lookup_insert_eq.
Qed.

(** C2 (as amended). For every non-empty in-memory message list, saving it
    for a conversation persists the reverse of the list in which a missing
    [includeInContext] flag is set to true, and the in-memory state a load
    produces is the reverse of the persisted sequence under the same
    defaulting; saving and loading back returns the list with its flags
    defaulted.  When every message carries the flag, the persisted
    sequence is the exact reverse of the list and the round trip returns
    the list itself. *)
Theorem save_load_round_trip now model c (w : World) :
  truthy_str c = true ->
  conversationIdRef w = Some c ->
  msgRef w <> [] ->
  let saved := run (AiChat.saveMessages now model) w in
  let loaded := run (Messages.loadEffect (Some c)) saved in
  let persisted := rev (map Messages.withContextFlag (msgRef w)) in
  load_messages (getMessagesKey c) (store saved) = Some persisted
  /\ messagesState loaded = rev (map Messages.withContextFlag persisted)
  /\ messagesState loaded = map Messages.withContextFlag (msgRef w)
  /\ (Forall (fun m => is_Some (includeInContext m)) (msgRef w) ->
      persisted = rev (msgRef w)
      /\ messagesState loaded = rev persisted
      /\ messagesState loaded = msgRef w).
Proof.
  intros Hc Hconv Hne saved loaded persisted.
  pose proof (saveMessages_store now model c w Hc Hconv Hne) as Hsaved.
  fold saved in Hsaved.
  assert (Hpne : Messages.flip (msgRef w) <> []).
  { intros Hnil. apply Hne. now apply flip_nil_inv. }
  destruct (loadEffect_messages c _ saved Hc Hpne Hsaved) as [Hstate _].
  fold loaded in Hstate.
  assert (Hround : messagesState loaded = map Messages.withContextFlag (msgRef w)).
  { rewrite Hstate. apply flip_flip. }
  repeat split.
  - exact Hsaved.
  - exact Hstate.
  - exact Hround.
  - subst persisted. now rewrite map_withContextFlag_defined.
  - rewrite Hround. subst persisted.
    rewrite rev_involutive. reflexivity.
  - rewrite Hround. now apply map_withContextFlag_defined.
Qed.

(** C10. Without an active conversation id, or with an empty message
    buffer, [saveMessages] changes nothing: the session, and with it the
    store, is the one before the call, so a record persisted earlier for
    the conversation is still there. *)
Theorem saveMessages_guarded_noop
    (onMessagesChange : option (list Message -> Handler unit)) (w : World) :
  truthy (conversationIdRef w) = false \/ msgRef w = [] ->
  Messages.saveMessages onMessagesChange w = (tt, w)
  /\ store (run (Messages.saveMessages onMessagesChange) w) = store w
  /\ (forall c stored,
        load_messages (getMessagesKey c) (store w) = Some stored ->
        load_messages (getMessagesKey c)
          (store (run (Messages.saveMessages onMessagesChange) w)) = Some stored).
Proof.
  intros Hguard.
  assert (Hsame : Messages.saveMessages onMessagesChange w = (tt, w)).
  { unfold Messages.saveMessages. unfold_handler.
    destruct (conversationIdRef w) as [c|]; [|reflexivity].
    destruct Hguard as [Hfalsy|Hempty].
    - simpl in Hfalsy. now rewrite Hfalsy.
    - rewrite Hempty. simpl. now rewrite orb_true_r. }
  unfold run. rewrite Hsame. simpl. repeat split; auto.
Qed.

End MessagePersistence.

Module MessageExamples.
Import Sample.

(** A session with two live messages, the newer without the flag. *)
Definition live : World :=
  mkWorld ∅ [conv "c1" "m1" "10"] [conv "c1" "m1" "10"] (Some "c1") true
    [msg "2" "hello" false None; msg "1" "hi" true (Some false)]
    [msg "2" "hello" false None; msg "1" "hi" true (Some false)]
    (Some "c1") (Some "c1") true (Some "c1") [].

(** A session whose buffer is empty while a record is persisted. *)
Definition drained : World :=
  mkWorld {[ messagesKey "c1" := VMessages [msg "1" "hi" true (Some true)] ]}
    [] [] (Some "c1") true [] [] (Some "c1") (Some "c1") true (Some "c1") [].

Lemma save_load_round_trip_witness :
  messagesState (run (Messages.loadEffect (Some "c1"))
                   (run (AiChat.saveMessages "11" (Some "m1")) live))
  = map Messages.withContextFlag (msgRef live).
Proof.
  destruct (save_load_round_trip "11" (Some "m1") "c1" live) as (_ & _ & Hround & _).
  - reflexivity.
  - reflexivity.
  - discriminate.
  - exact Hround.
Defined.

(** A session that holds a record written before the flag existed, as a
    migration stores it. *)
Definition migrated : World :=
  mkWorld {[ messagesKey "c1" := VMessages [msg "1" "hi" true None; msg "2" "hello" false None] ]}
    [conv "c1" "m1" "10"] [conv "c1" "m1" "10"] (Some "c1") true
    [] [] (Some "c1") None true (Some "c1") [].

(** The record persisted for [live] is not the reverse of its buffer, and
    the state loaded from the record of [migrated] is not the reverse of
    that record: a message without the flag gains it on the way. *)
Lemma persisted_is_not_exact_reverse :
  load_messages (messagesKey "c1") (store (run (AiChat.saveMessages "11" (Some "m1")) live))
  <> Some (rev (msgRef live))
  /\ load_messages (messagesKey "c1") (store migrated)
     = Some [msg "1" "hi" true None; msg "2" "hello" false None]
  /\ messagesState (run (Messages.loadEffect (Some "c1")) migrated)
     <> rev [msg "1" "hi" true None; msg "2" "hello" false None].
Proof.
  split; [|split].
  - vm_compute. intros Heq. discriminate Heq.
  - reflexivity.
  - vm_compute. intros Heq. discriminate Heq.
Qed.

Lemma saveMessages_guarded_noop_witness :
  load_messages (messagesKey "c1") (store (run (Messages.saveMessages None) drained))
  = Some [msg "1" "hi" true (Some true)].
Proof.
  destruct (saveMessages_guarded_noop None drained) as (_ & _ & Hkept).
  - right. reflexivity.
  - apply (Hkept "c1"). reflexivity.
Defined.

End MessageExamples.

(** ** The conversation store *)

Section ConversationStore.
Context `{KeyScheme} `{DateParser}.

Abbreviation newestFirst := (sort Conversations.byUpdatedAtDesc).
Abbreviation time c := (getTime (updatedAt c)).

Lemma insert_sorted_not_nil {A} (cmp : A -> A -> Z) (x : A) (l : list A) :
  insert_sorted cmp x l <> [].
Proof. destruct l as [|y rest]; simpl; [|destruct (0 <? cmp x y)%Z]; discriminate. Qed.

Lemma sort_nil_inv {A} (cmp : A -> A -> Z) (l : list A) : sort cmp l = [] -> l = [].
Proof.
  destruct l as [|x rest]; [reflexivity|].
  unfold sort. simpl. intros Hnil. now apply insert_sorted_not_nil in Hnil.
Qed.

(** The head of the sorted list is the first conversation of the list that
    no other one is newer than. *)
Lemma sort_head_newest (l : list ConversationMeta) first rest :
  newestFirst l = first :: rest ->
  exists pre post,
    l = pre ++ first :: post
    /\ (forall c, c ∈ pre -> (time c < time first)%Z)
    /\ (forall c, c ∈ post -> (time c <= time first)%Z).
Proof.
  revert first rest. induction l as [|x l IH]; intros first rest Hsort.
  - discriminate.
  - unfold sort in Hsort. simpl in Hsort. fold (newestFirst l) in Hsort.
    destruct (newestFirst l) as [|y sorted] eqn:Hsorted.
    + apply sort_nil_inv in Hsorted. subst l. simpl in Hsort.
      injection Hsort as <- <-. exists [], []. repeat split.
      * intros c Hc. now apply elem_of_nil in Hc.
      * intros c Hc. now apply elem_of_nil in Hc.
    + destruct (IH y sorted eq_refl) as (pre & post & Hl & Hpre & Hpost).
      simpl in Hsort. unfold Conversations.byUpdatedAtDesc in Hsort at 1.
      destruct (0 <? time y - time x)%Z eqn:Hcmp.
      * injection Hsort as <- _. apply Z.ltb_lt in Hcmp.
        exists (x :: pre), post. repeat split.
        -- now rewrite Hl.
        -- intros c Hc. apply elem_of_cons in Hc as [->|Hc]; [lia|now apply Hpre].
        -- exact Hpost.
      * injection Hsort as <- _. apply Z.ltb_ge in Hcmp.
        exists [], l. repeat split.
        -- intros c Hc. now apply elem_of_nil in Hc.
        -- intros c Hc. rewrite Hl in Hc.
           apply elem_of_app in Hc as [Hc|Hc].
           ++ specialize (Hpre c Hc). lia.
           ++ apply elem_of_cons in Hc as [->|Hc]; [lia|].
              specialize (Hpost c Hc). lia.
Qed.

(** C3. [deleteConversation] removes the message record and the list entry
    of the conversation.  When the conversation was the active one and
    others survive, the new active conversation is the most recently
    updated survivor (the first such in list order) and the last-active
    pointer names it; when none survives, the active id is cleared and the
    last-active record removed; when another conversation was active, the
    active id is unchanged. *)
Theorem deleteConversation_spec (m conversationId : string) (w : World) :
  truthy_str m = true ->
  let w' := run (Conversations.deleteConversation (Some m) conversationId) w in
  let survivors := filter (fun c => id c <> conversationId) (conversationsRef w) in
  store w' !! getMessagesKey conversationId = None
  /\ load_conversations (getConversationListKey m) (store w') = Some survivors
  /\ conversations w' = survivors
  /\ (forall c, c ∈ survivors -> id c <> conversationId)
  /\ (activeConversationId w = Some conversationId ->
      survivors <> [] ->
      exists newest pre post,
        survivors = pre ++ newest :: post
        /\ (forall c, c ∈ pre -> (time c < time newest)%Z)
        /\ (forall c, c ∈ post -> (time c <= time newest)%Z)
        /\ activeConversationId w' = Some (id newest)
        /\ load_string (getLastConversationKey m) (store w') = Some (id newest))
  /\ (activeConversationId w = Some conversationId ->
      survivors = [] ->
      activeConversationId w' = None
      /\ store w' !! getLastConversationKey m = None)
  /\ (activeConversationId w <> Some conversationId ->
      activeConversationId w' = activeConversationId w).
Proof.
  intros Hm w' survivors.
  assert (Hlm : getConversationListKey m <> getMessagesKey conversationId)
    by apply list_key_not_messages.
  assert (Hpm : getLastConversationKey m <> getMessagesKey conversationId)
    by apply last_key_not_messages.
  assert (Hlp : getConversationListKey m <> getLastConversationKey m)
    by apply list_key_not_last.
  assert (Hsurv : forall c, c ∈ survivors -> id c <> conversationId).
  { intros c Hc. subst survivors. now apply list_elem_of_filter in Hc as [Hc _]. }
  subst w'. unfold Conversations.deleteConversation. rewrite Hm.
  unfold_handler. simpl. fold survivors.
  destruct (decide (activeConversationId w = Some conversationId)) as [Hactive|Hother].
  - destruct (newestFirst survivors) as [|first sorted] eqn:Hsorted.
    + apply sort_nil_inv in Hsorted. simpl. rewrite Hsorted in *.
      repeat split; auto; try (intros; contradiction); store_lookup.
    + destruct (sort_head_newest survivors first sorted Hsorted)
        as (pre & post & Hsplit & Hpre & Hpost).
      simpl.
      repeat split; auto; try (intros; contradiction); try store_lookup.
      * intros _ _. exists first, pre, post. repeat split; auto.
      * match goal with Hnil : survivors = [] |- _ => rewrite Hnil in Hsorted end.
        discriminate Hsorted.
      * match goal with Hnil : survivors = [] |- _ => rewrite Hnil in Hsorted end.
        discriminate Hsorted.
  - simpl.
    repeat split; auto; try (intros; contradiction); store_lookup.
Qed.

(** The outcome of a migration that goes ahead. *)
Lemma migrateLegacyData_run promptAI cid now m (w : World) legacy :
  truthy_str m = true ->
  legacy <> [] ->
  load_messages m (store w) = Some legacy ->
  (load_conversations (getConversationListKey m) (store w) = None
   \/ load_conversations (getConversationListKey m) (store w) = Some []) ->
  exists meta,
    id meta = cid /\ modelId meta = m
    /\ result (Conversations.migrateLegacyData promptAI cid now (Some m)) w = true
    /\ store (run (Conversations.migrateLegacyData promptAI cid now (Some m)) w)
       = remove m
           (save (getLastConversationKey m) (VString cid)
              (save (getConversationListKey m) (VConversations [meta])
                 (save (getMessagesKey cid) (VMessages legacy) (store w)))).
Proof.
  intros Hm Hne Hlegacy Hlist.
  unfold Conversations.migrateLegacyData. rewrite Hm.
  unfold_handler. simpl. rewrite Hlegacy.
  destruct legacy as [|x rest]; [contradiction|].
  eexists (mkConversationMeta cid m _ None now now _).
  split; [reflexivity|]. split; [reflexivity|].
  destruct Hlist as [Hlist|Hlist]; rewrite Hlist; simpl;
    destruct (convMountedRef w); split; reflexivity.
Qed.

(** C1 (as amended). [migrateLegacyData] returns false, changing nothing,
    when no legacy messages exist under the bare model id or when a
    non-empty conversation list is persisted for the model.  Otherwise,
    for a non-empty model id, it writes the legacy messages verbatim under
    the new conversation's message key, writes a single-entry conversation
    list, points the last-active record at the new conversation, deletes
    the legacy record and returns true; a second call then returns false
    and changes nothing. *)
Theorem migrateLegacyData_spec promptAI (cid now m : string) (w : World) :
  ((load_messages m (store w) = None
    \/ load_messages m (store w) = Some []
    \/ (exists l, l <> []
          /\ load_conversations (getConversationListKey m) (store w) = Some l)) ->
   Conversations.migrateLegacyData promptAI cid now (Some m) w = (false, w))
  /\
  (truthy_str m = true ->
   legacy_key_apart m cid ->
   forall legacy,
     legacy <> [] ->
     load_messages m (store w) = Some legacy ->
     (load_conversations (getConversationListKey m) (store w) = None
      \/ load_conversations (getConversationListKey m) (store w) = Some []) ->
     let w' := run (Conversations.migrateLegacyData promptAI cid now (Some m)) w in
     result (Conversations.migrateLegacyData promptAI cid now (Some m)) w = true
     /\ load_messages (getMessagesKey cid) (store w') = Some legacy
     /\ (exists meta,
          load_conversations (getConversationListKey m) (store w') = Some [meta]
          /\ id meta = cid /\ modelId meta = m)
     /\ load_string (getLastConversationKey m) (store w') = Some cid
     /\ store w' !! m = None
     /\ (forall promptAI' cid' now',
          Conversations.migrateLegacyData promptAI' cid' now' (Some m) w' = (false, w'))).
Proof.
  split.
  - intros Hclosed. unfold Conversations.migrateLegacyData.
    destruct (negb (truthy_str m)); [reflexivity|].
    unfold_handler.
    destruct Hclosed as [Hnone|[Hempty|(l & Hl & Hlist)]].
    + now rewrite Hnone.
    + now rewrite Hempty.
    + destruct (load_messages m (store w)) as [[|x rest]|]; try reflexivity.
      rewrite Hlist. destruct l; [contradiction|reflexivity].
  - intros Hm (Hlist_m & Hlast_m & Hmsgs_m) legacy Hne Hlegacy Hlist w'.
    destruct (migrateLegacyData_run promptAI cid now m w legacy Hm Hne Hlegacy Hlist)
      as (meta & Hid & Hmodel & Hres & Hstore).
    fold w' in Hstore.
    assert (Hlm : getConversationListKey m <> getMessagesKey cid)
      by apply list_key_not_messages.
    assert (Hpm : getLastConversationKey m <> getMessagesKey cid)
      by apply last_key_not_messages.
    assert (Hlp : getConversationListKey m <> getLastConversationKey m)
      by apply list_key_not_last.
    assert (Hgone : store w' !! m = None).
    { rewrite Hstore. store_lookup. }
    repeat split.
    + exact Hres.
    + rewrite Hstore. store_lookup.
    + exists meta. rewrite Hstore. repeat split; auto. store_lookup.
    + rewrite Hstore. store_lookup.
    + exact Hgone.
    + intros promptAI' cid' now'. unfold Conversations.migrateLegacyData.
      destruct (negb (truthy_str m)); [reflexivity|].
      unfold_handler. unfold load_messages. now rewrite Hgone.
Qed.

(** [deleteAllConversations] only removes records. *)
Lemma removeMessageRecords_absent (l : list ConversationMeta) (st : Store) k :
  st !! k = None -> Conversations.removeMessageRecords l st !! k = None.
Proof.
  unfold Conversations.removeMessageRecords.
  revert st. induction l as [|c rest IH]; intros st Hk; [exact Hk|].
  cbn [fold_left]. apply IH. unfold remove.
  destruct (decide (getMessagesKey (id c) = k)) as [->|Hne];
    [apply lookup_delete_eq|now rewrite lookup_delete_ne].
Qed.

(** The message record of every conversation it walks is gone. *)
Lemma removeMessageRecords_removed (l : list ConversationMeta) (st : Store) c :
  c ∈ l -> Conversations.removeMessageRecords l st !! getMessagesKey (id c) = None.
Proof.
  revert st. induction l as [|x rest IH]; intros st Hc.
  - now apply elem_of_nil in Hc.
  - apply elem_of_cons in Hc as [->|Hc].
    + change (Conversations.removeMessageRecords (x :: rest) st)
        with (Conversations.removeMessageRecords rest (remove (getMessagesKey (id x)) st)).
      apply removeMessageRecords_absent. apply lookup_delete_eq.
    + change (Conversations.removeMessageRecords (x :: rest) st)
        with (Conversations.removeMessageRecords rest (remove (getMessagesKey (id x)) st)).
      now apply IH.
Qed.

(** C8. After [removeModel] for a model, the message record of every
    conversation of the model, the conversation list record and the
    last-active record are absent from storage, the in-memory message list
    and conversation list are empty, no conversation is active, and the
    removal of the model has been handed to the lifecycle component. *)
Theorem removeModel_cascades (m : string) (w : World) :
  truthy_str m = true ->
  let w' := run (AiChat.removeModel (Some m)) w in
  (forall c, c ∈ conversationsRef w -> store w' !! getMessagesKey (id c) = None)
  /\ store w' !! getConversationListKey m = None
  /\ store w' !! getLastConversationKey m = None
  /\ messagesState w' = [] /\ msgRef w' = []
  /\ conversations w' = [] /\ conversationsRef w' = []
  /\ activeConversationId w' = None
  /\ lifecycleCalls w' = lifecycleCalls w ++ [RemoveModelFromDevice]
  /\ (forall k, store w !! k = None -> store w' !! k = None).
Proof.
  intros Hm w'. subst w'.
  unfold AiChat.removeModel, Conversations.deleteAllConversations. rewrite Hm.
  unfold_handler. simpl.
  assert (Hlp : getConversationListKey m <> getLastConversationKey m)
    by apply list_key_not_last.
  repeat split; try reflexivity.
  - intros c Hc. unfold remove.
    rewrite !lookup_delete_ne
      by first [apply last_key_not_messages | apply list_key_not_messages].
    now apply removeMessageRecords_removed.
  - store_lookup.
  - store_lookup.
  - intros k Hk. unfold remove.
    destruct (decide (k = getLastConversationKey m)) as [->|Hk1];
      [now rewrite lookup_delete_eq|rewrite lookup_delete_ne by congruence].
    destruct (decide (k = getConversationListKey m)) as [->|Hk2];
      [now rewrite lookup_delete_eq|rewrite lookup_delete_ne by congruence].
    now apply removeMessageRecords_absent.
Qed.

End ConversationStore.

Module StoreExamples.
Import Sample.

(** A title generator that always fails. *)
Definition noTitle (m : string) (request : list PromptMessage) : outcome string :=
  Rejected.

Definition legacyMessages : list Message :=
  [msg "1" "hi" true None; msg "2" "hello" false None].

(** A model used before conversations existed. *)
Definition legacyWorld : World :=
  mkWorld {[ "m1" := VMessages legacyMessages ]}
    [] [] None true [] [] None None true None [].

(** Legacy messages next to a conversation list record that is empty. *)
Definition emptiedWorld : World :=
  mkWorld {[ "m1" := VMessages legacyMessages; listKey "m1" := VConversations [] ]}
    [] [] None true [] [] None None true None [].

(** Three conversations of one model, the first one active. *)
Definition threeConversations : World :=
  let l := [conv "c1" "m1" "10"; conv "c2" "m1" "30"; conv "c3" "m1" "20"] in
  mkWorld {[ listKey "m1" := VConversations l;
             lastKey "m1" := VString "c1";
             messagesKey "c1" := VMessages legacyMessages;
             messagesKey "c2" := VMessages legacyMessages;
             messagesKey "c3" := VMessages [] ]}
    l l (Some "c1") true [] [] (Some "c1") (Some "c1") true (Some "c1") [].

Lemma legacy_key_apart_m1 : legacy_key_apart "m1" "c9".
Proof. repeat split; discriminate. Qed.

Lemma migrateLegacyData_spec_witness :
  result (Conversations.migrateLegacyData noTitle "c9" "50" (Some "m1")) legacyWorld = true
  /\ load_messages (messagesKey "c9")
       (store (run (Conversations.migrateLegacyData noTitle "c9" "50" (Some "m1")) legacyWorld))
     = Some legacyMessages.
Proof.
  destruct (proj2 (migrateLegacyData_spec noTitle "c9" "50" "m1" legacyWorld)
              eq_refl legacy_key_apart_m1 legacyMessages)
    as (Hres & Hmsgs & _).
  - discriminate.
  - reflexivity.
  - left. reflexivity.
  - split; [exact Hres|exact Hmsgs].
Defined.

(** A conversation list record exists, yet the migration goes ahead. *)
Lemma migration_despite_list_record :
  is_Some (store emptiedWorld !! getConversationListKey "m1")
  /\ result (Conversations.migrateLegacyData noTitle "c9" "50" (Some "m1")) emptiedWorld = true.
Proof. split; [eexists; reflexivity | reflexivity]. Qed.

Lemma deleteConversation_spec_witness :
  load_conversations (listKey "m1")
    (store (run (Conversations.deleteConversation (Some "m1") "c1") threeConversations))
  = Some [conv "c2" "m1" "30"; conv "c3" "m1" "20"].
Proof.
  destruct (deleteConversation_spec "m1" "c1" threeConversations) as (_ & Hlist & _).
  - reflexivity.
  - exact Hlist.
Defined.

(** Deleting the active conversation makes the newest survivor active. *)
Example deleteConversation_picks_newest :
  activeConversationId
    (run (Conversations.deleteConversation (Some "m1") "c1") threeConversations)
  = Some "c2".
Proof. reflexivity. Qed.

Lemma removeModel_cascades_witness :
  store (run (AiChat.removeModel (Some "m1")) threeConversations) !! messagesKey "c2" = None.
Proof.
  destruct (removeModel_cascades "m1" threeConversations) as (Hmsgs & _).
  - reflexivity.
  - apply (Hmsgs (conv "c2" "m1" "30")). apply list_elem_of_further, list_elem_of_here.
Defined.

(** After the cascade the store of [threeConversations] is empty. *)
Example removeModel_leaves_nothing :
  store (run (AiChat.removeModel (Some "m1")) threeConversations) = ∅.
Proof. vm_compute. reflexivity. Qed.

End StoreExamples.

(** ** Model lifecycle *)

Module Lifecycle.
Import Chat.

(** A hook that has just been mounted. *)
Definition mounted : State :=
  mkState [] "" not_setup 0 None true false None false true None [] ∅ [].

(** *** checkModelExists *)

(** A model that is present and prepares ends up ready, selected and
    persisted. *)
Lemma checkModelExists_present (m : string) (s : State) :
  truthy_str m = true ->
  let '(found, s') := checkModelExists (Some m) (Resolved true) (Resolved tt) s in
  found = true
  /\ modelStatus s' = ready
  /\ selectedModelId s' = Some m
  /\ modelRef s' = Some m
  /\ load_string STORAGE_KEY_SELECTED_MODEL (storage s') = Some m
  /\ engineCalls s' = engineCalls s ++ [IsDownloaded m; Prepare m].
Proof.
  intros Hm. unfold checkModelExists, or_else, truthy. rewrite !Hm. simpl.
  repeat split; try reflexivity.
  - apply load_string_save_eq.
  - now rewrite <- app_assoc.
Qed.

(** A model that is absent, or whose presence cannot be told, leaves the
    lifecycle as it was. *)
Lemma checkModelExists_absent (modelId : option string) (isDownloaded : outcome bool)
    (prepare : outcome unit) (s : State) :
  isDownloaded <> Resolved true ->
  let '(found, s') := checkModelExists modelId isDownloaded prepare s in
  found = false
  /\ modelStatus s' = modelStatus s
  /\ selectedModelId s' = selectedModelId s
  /\ modelRef s' = modelRef s
  /\ storage s' = storage s.
Proof.
  intros Hnot. unfold checkModelExists.
  destruct (or_else modelId (selectedModelId s)) as [m|]; [|now repeat split].
  destruct (negb (truthy_str m)); [now repeat split|].
  destruct isDownloaded as [[|]|]; [contradiction| |]; now repeat split.
Qed.

(** It has a result on every input: no outcome of the engine makes it
    throw. *)
Lemma checkModelExists_total modelId isDownloaded prepare (s : State) :
  exists found s', checkModelExists modelId isDownloaded prepare s = (found, s').
Proof. destruct (checkModelExists modelId isDownloaded prepare s); eauto. Qed.

(** C5. A rejected [prepare]: [checkModelExists] returns false but the
    lifecycle, which was [not_setup], is left at [preparing]. *)
Theorem checkModelExists_rejected_prepare_stays_preparing :
  modelStatus mounted = not_setup
  /\ fst (checkModelExists (Some "m1") (Resolved true) Rejected mounted) = false
  /\ modelStatus (snd (checkModelExists (Some "m1") (Resolved true) Rejected mounted))
     = preparing.
Proof. repeat split. Qed.

(** The same on every state and model. *)
Lemma checkModelExists_rejected_prepare (m : string) (s : State) :
  truthy_str m = true ->
  fst (checkModelExists (Some m) (Resolved true) Rejected s) = false
  /\ modelStatus (snd (checkModelExists (Some m) (Resolved true) Rejected s)) = preparing.
Proof.
  intros Hm. unfold checkModelExists, or_else, truthy. rewrite !Hm. simpl. now split.
Qed.

(** *** setupModel *)

(** Either no setup is suspended and the guard is down, or exactly one is
    and the guard is up. *)
Definition guarded (sys : System) : Prop :=
  (tasks sys = [] /\ isSetupInProgressRef (hook sys) = false)
  \/ (exists t, tasks sys = [t] /\ isSetupInProgressRef (hook sys) = true).

Lemma setupFinally_guard (s : State) :
  fst (setupFinally s) = None /\ isSetupInProgressRef (snd (setupFinally s)) = false.
Proof. now split. Qed.

Lemma setupCatch_guard (s : State) :
  fst (setupCatch s) = None /\ isSetupInProgressRef (snd (setupCatch s)) = false.
Proof. unfold setupCatch. now split. Qed.

Lemma setupDownload_guard modelId sel (s : State) :
  match setupDownload modelId sel s with
  | (Some _, s') => isSetupInProgressRef s' = isSetupInProgressRef s
  | (None, s') => isSetupInProgressRef s' = false
  end.
Proof. unfold setupDownload. destruct (isMountedRef s); reflexivity. Qed.

Lemma setupAfterRemoval_guard modelId sel (s : State) :
  match setupAfterRemoval modelId sel s with
  | (Some _, s') => isSetupInProgressRef s' = isSetupInProgressRef s
  | (None, s') => isSetupInProgressRef s' = false
  end.
Proof.
  unfold setupAfterRemoval.
  match goal with |- context [setupDownload _ _ ?x] =>
    pose proof (setupDownload_guard modelId sel x) as Hd;
    destruct (setupDownload modelId sel x) as [[t|] s'] end.
  - rewrite Hd. now destruct (isMountedRef s).
  - exact Hd.
Qed.

(** A call that finds the guard up does nothing at all. *)
Lemma setupModel_in_progress modelId sel status (s : State) :
  isSetupInProgressRef s = true -> setupModel modelId sel status s = (None, s).
Proof. intros Hflag. unfold setupModel. now rewrite Hflag. Qed.

(** A call that finds the guard down either suspends with the guard up or
    ends with the guard down. *)
Lemma setupModel_guard modelId sel status (s : State) :
  isSetupInProgressRef s = false ->
  match setupModel modelId sel status s with
  | (Some _, s') => isSetupInProgressRef s' = true
  | (None, s') => isSetupInProgressRef s' = false
  end.
Proof.
  intros Hflag. unfold setupModel. rewrite Hflag.
  destruct (bool_decide (sel = Some modelId) && bool_decide (status = ready));
    [exact Hflag|].
  destruct (negb (bool_decide (sel = Some modelId)) && truthy sel).
  - simpl. now destruct (modelRef s).
  - match goal with |- context [setupDownload _ _ ?x] =>
      pose proof (setupDownload_guard modelId sel x) as Hd;
      destruct (setupDownload modelId sel x) as [[t|] s'] end; exact Hd.
Qed.

(** A resumed setup keeps the guard while it is suspended again and drops
    it when it ends. *)
Lemma setupResume_guard (t : SetupTask) o (s : State) :
  match setupResume t o s with
  | (Some _, s') => isSetupInProgressRef s' = isSetupInProgressRef s
  | (None, s') => isSetupInProgressRef s' = false
  end.
Proof.
  unfold setupResume.
  destruct (task_point t), o as [[]|];
    try apply setupAfterRemoval_guard; try reflexivity.
  destruct (isMountedRef s); reflexivity.
Qed.

Lemma setupProgress_guard (t : SetupTask) p (s : State) :
  isSetupInProgressRef (setupProgress t p s) = isSetupInProgressRef s.
Proof.
  unfold setupProgress. destruct (task_point t), p; try reflexivity.
  now destruct (isMountedRef s).
Qed.

Lemma unmount_guard (s : State) :
  isSetupInProgressRef (unmount s) = isSetupInProgressRef s.
Proof.
  unfold unmount. simpl.
  destruct (streamAbortControllerRef s); simpl; now destruct (modelRef s).
Qed.

Lemma step_guarded (e : Event) (sys : System) : guarded sys -> guarded (step e sys).
Proof.
  intros Hg. destruct e as [modelId sel status|i o|i p|]; simpl.
  - destruct Hg as [[Hnone Hflag]|(t & Hone & Hflag)].
    + pose proof (setupModel_guard modelId sel status (hook sys) Hflag) as Hcall.
      destruct (setupModel modelId sel status (hook sys)) as [[t|] s'].
      * right. exists t. simpl. rewrite Hnone. now split.
      * left. simpl. now split.
    + rewrite (setupModel_in_progress _ _ _ _ Hflag). right. exists t. now split.
  - destruct Hg as [[Hnone Hflag]|(t & Hone & Hflag)].
    + rewrite Hnone. simpl. left. now split.
    + rewrite Hone. destruct i as [|i]; simpl.
      * pose proof (setupResume_guard t o (hook sys)) as Hres.
        destruct (setupResume t o (hook sys)) as [[t'|] s'].
        -- right. exists t'. simpl. split; [reflexivity|congruence].
        -- left. simpl. now split.
      * right. exists t. now split.
  - destruct (tasks sys !! i) as [t|] eqn:Hi; [|exact Hg].
    destruct Hg as [[Hnone Hflag]|(t0 & Hone & Hflag)].
    + rewrite Hnone in Hi. discriminate.
    + right. exists t0. simpl. split; [exact Hone|]. now rewrite setupProgress_guard.
  - destruct Hg as [[Hnone Hflag]|(t0 & Hone & Hflag)].
    + left. simpl. split; [exact Hnone|]. now rewrite unmount_guard.
    + right. exists t0. simpl. split; [exact Hone|]. now rewrite unmount_guard.
Qed.

Lemma exec_guarded (es : list Event) (sys : System) : guarded sys -> guarded (exec es sys).
Proof.
  revert sys. induction es as [|e es IH]; intros sys Hg; [exact Hg|].
  simpl. apply IH. now apply step_guarded.
Qed.

(** While a setup is suspended, a further call leaves everything as it
    is. *)
Lemma call_while_in_flight modelId sel status (sys : System) :
  guarded sys -> tasks sys <> [] -> step (CallSetup modelId sel status) sys = sys.
Proof.
  intros [[Hnone _]|(t & _ & Hflag)] Hbusy; [contradiction|].
  simpl. rewrite (setupModel_in_progress _ _ _ _ Hflag). now destruct sys.
Qed.

Lemma idle_guarded (sys : System) : idle sys -> guarded sys.
Proof. intros [Hnone Hflag]. left. now split. Qed.

Lemma downloads_app (s : State) (calls : list EngineCall) :
  length (List.filter isDownload (engineCalls s ++ calls))
  = downloads s + length (List.filter isDownload calls).
Proof. unfold downloads. now rewrite List.filter_app, length_app. Qed.

(** C4. At most one setup is in flight.  From a hook on which no setup has
    been started, after any schedule of calls, settled engine calls,
    progress events and teardown: at most one call of [setupModel] is
    suspended, and while one is, a further call (for any model, from any
    closure) changes nothing, neither state nor engine calls.  So two calls
    in succession run as the first alone, and when the engine then
    succeeds, the engine has been asked for exactly one download and one
    prepare. *)
Theorem setupModel_single_flight (sys0 : System) :
  idle sys0 ->
  (forall es,
     let sys := exec es sys0 in
     length (tasks sys) <= 1
     /\ (tasks sys <> [] ->
         forall modelId sel status, step (CallSetup modelId sel status) sys = sys))
  /\ (forall m1 sel1 status1 m2 sel2 status2 rest,
        tasks (step (CallSetup m1 sel1 status1) sys0) <> [] ->
        exec (CallSetup m1 sel1 status1 :: CallSetup m2 sel2 status2 :: rest) sys0
        = exec (CallSetup m1 sel1 status1 :: rest) sys0)
  /\ (isMountedRef (hook sys0) = true ->
      forall m1 status1 m2 sel2 status2,
        let done :=
          exec [CallSetup m1 None status1; CallSetup m2 sel2 status2;
                Settle 0 (Resolved tt); Settle 0 (Resolved tt)] sys0 in
        engineCalls (hook done) = engineCalls (hook sys0) ++ [Download m1; Prepare m1]
        /\ downloads (hook done) = S (downloads (hook sys0))
        /\ modelStatus (hook done) = ready
        /\ selectedModelId (hook done) = Some m1
        /\ tasks done = []
        /\ isSetupInProgressRef (hook done) = false).
Proof.
  intros Hidle. pose proof (idle_guarded sys0 Hidle) as Hg0.
  split; [|split].
  - intros es sys. pose proof (exec_guarded es sys0 Hg0) as Hg. fold sys in Hg.
    split.
    + destruct Hg as [[Hnone _]|(t & Hone & _)]; [rewrite Hnone|rewrite Hone]; simpl; lia.
    + intros Hbusy modelId sel status. now apply call_while_in_flight.
  - intros m1 sel1 status1 m2 sel2 status2 rest Hbusy.
    change (exec (CallSetup m1 sel1 status1 :: CallSetup m2 sel2 status2 :: rest) sys0)
      with (exec rest (step (CallSetup m2 sel2 status2) (step (CallSetup m1 sel1 status1) sys0))).
    rewrite call_while_in_flight; [reflexivity| |exact Hbusy].
    now apply step_guarded.
  - intros Hmounted m1 status1 m2 sel2 status2 done.
    destruct Hidle as [Hnone Hflag].
    destruct sys0 as [s0 ts0]. simpl in Hnone, Hflag, Hmounted. subst ts0.
    set (s1 := engine (Download m1)
                 (setDownloadProgress 0
                    (setModelStatus downloading (setIsSetupInProgressRef true s0)))).
    assert (Hcall : step (CallSetup m1 None status1) (mkSystem s0 [])
                    = mkSystem s1 [mkSetupTask m1 None AwaitDownload]).
    { simpl. unfold setupModel. rewrite Hflag. simpl.
      unfold setupDownload. simpl. rewrite Hmounted. reflexivity. }
    assert (Hdone : done
                    = step (Settle 0 (Resolved tt))
                        (step (Settle 0 (Resolved tt))
                           (mkSystem s1 [mkSetupTask m1 None AwaitDownload]))).
    { subst done.
      change (exec _ _) with
        (step (Settle 0 (Resolved tt))
           (step (Settle 0 (Resolved tt))
              (step (CallSetup m2 sel2 status2)
                 (step (CallSetup m1 None status1) (mkSystem s0 []))))).
      rewrite Hcall. rewrite call_while_in_flight; [reflexivity| |discriminate].
      right. eexists. split; reflexivity. }
    set (s2 := engine (Prepare m1) (setModelStatus preparing (setDownloadProgress 100 s1))).
    assert (Hdownloaded :
              step (Settle 0 (Resolved tt)) (mkSystem s1 [mkSetupTask m1 None AwaitDownload])
              = mkSystem s2 [mkSetupTask m1 None AwaitPrepare]).
    { subst s2 s1. cbn. rewrite Hmounted. reflexivity. }
    set (s3 := setIsSetupInProgressRef false
                 (setStorage (save STORAGE_KEY_SELECTED_MODEL (VString m1))
                    (setModelStatus ready
                       (setSelectedModelId (Some m1) (setModelRef (Some m1) s2))))).
    assert (Hprepared :
              step (Settle 0 (Resolved tt)) (mkSystem s2 [mkSetupTask m1 None AwaitPrepare])
              = mkSystem s3 []).
    { subst s3 s2 s1. cbn. rewrite Hmounted. reflexivity. }
    rewrite Hdone, Hdownloaded, Hprepared. subst s3 s2 s1. cbn.
    repeat split.
    + now rewrite <- !app_assoc.
    + unfold downloads. cbn. rewrite <- !app_assoc.
      rewrite List.filter_app, length_app. cbn. lia.
Qed.

End Lifecycle.

(** ** The message stream *)

Module Stream.
Import Chat.

(** What holds of a generation between [streamText] and the end of its
    stream: its placeholder is in the transcript, and either the screen is
    up, the controller is registered and not aborted and the send slot is
    taken, or the screen was torn down and the controller is aborted. *)
Definition streaming (aiId : string) (c : nat) (gs : Generation * State) : Prop :=
  let '(g, s) := gs in
  aiMessageId g = aiId
  /\ controller g = c
  /\ (exists placeholder, placeholder ∈ messages s /\ msg_id placeholder = aiId)
  /\ ((isMountedRef s = true
       /\ controllers s !! c = Some false
       /\ streamAbortControllerRef s = Some c
       /\ modelStatus s = ready
       /\ is_Some (modelRef s)
       /\ isLoading s = true)
      \/ (isMountedRef s = false
          /\ controllers s !! c = Some true
          /\ streamAbortControllerRef s = None)).

Lemma replaceText_ids (i t : string) (l : list Message) :
  map msg_id (replaceText i t l) = map msg_id l.
Proof.
  unfold replaceText. rewrite map_map. apply map_ext. intros msg.
  now destruct (String.eqb (msg_id msg) i).
Qed.

Lemma replaceText_placeholder (i t : string) (l : list Message) :
  (exists placeholder, placeholder ∈ l /\ msg_id placeholder = i) ->
  exists placeholder,
    placeholder ∈ replaceText i t l /\ msg_id placeholder = i /\ text placeholder = t.
Proof.
  intros (p & Hin & Hid). exists (withText t p). repeat split; [|exact Hid].
  unfold replaceText. apply list_elem_of_fmap. exists p. split; [|exact Hin].
  rewrite Hid, String.eqb_refl. reflexivity.
Qed.

Lemma replaceText_all (i t : string) (l : list Message) (msg : Message) :
  msg ∈ replaceText i t l -> msg_id msg = i -> text msg = t.
Proof.
  unfold replaceText. intros Hin Hid.
  apply list_elem_of_fmap in Hin as (p & -> & _).
  destruct (String.eqb (msg_id p) i) eqn:Heq; [reflexivity|].
  apply String.eqb_neq in Heq. contradiction.
Qed.

(** A call of [handleSend] that opens a stream starts a generation. *)
Lemma handleSendStart_streaming userId aiId now (s : State) g s1 :
  handleSendStart userId aiId now s = (Some g, s1) ->
  streaming aiId (controller g) (g, s1) /\ fullText g = "" /\ started g = false.
Proof.
  unfold handleSendStart.
  destruct (negb (truthy_str (trimStr (inputText s))) || isLoading s
            || negb (bool_decide (modelStatus s = ready))
            || negb (bool_decide (is_Some (modelRef s)))) eqn:Hpre;
    [discriminate|].
  apply orb_false_iff in Hpre as [Hpre Href].
  apply orb_false_iff in Hpre as [Hpre Hready].
  apply negb_false_iff, bool_decide_eq_true in Hready.
  apply negb_false_iff, bool_decide_eq_true in Href.
  simpl. destruct (modelRef s) as [model|] eqn:Hmodel; [|discriminate].
  destruct (isMountedRef s) eqn:Hmounted; [|discriminate].
  simpl. intros Hstart. injection Hstart as <- <-. simpl.
  split; [|split; reflexivity].
  split; [reflexivity|]. split; [reflexivity|]. split.
  - exists (mkMessage aiId "" false now None None). split; [|reflexivity].
    apply elem_of_app. right. apply list_elem_of_further, list_elem_of_here.
  - left. repeat split; auto.
    rewrite lookup_app_r by lia. now rewrite Nat.sub_diag.
Qed.

Lemma streamStep_streaming aiId c e gs :
  streaming aiId c gs -> streaming aiId c (streamStep e gs).
Proof.
  destruct gs as [g s]. intros (Hid & Hc & Hplace & Hlive).
  destruct e as [delta|]; simpl.
  - repeat split; auto.
    destruct (replaceText_placeholder aiId
                (if started g then (fullText g ++ delta)%string else delta)
                (messages s) Hplace) as (p & Hin & Hpid & _).
    exists p. rewrite Hid. now split.
  - repeat split; auto.
    + destruct Hplace as (p & Hin & Hpid). exists p. split; [|exact Hpid].
      unfold unmount. simpl.
      destruct (streamAbortControllerRef s); simpl; destruct (modelRef s); exact Hin.
    + right. unfold unmount. simpl.
      destruct Hlive as [(_ & Hctl & Href & _)|(_ & Hctl & Href)]; rewrite Href; simpl.
      * destruct (modelRef s); simpl; repeat split; auto;
          apply list_lookup_insert_eq; apply lookup_lt_Some in Hctl; exact Hctl.
      * destruct (modelRef s); simpl; repeat split; auto.
Qed.

Lemma streamRun_streaming aiId c es gs :
  streaming aiId c gs -> streaming aiId c (streamRun es gs).
Proof.
  revert gs. induction es as [|e es IH]; intros gs Hs; [exact Hs|].
  simpl. apply IH. now apply streamStep_streaming.
Qed.

(** C7. A generation that fails.  If its stream was not cancelled, every
    message carrying the placeholder's id, the placeholder among them, has
    the fixed error text, the other messages are as streamed, and the send
    slot is released: a send of any non-blank input opens a new stream.
    If it was cancelled, the state is the one left by what was streamed. *)
Theorem handleSend_failure userId aiId now (s : State) g s1 (es : list StreamEvent) :
  handleSendStart userId aiId now s = (Some g, s1) ->
  let streamed := streamRun es (g, s1) in
  let s2 := snd streamed in
  let s3 := handleSendEnd Failed streamed in
  (aborted (controller g) s2 = false ->
   messages s3 = replaceText aiId ERROR_MESSAGE (messages s2)
   /\ (exists placeholder,
        placeholder ∈ messages s3 /\ msg_id placeholder = aiId
        /\ text placeholder = ERROR_MESSAGE)
   /\ isLoading s3 = false
   /\ streamAbortControllerRef s3 = None
   /\ (forall input userId' aiId' now',
        truthy_str (trimStr input) = true ->
        is_Some (fst (handleSendStart userId' aiId' now' (setInputTextState input s3)))))
  /\ (aborted (controller g) s2 = true -> s3 = s2).
Proof.
  intros Hstart streamed s2 s3.
  destruct (handleSendStart_streaming _ _ _ _ _ _ Hstart) as (Hs1 & _ & _).
  pose proof (streamRun_streaming aiId (controller g) es (g, s1) Hs1) as Hs2.
  fold streamed in Hs2. subst s3 s2.
  destruct streamed as [g2 s2]. destruct Hs2 as (Hid & Hc & Hplace & Hlive).
  simpl. unfold aborted. rewrite Hc.
  destruct Hlive as [(Hmounted & Hctl & Href & Hready & Hmodel & Hloading)
                    |(Hmounted & Hctl & Href)];
    rewrite Hmounted, Hctl; simpl.
  - split; [|discriminate]. intros _. rewrite Hid.
    repeat split.
    + now apply replaceText_placeholder.
    + intros input userId' aiId' now' Hinput. unfold handleSendStart. simpl.
      rewrite Hinput, (bool_decide_eq_true_2 _ Hready), (bool_decide_eq_true_2 _ Hmodel).
      simpl. destruct Hmodel as [model ->]. rewrite Hmounted. simpl. eauto.
  - split; [discriminate|]. intros _.
    destruct s2. simpl in *. now subst.
Qed.

End Stream.

Module ChatExamples.
Import Chat.

(** A hook with a ready model and a typed message. *)
Definition readyToSend : State :=
  mkState [] " hi " ready 100 (Some "m1") true false (Some "m1") false true None [] ∅ [].

Definition opened : Generation * State :=
  (mkGeneration "a1" 0 "" false,
   mkState [mkMessage "u1" "hi" true "t0" None None; mkMessage "a1" "" false "t0" None None]
     "" ready 100 (Some "m1") true true (Some "m1") false true (Some 0) [false] ∅
     [StreamText "m1" (WithMessages [mkPromptMessage "user" "hi"])]).

Lemma handleSend_opens : handleSendStart "u1" "a1" "t0" readyToSend = (Some (fst opened), snd opened).
Proof. reflexivity. Qed.

Lemma handleSend_failure_witness :
  messages (handleSendEnd Failed (streamRun [Delta "Hel"; Delta "lo"] opened))
  = [mkMessage "u1" "hi" true "t0" None None;
     mkMessage "a1" ERROR_MESSAGE false "t0" None None].
Proof.
  destruct (Stream.handleSend_failure "u1" "a1" "t0" readyToSend (fst opened) (snd opened)
              [Delta "Hel"; Delta "lo"] handleSend_opens) as [Hlive _].
  destruct (Hlive eq_refl) as (Hmessages & _). exact Hmessages.
Defined.

(** Torn down in mid-stream, the failed generation keeps the streamed
    text. *)
Example teardown_keeps_streamed_text :
  messages (handleSendEnd Failed (streamRun [Delta "Hel"; ScreenTeardown; Delta "lo"] opened))
  = [mkMessage "u1" "hi" true "t0" None None;
     mkMessage "a1" "Hello" false "t0" None None].
Proof. reflexivity. Qed.

Definition freshSystem : System := mkSystem Lifecycle.mounted [].

Lemma freshSystem_idle : idle freshSystem.
Proof. split; reflexivity. Qed.

Lemma setupModel_single_flight_witness :
  engineCalls
    (hook (exec [CallSetup "m1" None not_setup; CallSetup "m2" None not_setup;
                 Settle 0 (Resolved tt); Settle 0 (Resolved tt)] freshSystem))
  = [Download "m1"; Prepare "m1"].
Proof.
  destruct (Lifecycle.setupModel_single_flight freshSystem freshSystem_idle)
    as (_ & _ & Hone).
  destruct (Hone eq_refl "m1" not_setup "m2" None not_setup) as (Hcalls & _).
  exact Hcalls.
Defined.

(** A second setup after the first has completed is a setup of its own:
    the old model is unloaded and removed, the new one downloaded. *)
Example setupModel_after_completion :
  engineCalls
    (hook (exec [CallSetup "m1" None not_setup;
                 Settle 0 (Resolved tt); Settle 0 (Resolved tt);
                 CallSetup "m2" (Some "m1") ready;
                 Settle 0 (Resolved tt); Settle 0 (Resolved tt);
                 Settle 0 (Resolved tt); Settle 0 (Resolved tt)] freshSystem))
  = [Download "m1"; Prepare "m1"; Unload "m1"; Remove "m1"; Download "m2"; Prepare "m2"].
Proof. reflexivity. Qed.

End ChatExamples.

(** ** parseSizeToBytes *)

Module SizeProperties.
Import Number SizeParser.

Section Spans.
Context {A : Type} (p : A -> bool).

Lemma takeWhile_dropWhile (l : list A) : takeWhile p l ++ dropWhile p l = l.
Proof.
  induction l as [|x l IH]; [reflexivity|].
  simpl. destruct (p x); [simpl; now rewrite IH|reflexivity].
Qed.

Lemma takeWhile_all (l : list A) : Forall (fun x => p x = true) (takeWhile p l).
Proof.
  induction l as [|x l IH]; [constructor|].
  simpl. destruct (p x) eqn:Hx; [now constructor|constructor].
Qed.

Lemma dropWhile_nil_all (l : list A) : dropWhile p l = [] -> Forall (fun x => p x = true) l.
Proof.
  induction l as [|x l IH]; [constructor|].
  simpl. destruct (p x) eqn:Hx; [intros Hl; constructor; auto|discriminate].
Qed.

Lemma takeWhile_app_all (d rest : list A) :
  Forall (fun x => p x = true) d -> takeWhile p (d ++ rest) = d ++ takeWhile p rest.
Proof. induction 1 as [|x d Hx _ IH]; [reflexivity|]. simpl. now rewrite Hx, IH. Qed.

Lemma dropWhile_app_all (d rest : list A) :
  Forall (fun x => p x = true) d -> dropWhile p (d ++ rest) = dropWhile p rest.
Proof. induction 1 as [|x d Hx _ IH]; [reflexivity|]. simpl. now rewrite Hx, IH. Qed.

Lemma dropWhile_app_stop (l rest : list A) :
  dropWhile p l <> [] -> dropWhile p (l ++ rest) = dropWhile p l ++ rest.
Proof.
  induction l as [|x l IH]; [contradiction|].
  simpl. destruct (p x); [exact IH|reflexivity].
Qed.

End Spans.

Lemma whitespace_not_number (c : ascii) : isWhiteSpace c = true -> isNumberChar c = false.
Proof. destruct c as [[] [] [] [] [] [] [] []]; cbv; congruence. Qed.

Lemma whitespace_upper (c : ascii) : isWhiteSpace c = true -> upperChar c = c.
Proof. destruct c as [[] [] [] [] [] [] [] []]; cbv; congruence. Qed.

Lemma list_ascii_of_string_append (s t : string) :
  list_ascii_of_string (String.append s t) = list_ascii_of_string s ++ list_ascii_of_string t.
Proof.
  induction s as [|a s IH]; [reflexivity|].
  rewrite append_cons. simpl. now rewrite IH.
Qed.

(** A trimmed string and what [trim] cuts off its end. *)
Lemma trim_split (s : list ascii) :
  exists tail,
    dropWhile isWhiteSpace s = trim s ++ tail
    /\ Forall (fun c => isWhiteSpace c = true) tail.
Proof.
  unfold trim. set (body := dropWhile isWhiteSpace s).
  exists (rev (takeWhile isWhiteSpace (rev body))). split.
  - rewrite <- rev_app_distr, takeWhile_dropWhile. now rewrite rev_involutive.
  - apply Forall_rev, takeWhile_all.
Qed.

Lemma trim_app_MB (s : list ascii) :
  trim s <> [] ->
  trim (s ++ ["M"; "B"]%char) = dropWhile isWhiteSpace s ++ ["M"; "B"]%char.
Proof.
  intros Hne. unfold trim.
  assert (Hbody : dropWhile isWhiteSpace s <> []).
  { intros Hnil. apply Hne. unfold trim. now rewrite Hnil. }
  rewrite (dropWhile_app_stop _ _ _ Hbody), rev_app_distr. simpl.
  rewrite rev_involutive, <- app_assoc. reflexivity.
Qed.

(** A size without a unit parses as the same size in MB. *)
Lemma parseSizeToBytes_default_MB (s : string) (digits : list ascii) :
  matchSize (toUpperCase (trim (list_ascii_of_string s))) = Some (digits, None) ->
  parseSizeToBytes s = mul (mul (parseFloat digits) n1024) n1024
  /\ parseSizeToBytes (String.append s "MB") = parseSizeToBytes s.
Proof.
  intros Hmatch.
  assert (Hself : parseSizeToBytes s = mul (mul (parseFloat digits) n1024) n1024).
  { unfold parseSizeToBytes. now rewrite Hmatch. }
  split; [exact Hself|]. rewrite Hself.
  unfold parseSizeToBytes. rewrite list_ascii_of_string_append.
  change (list_ascii_of_string "MB") with ["M"; "B"]%char.
  set (chars := list_ascii_of_string s) in *.
  assert (Htrim : trim chars <> []).
  { intros Hnil. rewrite Hnil in Hmatch. discriminate. }
  rewrite (trim_app_MB _ Htrim).
  destruct (trim_split chars) as (tail & Hbody & Htail). rewrite Hbody.
  unfold toUpperCase in *. rewrite !map_app.
  set (upper := map upperChar (trim chars)) in *.
  assert (Htail' : map upperChar tail = tail).
  { clear Hbody. induction Htail as [|c tail Hc _ IH]; [reflexivity|].
    simpl. now rewrite (whitespace_upper c Hc), IH. }
  rewrite Htail'. change (map upperChar ["M"; "B"]%char) with ["M"; "B"]%char.
  rewrite <- app_assoc.
  unfold matchSize in Hmatch.
  destruct (takeWhile isNumberChar upper) as [|d ds] eqn:Hdigits; [discriminate|].
  destruct (matchUnit (dropWhile isWhiteSpace (dropWhile isNumberChar upper)))
    as [[u|]|] eqn:Hunit; try discriminate.
  injection Hmatch as <-.
  assert (Hrest : dropWhile isWhiteSpace (dropWhile isNumberChar upper) = []).
  { unfold matchUnit in Hunit.
    destruct (dropWhile isWhiteSpace (dropWhile isNumberChar upper)) as [|c rest];
      [reflexivity|].
    simpl in Hunit.
    repeat match type of Hunit with
           | context [match ?x with _ => _ end] => destruct x; try discriminate
           end. }
  apply dropWhile_nil_all in Hrest.
  pose proof (takeWhile_dropWhile isNumberChar upper) as Hsplit.
  rewrite Hdigits in Hsplit.
  set (gap := dropWhile isNumberChar upper) in *.
  assert (Hgap : Forall (fun c => isWhiteSpace c = true) (gap ++ tail))
    by (apply Forall_app; now split).
  assert (Hnum : Forall (fun c => isNumberChar c = true) (d :: ds)).
  { rewrite <- Hdigits. apply takeWhile_all. }
  assert (Hstop : forall rest : list ascii,
            Forall (fun c => isWhiteSpace c = true) rest ->
            takeWhile isNumberChar (rest ++ ["M"; "B"]%char) = []
            /\ dropWhile isNumberChar (rest ++ ["M"; "B"]%char) = rest ++ ["M"; "B"]%char).
  { intros rest Hws. destruct Hws as [|c rest Hc _]; [split; reflexivity|].
    simpl. rewrite (whitespace_not_number c Hc). split; reflexivity. }
  unfold matchSize.
  replace (upper ++ tail ++ ["M"; "B"]%char)
    with ((d :: ds) ++ (gap ++ tail) ++ ["M"; "B"]%char)
    by (rewrite <- Hsplit, <- !app_assoc; reflexivity).
  rewrite (takeWhile_app_all _ _ _ Hnum), (dropWhile_app_all _ _ _ Hnum).
  destruct (Hstop _ Hgap) as [Htake Hdrop]. rewrite Htake, Hdrop.
  rewrite app_nil_r. rewrite (dropWhile_app_all _ _ _ Hgap). reflexivity.
Qed.

Definition matched (s : string) : option (list ascii * option unit_) :=
  matchSize (toUpperCase (trim (list_ascii_of_string s))).

(** C6 (as amended). [parseSizeToBytes] is total.  An input that the
    pattern does not match yields 0; a matched number with no unit is
    taken as MB, so it parses as the same text followed by MB.  "1.04 MB"
    yields 1090519 within 1, "2.39GB" yields 2.39 * 1024^3 as a double,
    which is 2566242959 within 1, and "500" yields 524288000. *)
Theorem parseSizeToBytes_spec :
  (forall s, matched s = None -> parseSizeToBytes s = Num 0)
  /\ (forall s digits,
        matched s = Some (digits, None) ->
        parseSizeToBytes s = mul (mul (parseFloat digits) n1024) n1024
        /\ parseSizeToBytes (String.append s "MB") = parseSizeToBytes s)
  /\ within 1 (inject_Z 1090519) (parseSizeToBytes "1.04 MB")
  /\ parseSizeToBytes "2.39GB" = Num (5381801554707743 # 2097152)
  /\ within 1 (inject_Z 2566242959) (parseSizeToBytes "2.39GB")
  /\ parseSizeToBytes "500" = Num (inject_Z 524288000).
Proof.
  split; [|split; [|split; [|split; [|split]]]].
  - intros s Hnone. unfold parseSizeToBytes. unfold matched in Hnone. now rewrite Hnone.
  - intros s digits Hmatch. now apply parseSizeToBytes_default_MB.
  - vm_compute. discriminate.
  - vm_compute. reflexivity.
  - vm_compute. discriminate.
  - vm_compute. reflexivity.
Qed.

Lemma parseSizeToBytes_spec_witness :
  parseSizeToBytes "abc" = Num 0
  /\ parseSizeToBytes "500MB" = parseSizeToBytes "500".
Proof.
  destruct parseSizeToBytes_spec as (Hnone & Hdefault & _). split.
  - apply Hnone. reflexivity.
  - apply (Hdefault "500" ["5"; "0"; "0"]%char). reflexivity.
Defined.

(** "2.39GB" is more than 1024 bytes away from 2566914048. *)
Lemma parseSizeToBytes_GB_value_differs :
  ~ within (inject_Z 1024) (inject_Z 2566914048) (parseSizeToBytes "2.39GB").
Proof. vm_compute. intros Hle. apply Hle. reflexivity. Qed.

(** A text of dots alone matches the pattern and is not a number. *)
Lemma parseSizeToBytes_dot : parseSizeToBytes "." = NaN.
Proof. reflexivity. Qed.

End SizeProperties.

(** * Further properties *)

(** ** The conversation store, continued *)

Section ConversationStoreMore.
Context `{KeyScheme} `{DateParser}.

Lemma hasId_elem_of (i : string) (l : list ConversationMeta) :
  Conversations.hasId i l = true <-> i ∈ map id l.
Proof.
  unfold Conversations.hasId. induction l as [|c l IH]; simpl.
  - split; [discriminate|]. intros Hin. now apply elem_of_nil in Hin.
  - rewrite orb_true_iff, IH, elem_of_cons, String.eqb_eq. intuition congruence.
Qed.

Lemma filter_other_ids (cid : string) (l : list ConversationMeta) :
  cid ∉ map id l -> filter (fun c => id c <> cid) l = l.
Proof.
  induction l as [|c l IH]; intros Hnot; [reflexivity|].
  simpl in Hnot. apply not_elem_of_cons in Hnot as [Hne Hnot].
  rewrite filter_cons. destruct (decide (id c <> cid)) as [_|Heq].
  - now rewrite IH.
  - exfalso. apply Heq. congruence.
Qed.

(** X1. Without a model id (undefined or empty) none of the operations of
    useConversations reads or writes anything: the session is unchanged,
    [createConversation] returns null and [migrateLegacyData] false. *)
Theorem conversations_need_a_model (model : option string) (w : World) :
  truthy model = false ->
  (forall cid now t,
     Conversations.createConversation cid now model t w = (None, w))
  /\ (forall c, Conversations.selectConversation model c w = (tt, w))
  /\ (forall c, Conversations.deleteConversation model c w = (tt, w))
  /\ (forall now c u, Conversations.updateConversationMeta now model c u w = (tt, w))
  /\ Conversations.deleteAllConversations model w = (tt, w)
  /\ Conversations.loadConversations model w = (tt, w)
  /\ (forall promptAI cid now,
        Conversations.migrateLegacyData promptAI cid now model w = (false, w)).
Proof.
  intros Hfalsy.
  unfold Conversations.createConversation, Conversations.selectConversation,
    Conversations.deleteConversation, Conversations.updateConversationMeta,
    Conversations.deleteAllConversations, Conversations.loadConversations,
    Conversations.migrateLegacyData.
  destruct model as [m|]; [|repeat split].
  simpl in Hfalsy. rewrite Hfalsy. repeat split.
Qed.

(** X2. A conversation that is created and, once the ref has caught up
    with the state, deleted again leaves the persisted and in-memory lists
    as the hook held them before, removes the record of the new
    conversation and touches no record but the list, the last-active
    pointer and that one. *)
Theorem create_then_delete_restores_list (m cid now : string) (t : option string)
    (w : World) :
  truthy_str m = true ->
  cid ∉ map id (conversationsRef w) ->
  let created := run (Conversations.createConversation cid now (Some m) t) w in
  let synced := run ConversationEffects.syncConversationsRef created in
  let deleted := run (Conversations.deleteConversation (Some m) cid) synced in
  result (Conversations.createConversation cid now (Some m) t) w = Some cid
  /\ activeConversationId created = Some cid
  /\ load_messages (getMessagesKey cid) (store created) = Some []
  /\ load_conversations (getConversationListKey m) (store deleted)
     = Some (conversationsRef w)
  /\ conversations deleted = conversationsRef w
  /\ store deleted !! getMessagesKey cid = None
  /\ (forall k, k <> getConversationListKey m -> k <> getLastConversationKey m ->
               k <> getMessagesKey cid -> store deleted !! k = store w !! k).
Proof.
  intros Hm Hfresh created synced deleted.
  assert (Hlm : getConversationListKey m <> getMessagesKey cid)
    by apply list_key_not_messages.
  assert (Hpm : getLastConversationKey m <> getMessagesKey cid)
    by apply last_key_not_messages.
  assert (Hlp : getConversationListKey m <> getLastConversationKey m)
    by apply list_key_not_last.
  subst deleted synced created.
  unfold Conversations.createConversation, Conversations.deleteConversation,
    ConversationEffects.syncConversationsRef.
  rewrite Hm. unfold_handler. simpl.
  rewrite filter_cons. simpl.
  destruct (decide (cid <> cid)) as [Hne|_]; [contradiction|].
  rewrite (filter_other_ids cid _ Hfresh).
  destruct (decide (Some cid = Some cid)) as [_|Hne]; [|contradiction].
  destruct (sort Conversations.byUpdatedAtDesc (conversationsRef w)) as [|first rest];
    unfold_handler; simpl; repeat split; try store_lookup.
  all: intros k Hk1 Hk2 Hk3; store_lookup.
Qed.

(** X3. [createConversation] prepends to the list in [conversationsRef],
    which the call does not advance.  Two calls with the ref sync between
    them persist both new conversations; two calls without it persist a
    list that lacks the first, whose message record stays behind. *)
Theorem create_twice_needs_ref_sync (m c1 c2 now1 now2 : string) (w : World) :
  truthy_str m = true ->
  c1 <> c2 ->
  c1 ∉ map id (conversationsRef w) ->
  let first := run (Conversations.createConversation c1 now1 (Some m) None) w in
  let synced := run ConversationEffects.syncConversationsRef first in
  let both := run (Conversations.createConversation c2 now2 (Some m) None) synced in
  let stale := run (Conversations.createConversation c2 now2 (Some m) None) first in
  (exists l, load_conversations (getConversationListKey m) (store both) = Some l
             /\ map id l = c2 :: c1 :: map id (conversationsRef w))
  /\ (exists l, load_conversations (getConversationListKey m) (store stale) = Some l
                /\ map id l = c2 :: map id (conversationsRef w)
                /\ c1 ∉ map id l)
  /\ load_messages (getMessagesKey c1) (store stale) = Some [].
Proof.
  intros Hm Hne Hfresh first synced both stale.
  assert (Hlm : forall c, getConversationListKey m <> getMessagesKey c)
    by (intros c; apply list_key_not_messages).
  assert (Hpm : forall c, getLastConversationKey m <> getMessagesKey c)
    by (intros c; apply last_key_not_messages).
  assert (Hlp : getConversationListKey m <> getLastConversationKey m)
    by apply list_key_not_last.
  assert (Hkeys : getMessagesKey c2 <> getMessagesKey c1).
  { intros Heq. apply Hne. symmetry. now apply messages_key_inj. }
  subst stale both synced first.
  unfold Conversations.createConversation, ConversationEffects.syncConversationsRef.
  rewrite Hm. unfold_handler. simpl. split; [|split].
  - eexists. split; [store_lookup|]. reflexivity.
  - eexists. split; [store_lookup|]. split; [reflexivity|].
    simpl. intros Hin. apply elem_of_cons in Hin as [Heq|Hin]; auto.
  - store_lookup.
Qed.

(** What [loadConversations] leaves behind. *)
Lemma loadConversations_outcome (m : string) (w : World) :
  truthy_str m = true ->
  let w' := run (Conversations.loadConversations (Some m)) w in
  let list := default [] (load_conversations (getConversationListKey m) (store w)) in
  let pointer := load_string (getLastConversationKey m) (store w) in
  conversations w' = list
  /\ conversationsRef w' = list
  /\ store w' = store w
  /\ (forall p, pointer = Some p -> truthy_str p = true -> p ∈ map id list ->
               activeConversationId w' = Some p)
  /\ ((forall p, pointer = Some p -> truthy_str p = true -> p ∉ map id list) ->
      (list <> [] ->
       exists newest pre post,
         list = pre ++ newest :: post
         /\ (forall c, c ∈ pre -> (getTime (updatedAt c) < getTime (updatedAt newest))%Z)
         /\ (forall c, c ∈ post -> (getTime (updatedAt c) <= getTime (updatedAt newest))%Z)
         /\ activeConversationId w' = Some (id newest))
      /\ (list = [] -> activeConversationId w' = activeConversationId w)).
Proof.
  intros Hm w' list pointer. subst w'.
  unfold Conversations.loadConversations. rewrite Hm. unfold_handler. simpl.
  fold list. fold pointer.
  destruct (truthy pointer && Conversations.hasId (default "" pointer) list) eqn:Hvalid.
  - apply andb_true_iff in Hvalid as [Htruthy Hmember].
    apply hasId_elem_of in Hmember.
    simpl. repeat split.
    + intros p Hp _ _. exact Hp.
    + exfalso. destruct pointer as [p|]; [|discriminate].
      match goal with Hno : forall p, _ -> _ -> _ |- _ => now apply (Hno p) end.
    + exfalso. destruct pointer as [p|]; [|discriminate].
      match goal with Hno : forall p, _ -> _ -> _ |- _ => now apply (Hno p) end.
  - assert (Hno : forall p, pointer = Some p -> truthy_str p = true -> p ∉ map id list).
    { intros p Hp Htruthy Hin. rewrite Hp in Hvalid. simpl in Hvalid.
      rewrite Htruthy in Hvalid. apply hasId_elem_of in Hin.
      rewrite Hin in Hvalid. discriminate. }
    destruct (sort Conversations.byUpdatedAtDesc list) as [|first sorted] eqn:Hsorted.
    + apply sort_nil_inv in Hsorted. simpl. repeat split; auto.
      * intros p Hp Htruthy Hin. exfalso. now apply (Hno p).
      * intros Hne. contradiction.
    + destruct (sort_head_newest list first sorted Hsorted)
        as (pre & post & Hsplit & Hpre & Hpost).
      simpl. repeat split; auto.
      * intros p Hp Htruthy Hin. exfalso. now apply (Hno p).
      * intros _. exists first, pre, post. repeat split; auto.
      * intros Hnil. rewrite Hnil in Hsorted. discriminate.
Qed.

(** X4. [loadConversations] reads the list (empty when no record exists)
    and resolves the active conversation: the last-active pointer when it
    names a member of the list; otherwise, for a non-empty list, the most
    recently updated conversation (the first such in list order);
    otherwise the active id is left as it was.  The store is not
    written. *)
Theorem loadConversations_resolves_active (m : string) (w : World) :
  truthy_str m = true ->
  let w' := run (Conversations.loadConversations (Some m)) w in
  let list := default [] (load_conversations (getConversationListKey m) (store w)) in
  let pointer := load_string (getLastConversationKey m) (store w) in
  conversations w' = list
  /\ conversationsRef w' = list
  /\ store w' = store w
  /\ (forall p, pointer = Some p -> truthy_str p = true -> p ∈ map id list ->
               activeConversationId w' = Some p)
  /\ ((forall p, pointer = Some p -> truthy_str p = true -> p ∉ map id list) ->
      (list <> [] ->
       exists newest pre post,
         list = pre ++ newest :: post
         /\ (forall c, c ∈ pre -> (getTime (updatedAt c) < getTime (updatedAt newest))%Z)
         /\ (forall c, c ∈ post -> (getTime (updatedAt c) <= getTime (updatedAt newest))%Z)
         /\ activeConversationId w' = Some (id newest))
      /\ (list = [] -> activeConversationId w' = activeConversationId w)).
Proof. apply loadConversations_outcome. Qed.

End ConversationStoreMore.

Section ConversationInvariants.
Context `{KeyScheme} `{DateParser}.

(** The in-memory list is the persisted one, an absent record reading as
    the empty list. *)
Definition mirrors (m : string) (w : World) : Prop :=
  default [] (load_conversations (getConversationListKey m) (store w)) = conversations w.

(** X5. Every operation of useConversations leaves the in-memory list
    equal to the persisted one: loading, creating, deleting, updating and
    deleting all do so from any session, and a migration does on a mounted
    hook whose list was equal to the persisted one. *)
Theorem operations_keep_list_persisted (m : string) (w : World) :
  truthy_str m = true ->
  mirrors m (run (Conversations.loadConversations (Some m)) w)
  /\ (forall cid now t,
        mirrors m (run (Conversations.createConversation cid now (Some m) t) w))
  /\ (forall c, mirrors m (run (Conversations.deleteConversation (Some m) c) w))
  /\ (forall now c u,
        mirrors m (run (Conversations.updateConversationMeta now (Some m) c u) w))
  /\ mirrors m (run (Conversations.deleteAllConversations (Some m)) w)
  /\ (forall promptAI cid now,
        convMountedRef w = true -> mirrors m w -> getConversationListKey m <> m ->
        mirrors m (run (Conversations.migrateLegacyData promptAI cid now (Some m)) w)).
Proof.
  intros Hm.
  assert (Hlm : forall c, getConversationListKey m <> getMessagesKey c)
    by (intros c; apply list_key_not_messages).
  assert (Hpm : forall c, getLastConversationKey m <> getMessagesKey c)
    by (intros c; apply last_key_not_messages).
  assert (Hlp : getConversationListKey m <> getLastConversationKey m)
    by apply list_key_not_last.
  unfold mirrors. repeat split.
  - destruct (loadConversations_outcome m w Hm) as (Hlist & _ & Hstore & _).
    now rewrite Hstore, Hlist.
  - intros cid now t. unfold Conversations.createConversation. rewrite Hm.
    unfold_handler. simpl. now store_lookup.
  - intros c. unfold Conversations.deleteConversation. rewrite Hm.
    unfold_handler. simpl.
    destruct (decide (activeConversationId w = Some c));
      [destruct (sort Conversations.byUpdatedAtDesc _)|];
      unfold_handler; simpl; now store_lookup.
  - intros now c u. unfold Conversations.updateConversationMeta. rewrite Hm.
    unfold_handler. simpl. now store_lookup.
  - unfold Conversations.deleteAllConversations. rewrite Hm.
    unfold_handler. simpl. unfold load_conversations, remove.
    rewrite lookup_delete_ne, lookup_delete_eq by auto. reflexivity.
  - intros promptAI cid now Hmounted Hmirror Hlegacy.
    unfold Conversations.migrateLegacyData. rewrite Hm. unfold_handler. simpl.
    destruct (load_messages m (store w)) as [[|x legacy]|]; try exact Hmirror.
    destruct (load_conversations (getConversationListKey m) (store w))
      as [[|c l]|] eqn:Hlist;
      try (rewrite Hmounted; unfold_handler; simpl; now store_lookup).
    rewrite <- Hmirror. unfold_handler. simpl. now rewrite Hlist.
Qed.

(** X6. [updateConversationMeta] keeps the ids, and so the length and
    order, of the list; it leaves every conversation with another id as it
    is; the conversation with the id keeps its model and creation time and
    gets [updatedAt] from the update or, failing that, the clock.  The
    list is persisted whole and message records are not touched. *)
Theorem updateConversationMeta_touches_one (now m c : string)
    (u : Conversations.MetaUpdates) (w : World) :
  truthy_str m = true ->
  let w' := run (Conversations.updateConversationMeta now (Some m) c u) w in
  map id (conversationsRef w') = map id (conversationsRef w)
  /\ load_conversations (getConversationListKey m) (store w') = Some (conversationsRef w')
  /\ conversations w' = conversationsRef w'
  /\ (forall i old, conversationsRef w !! i = Some old -> id old <> c ->
                   conversationsRef w' !! i = Some old)
  /\ (forall i old, conversationsRef w !! i = Some old -> id old = c ->
        exists new, conversationsRef w' !! i = Some new
          /\ modelId new = modelId old /\ createdAt new = createdAt old
          /\ updatedAt new = default now (or_else (Conversations.upd_updatedAt u) None)
          /\ (Conversations.upd_title u = None -> title new = title old))
  /\ (forall k, load_messages (getMessagesKey k) (store w')
               = load_messages (getMessagesKey k) (store w)).
Proof.
  intros Hm w'. subst w'.
  unfold Conversations.updateConversationMeta. rewrite Hm. unfold_handler. simpl.
  repeat split.
  - rewrite map_map. apply map_ext. intros x.
    now destruct (decide (id x = c)).
  - store_lookup.
  - intros i old Hi Hne. rewrite list_lookup_fmap, Hi. simpl.
    destruct (decide (id old = c)); [contradiction|reflexivity].
  - intros i old Hi Heq. eexists. rewrite list_lookup_fmap, Hi. simpl.
    destruct (decide (id old = c)); [|contradiction].
    split; [reflexivity|]. simpl. repeat split.
    intros Hnone. now rewrite Hnone.
  - intros k. apply load_messages_save_ne. apply list_key_not_messages.
Qed.

Lemma find_by_id (a : string) (l : list ConversationMeta) :
  a ∈ map id l -> exists c, List.find (fun c => String.eqb (id c) a) l = Some c /\ id c = a.
Proof.
  induction l as [|x l IH]; intros Hin; [now apply elem_of_nil in Hin|].
  simpl. destruct (String.eqb (id x) a) eqn:Heq.
  - exists x. split; [reflexivity|]. now apply String.eqb_eq.
  - apply String.eqb_neq in Heq. simpl in Hin.
    apply elem_of_cons in Hin as [Hin|Hin]; [congruence|]. now apply IH.
Qed.

(** A migration on a mounted hook either declines, changing nothing, or
    leaves the one migrated conversation as the list and as the active
    conversation. *)
Lemma migrateLegacyData_cases promptAI (cid now m : string) (w : World) :
  truthy_str m = true ->
  convMountedRef w = true ->
  Conversations.migrateLegacyData promptAI cid now (Some m) w = (false, w)
  \/ (exists meta w',
        Conversations.migrateLegacyData promptAI cid now (Some m) w = (true, w')
        /\ id meta = cid /\ conversations w' = [meta]
        /\ activeConversationId w' = Some cid).
Proof.
  intros Hm Hmounted.
  unfold Conversations.migrateLegacyData. rewrite Hm. unfold_handler. simpl.
  destruct (load_messages m (store w)) as [[|x legacy]|] eqn:Hlegacy;
    [now left| |now left].
  destruct (load_conversations (getConversationListKey m) (store w))
    as [[|c l]|] eqn:Hlist; [|now left|].
  all: right; rewrite Hmounted; unfold_handler; simpl;
    eexists (mkConversationMeta cid m _ None now now _); eexists;
    split; [reflexivity|]; repeat split.
Qed.

(** X7. After the mount effect of useConversations, whether it migrated
    legacy messages or loaded the list, a non-empty conversation list has
    an active conversation that is one of its members. *)
Theorem init_activates_a_member promptAI (cid now m : string) (w : World) :
  truthy_str m = true ->
  let w' := run (ConversationEffects.init promptAI cid now (Some m)) w in
  conversations w' <> [] ->
  exists c, ConversationEffects.activeConversation w' = Some c
            /\ activeConversationId w' = Some (id c)
            /\ c ∈ conversations w'.
Proof.
  intros Hm w'.
  assert (Hfind : forall w0 a, activeConversationId w0 = Some a ->
            a ∈ map id (conversations w0) ->
            exists c, ConversationEffects.activeConversation w0 = Some c
                      /\ activeConversationId w0 = Some (id c) /\ c ∈ conversations w0).
  { intros w0 a Hactive Hin. destruct (find_by_id a _ Hin) as (c & Hc & Hid).
    exists c. unfold ConversationEffects.activeConversation. rewrite Hactive.
    repeat split; [exact Hc|congruence|].
    apply List.find_some in Hc as [Hc _]. now apply list_elem_of_In. }
  subst w'. unfold ConversationEffects.init. cbn [truthy]. rewrite Hm. cbn [negb].
  rewrite !run_bind.
  set (w1 := run (modify (ConversationEffects.with_convMountedRef true)) w).
  destruct (migrateLegacyData_cases promptAI cid now m w1 Hm eq_refl)
    as [Hdeclined|(meta & w2 & Hmigrated & Hid & Hlist2 & Hactive2)].
  - assert (Hres : result (Conversations.migrateLegacyData promptAI cid now (Some m)) w1
                   = false) by (unfold result; now rewrite Hdeclined).
    assert (Hrun : run (Conversations.migrateLegacyData promptAI cid now (Some m)) w1
                   = w1) by (unfold run; now rewrite Hdeclined).
    rewrite Hres, Hrun.
    destruct (loadConversations_outcome m w1 Hm)
      as (Hlist & _ & _ & Hpointer & Hfallback).
    intros Hne. rewrite Hlist in Hne.
    assert (Hnewest : (forall p, load_string (getLastConversationKey m) (store w1) = Some p ->
                         truthy_str p = true ->
                         p ∉ map id (default []
                               (load_conversations (getConversationListKey m) (store w1)))) ->
              exists c, ConversationEffects.activeConversation
                          (run (Conversations.loadConversations (Some m)) w1) = Some c
                /\ activeConversationId
                     (run (Conversations.loadConversations (Some m)) w1) = Some (id c)
                /\ c ∈ conversations (run (Conversations.loadConversations (Some m)) w1)).
    { intros Hno. destruct (Hfallback Hno) as [Hpick _].
      destruct (Hpick Hne) as (newest & pre & post & Hsplit & _ & _ & Hactive).
      apply (Hfind _ (id newest)); [exact Hactive|].
      rewrite Hlist, Hsplit, map_app. apply elem_of_app. right. apply list_elem_of_here. }
    destruct (load_string (getLastConversationKey m) (store w1)) as [p|] eqn:Hp;
      [|apply Hnewest; intros q Hq; discriminate].
    destruct (truthy_str p) eqn:Htruthy;
      [|apply Hnewest; intros q Hq Hqt; congruence].
    destruct (decide (p ∈ map id
                (default [] (load_conversations (getConversationListKey m) (store w1)))))
      as [Hin|Hout].
    + apply (Hfind _ p); [now apply Hpointer|now rewrite Hlist].
    + apply Hnewest. intros q Hq _. congruence.
  - assert (Hres : result (Conversations.migrateLegacyData promptAI cid now (Some m)) w1
                   = true) by (unfold result; now rewrite Hmigrated).
    assert (Hrun : run (Conversations.migrateLegacyData promptAI cid now (Some m)) w1
                   = w2) by (unfold run; now rewrite Hmigrated).
    rewrite Hres, Hrun. change (run (mret tt : Handler unit) w2) with w2. intros _.
    apply (Hfind _ cid); [exact Hactive2|].
    rewrite Hlist2. simpl. rewrite Hid. apply list_elem_of_here.
Qed.

End ConversationInvariants.

(** ** Titles and previews *)

Lemma length_slice0 (n : nat) (s : string) : String.length (str_slice0 n s) <= n.
Proof.
  unfold str_slice0. revert s. induction n as [|n IH]; intros s.
  - destruct s; simpl; lia.
  - destruct s as [|c s]; simpl; [lia|]. specialize (IH s). lia.
Qed.

Lemma slice0_empty (n : nat) (s : string) : str_slice0 (S n) s = "" -> s = "".
Proof. unfold str_slice0. destruct s; [reflexivity|discriminate]. Qed.

Lemma previewOf_bound (m : option Message) (p : string) :
  Conversations.previewOf m = Some p ->
  String.length p <= 100
  /\ exists x, m = Some x /\ p = str_slice0 100 (text x) /\ text x <> "".
Proof.
  unfold Conversations.previewOf, or_else. destruct m as [x|]; [|discriminate].
  simpl. destruct (truthy_str (str_slice0 100 (text x))) eqn:Htruthy; [|discriminate].
  intros Hp. injection Hp as <-. split; [apply length_slice0|].
  exists x. repeat split. intros Hempty. rewrite Hempty in Htruthy. discriminate.
Qed.

Lemma previewOf_empty (x : Message) :
  Conversations.previewOf (Some x) = None <-> text x = "".
Proof.
  unfold Conversations.previewOf, or_else. simpl.
  destruct (truthy_str (str_slice0 100 (text x))) eqn:Htruthy; split; try discriminate.
  - intros Hempty. rewrite Hempty in Htruthy. discriminate.
  - intros _. unfold truthy_str in Htruthy. apply negb_false_iff, String.eqb_eq in Htruthy.
    now apply slice0_empty in Htruthy.
  - reflexivity.
Qed.

Lemma preview_value (t : string) :
  or_else (Some (str_slice0 100 t)) None
  = if decide (t = "") then None else Some (str_slice0 100 t).
Proof.
  unfold or_else. simpl. destruct (decide (t = "")) as [->|Hfull]; [reflexivity|].
  destruct (truthy_str (str_slice0 100 t)) eqn:Htruthy; [reflexivity|].
  unfold truthy_str in Htruthy. apply negb_false_iff, String.eqb_eq in Htruthy.
  now apply slice0_empty in Htruthy.
Qed.

Section Titles.
Context `{KeyScheme} `{DateParser}.

(** X8. The conversation a migration creates: its title is the title
    generator's answer cut to 50 characters, or "Chat 1" when the
    generator fails or answers nothing, so the migration goes through
    either way; its preview is the first 100 characters of the last legacy
    message; it is created and updated at the clock reading; and the
    generator is sent at most five messages and the instruction. *)
Theorem migrated_conversation_fields promptAI (cid now m : string) (w : World)
    (legacy : list Message) :
  truthy_str m = true ->
  getConversationListKey m <> m ->
  legacy <> [] ->
  load_messages m (store w) = Some legacy ->
  (load_conversations (getConversationListKey m) (store w) = None
   \/ load_conversations (getConversationListKey m) (store w) = Some []) ->
  let w' := run (Conversations.migrateLegacyData promptAI cid now (Some m)) w in
  let request := Conversations.titleRequest legacy in
  length request <= 6
  /\ exists meta t,
       load_conversations (getConversationListKey m) (store w') = Some [meta]
       /\ title meta = Some t
       /\ String.length t <= 50
       /\ (promptAI m request = Rejected -> t = "Chat 1")
       /\ (forall r, promptAI m request = Resolved r ->
                     t = if truthy_str r then str_slice0 50 r else "Chat 1")
       /\ createdAt meta = now /\ updatedAt meta = now
       /\ lastMessagePreview meta = Conversations.previewOf (last legacy)
       /\ (forall p, lastMessagePreview meta = Some p -> String.length p <= 100).
Proof.
  intros Hm Hlegacy_key Hne Hlegacy Hlist w' request.
  assert (Hlp : getConversationListKey m <> getLastConversationKey m)
    by apply list_key_not_last.
  split.
  { subst request. unfold Conversations.titleRequest.
    rewrite length_app, length_map, length_take. cbn [length]. lia. }
  subst w'. unfold Conversations.migrateLegacyData. rewrite Hm.
  unfold_handler. simpl. rewrite Hlegacy.
  destruct legacy as [|x rest]; [contradiction|]. fold request.
  set (t := match promptAI m request with
            | Resolved r => if truthy_str r then str_slice0 50 r else "Chat 1"
            | Rejected => "Chat 1"
            end).
  assert (Ht : String.length t <= 50).
  { subst t. destruct (promptAI m request) as [r|]; [|simpl; lia].
    destruct (truthy_str r); [apply length_slice0|simpl; lia]. }
  exists (mkConversationMeta cid m (Some t) None now now
            (Conversations.previewOf (last (x :: rest)))), t.
  repeat split; auto.
  - destruct Hlist as [Hnone|Hempty]; [rewrite Hnone|rewrite Hempty]; simpl;
      destruct (convMountedRef w); unfold_handler; simpl; store_lookup;
      subst t; destruct (promptAI m request) as [r|]; try reflexivity;
      destruct (truthy_str r); reflexivity.
  - intros Hrej. subst t. now rewrite Hrej.
  - intros r Hr. subst t. now rewrite Hr.
  - simpl. intros p Hp. now apply previewOf_bound in Hp as [Hlen _].
Qed.

(** The list after one title was written. *)
Lemma saveMessages_list now m c (w : World) :
  truthy_str m = true ->
  truthy_str c = true ->
  conversationIdRef w = Some c ->
  activeConversationIdRef w = Some c ->
  msgRef w <> [] ->
  conversationsRef (run (AiChat.saveMessages now (Some m)) w)
  = map (fun x => if decide (id x = c)
                  then Conversations.applyUpdates now
                         (Conversations.mkMetaUpdates None None
                            (Some (Conversations.previewOf (head (msgRef w)))) (Some now)) x
                  else x)
        (conversationsRef w)
  /\ load_conversations (getConversationListKey m)
       (store (run (AiChat.saveMessages now (Some m)) w))
     = Some (conversationsRef (run (AiChat.saveMessages now (Some m)) w)).
Proof.
  intros Hm Hc Hconv Hactive Hne.
  unfold AiChat.saveMessages, Messages.saveMessages, AiChat.handleMessagesChange,
    Conversations.updateConversationMeta.
  rewrite Hm. unfold_handler. simpl. rewrite Hconv, Hc.
  destruct (msgRef w) as [|x rest] eqn:Hmsgs; [contradiction|].
  simpl. rewrite Hactive, Hc. simpl. split; [reflexivity|]. store_lookup.
Qed.

(** X9. Saving the message buffer through the orchestrator refreshes the
    active conversation in the list: its preview becomes the first 100
    characters of the newest message (none when that text is empty), its
    [updatedAt] the clock reading, its title and creation time stay; the
    other conversations are as before, and the list is persisted. *)
Theorem saveMessages_refreshes_preview now m c (w : World) (newest : Message)
    (older : list Message) :
  truthy_str m = true ->
  truthy_str c = true ->
  conversationIdRef w = Some c ->
  activeConversationIdRef w = Some c ->
  msgRef w = newest :: older ->
  let w' := run (AiChat.saveMessages now (Some m)) w in
  load_conversations (getConversationListKey m) (store w') = Some (conversationsRef w')
  /\ (forall i old, conversationsRef w !! i = Some old -> id old <> c ->
                   conversationsRef w' !! i = Some old)
  /\ (forall i old, conversationsRef w !! i = Some old -> id old = c ->
        exists new, conversationsRef w' !! i = Some new
          /\ updatedAt new = now
          /\ title new = title old /\ createdAt new = createdAt old
          /\ lastMessagePreview new
             = (if decide (text newest = "") then None
                else Some (str_slice0 100 (text newest)))
          /\ (forall p, lastMessagePreview new = Some p -> String.length p <= 100)).
Proof.
  intros Hm Hc Hconv Hactive Hmsgs w'.
  assert (Hne : msgRef w <> []) by (rewrite Hmsgs; discriminate).
  destruct (saveMessages_list now m c w Hm Hc Hconv Hactive Hne) as [Hlist Hstore].
  fold w' in Hlist, Hstore. rewrite Hmsgs in Hlist. simpl in Hlist.
  repeat split.
  - exact Hstore.
  - intros i old Hi Hother. rewrite Hlist, list_lookup_fmap, Hi. simpl.
    destruct (decide (id old = c)); [contradiction|reflexivity].
  - intros i old Hi Hsame. eexists. rewrite Hlist, list_lookup_fmap, Hi. simpl.
    destruct (decide (id old = c)); [|contradiction].
    split; [reflexivity|]. simpl. repeat split.
    + unfold or_else. simpl. now destruct (truthy_str now).
    + apply preview_value.
    + intros p. rewrite preview_value.
      destruct (decide (text newest = "")); [discriminate|].
      intros Hp. injection Hp as <-. apply length_slice0.
Qed.

(** X10. A new chat does not lose the transcript: [handleNewConversation]
    persists the buffer under the conversation that was active, then
    creates the new one, which becomes the active conversation with an
    empty message record and the last-active pointer on it. *)
Theorem handleNewConversation_keeps_transcript (cid savedAt now m old : string)
    (w : World) :
  truthy_str m = true ->
  truthy_str old = true ->
  cid <> old ->
  conversationIdRef w = Some old ->
  msgRef w <> [] ->
  let w' := run (AiChatFlows.handleNewConversation cid savedAt now (Some m)) w in
  load_messages (getMessagesKey old) (store w') = Some (Messages.flip (msgRef w))
  /\ load_messages (getMessagesKey cid) (store w') = Some []
  /\ activeConversationId w' = Some cid
  /\ load_string (getLastConversationKey m) (store w') = Some cid
  /\ exists l, load_conversations (getConversationListKey m) (store w') = Some l
               /\ conversations w' = l /\ head (map id l) = Some cid.
Proof.
  intros Hm Hold Hne Hconv Hmsgs w'.
  pose proof (saveMessages_store savedAt (Some m) old w Hold Hconv Hmsgs) as Hsaved.
  assert (Hlm : forall c, getConversationListKey m <> getMessagesKey c)
    by (intros c; apply list_key_not_messages).
  assert (Hpm : forall c, getLastConversationKey m <> getMessagesKey c)
    by (intros c; apply last_key_not_messages).
  assert (Hlp : getConversationListKey m <> getLastConversationKey m)
    by apply list_key_not_last.
  assert (Hkeys : getMessagesKey cid <> getMessagesKey old).
  { intros Heq. apply Hne. now apply messages_key_inj. }
  subst w'. unfold AiChatFlows.handleNewConversation.
  rewrite run_bind.
  set (w1 := run (AiChat.saveMessages savedAt (Some m)) w) in *.
  unfold Conversations.createConversation. rewrite Hm. unfold_handler. simpl.
  repeat split; try store_lookup.
  - unfold load_messages in Hsaved. exact Hsaved.
  - eexists. split; [store_lookup|]. split; reflexivity.
Qed.

End Titles.

(** ** Switching conversations *)

Section Switching.
Context `{KeyScheme}.

Lemma effectCleanup_outcome (c : option string) (w : World) :
  msgRef (run (MessageEffects.effectCleanup c) w) = []
  /\ messagesState (run (MessageEffects.effectCleanup c) w) = messagesState w
  /\ prevConversationIdRef (run (MessageEffects.effectCleanup c) w)
     = prevConversationIdRef w
  /\ store (run (MessageEffects.effectCleanup c) w)
     = if truthy c && negb (Messages.isEmpty (msgRef w))
       then save (getMessagesKey (default "" c)) (VMessages (Messages.flip (msgRef w)))
              (store w)
       else store w.
Proof.
  unfold MessageEffects.effectCleanup. unfold_handler.
  destruct (truthy c && negb (Messages.isEmpty (msgRef w))); repeat split.
Qed.

Lemma switchConversation_run (old new : option string) (w : World) :
  run (MessageEffects.switchConversation old new) w
  = run (Messages.loadEffect new)
      (MessageEffects.with_conversationIdRef new (run (MessageEffects.effectCleanup old) w)).
Proof.
  unfold MessageEffects.switchConversation, MessageEffects.syncConversationIdRef.
  now rewrite !run_bind.
Qed.

(** The load effect on an empty buffer writes nothing. *)
Lemma loadEffect_store_empty (c : option string) (w : World) :
  msgRef w = [] -> store (run (Messages.loadEffect c) w) = store w.
Proof.
  intros Hempty. unfold Messages.loadEffect. unfold_handler. simpl. rewrite Hempty. simpl.
  repeat case_match; simplify_eq; reflexivity.
Qed.

(** X11. Switching away from a conversation and back restores its
    transcript: the cleanup persists the buffer under the conversation
    left, and the load on return yields the same messages, newest first,
    with a missing context flag set. *)
Theorem switch_away_and_back (a : string) (b : option string) (w : World) :
  truthy_str a = true ->
  b <> Some a ->
  msgRef w <> [] ->
  let away := run (MessageEffects.switchConversation (Some a) b) w in
  let back := run (MessageEffects.switchConversation b (Some a)) away in
  load_messages (getMessagesKey a) (store away) = Some (Messages.flip (msgRef w))
  /\ messagesState back = map Messages.withContextFlag (msgRef w)
  /\ msgRef back = map Messages.withContextFlag (msgRef w).
Proof.
  intros Ha Hdiff Hne away back.
  assert (Hflip : Messages.flip (msgRef w) <> []).
  { intros Hnil. apply Hne. now apply flip_nil_inv. }
  assert (Haway : load_messages (getMessagesKey a) (store away)
                  = Some (Messages.flip (msgRef w))).
  { subst away. rewrite switchConversation_run.
    destruct (effectCleanup_outcome (Some a) w) as (Hbuf & _ & _ & Hstore).
    rewrite (loadEffect_store_empty _ (MessageEffects.with_conversationIdRef _ _) Hbuf).
    cbn [store MessageEffects.with_conversationIdRef]. rewrite Hstore. simpl. rewrite Ha.
    destruct (msgRef w); [contradiction|]. simpl. apply load_messages_save_eq. }
  split; [exact Haway|].
  subst back. rewrite (switchConversation_run b (Some a) away).
  destruct (effectCleanup_outcome b away) as (_ & _ & _ & Hstore).
  assert (Hkept : load_messages (getMessagesKey a)
                    (store (MessageEffects.with_conversationIdRef (Some a)
                              (run (MessageEffects.effectCleanup b) away)))
                  = Some (Messages.flip (msgRef w))).
  { cbn [store MessageEffects.with_conversationIdRef]. rewrite Hstore. destruct (truthy b && negb (Messages.isEmpty (msgRef away)));
      [|exact Haway].
    rewrite load_messages_save_ne; [exact Haway|].
    intros Hk. apply messages_key_inj in Hk. apply Hdiff.
    destruct b as [b'|]; simpl in Hk; [congruence|].
    subst a. discriminate. }
  destruct (loadEffect_messages a _ _ Ha Hflip Hkept) as [Hstate Hbuf].
  rewrite Hstate, Hbuf, flip_flip. now split.
Qed.

(** X12. A switch of conversation with an empty buffer writes nothing: an
    empty buffer is never persisted, neither by the cleanup nor by the
    effect that loads the next conversation. *)
Theorem switch_with_empty_buffer_writes_nothing (old new : option string) (w : World) :
  msgRef w = [] ->
  store (run (MessageEffects.switchConversation old new) w) = store w.
Proof.
  intros Hempty. rewrite switchConversation_run.
  destruct (effectCleanup_outcome old w) as (Hbuf & _ & _ & Hstore).
  rewrite (loadEffect_store_empty _ (MessageEffects.with_conversationIdRef _ _) Hbuf).
  cbn [store MessageEffects.with_conversationIdRef]. rewrite Hstore, Hempty. simpl.
  now rewrite andb_false_r.
Qed.

(** X13. [remainTokens] is read off the last element of the newest-first
    list, the oldest message: prepending messages to a non-empty
    transcript does not change it. *)
Theorem remainTokens_is_of_oldest (newMessages : list Message) (w : World) :
  messagesState w <> [] ->
  MessageEffects.remainTokensOf
    (messagesState (run (MessageEffects.prependMessages newMessages) w))
  = MessageEffects.remainTokensOf (messagesState w)
  /\ MessageEffects.remainTokensOf (messagesState w)
     = remainTokens (List.last (messagesState w) (mkMessage "" "" false "" None None)).
Proof.
  intros Hne. unfold MessageEffects.prependMessages, MessageEffects.remainTokensOf.
  unfold_handler. simpl.
  destruct (messagesState w) as [|x rest] using rev_ind; [contradiction|].
  rewrite app_assoc, !last_snoc, List.last_last. now split.
Qed.

End Switching.

(** ** Titles for conversations that lack one *)

Section MissingTitles.
Context `{KeyScheme} `{DateParser}.

(** An entry that title generation rewrote: titled within 50 characters,
    with its identity kept. *)
Definition retitled (old new : ConversationMeta) : Prop :=
  id new = id old /\ modelId new = modelId old /\ createdAt new = createdAt old
  /\ lastMessagePreview new = lastMessagePreview old
  /\ exists t, title new = Some t /\ String.length t <= 50.

Lemma retitled_trans (a b c : ConversationMeta) :
  retitled a b -> retitled b c -> retitled a c.
Proof.
  intros (Hid1 & Hm1 & Hc1 & Hp1 & _) (Hid2 & Hm2 & Hc2 & Hp2 & Ht).
  unfold retitled.
  split; [congruence|]. split; [congruence|]. split; [congruence|].
  split; [congruence|exact Ht].
Qed.

Lemma Forall2_compose {A} (R S T : A -> A -> Prop) (l1 l2 l3 : list A) :
  (forall x y z, R x y -> S y z -> T x z) ->
  Forall2 R l1 l2 -> Forall2 S l2 l3 -> Forall2 T l1 l3.
Proof.
  intros Hcomp H12. revert l3. induction H12 as [|x y l1 l2 Hxy _ IH]; intros l3 H23.
  - inversion H23. constructor.
  - inversion H23 as [|? z ? l3' Hyz Hrest]; subst. constructor; eauto.
Qed.

Lemma Forall2_unchanged {A} (P : A -> A -> Prop) (l : list A) :
  Forall2 (fun old new => new = old \/ P old new) l l.
Proof. induction l; constructor; auto. Qed.

Lemma Forall2_map_same {A} (R : A -> A -> Prop) (f : A -> A) (l : list A) :
  (forall x, R x (f x)) -> Forall2 R l (map f l).
Proof. intros Hf. induction l; simpl; constructor; auto. Qed.

(** One title: the entries of the conversation are retitled, the others
    and every message record are left alone. *)
Lemma generateConversationTitle_step promptAI now m generating c msgs (w : World) :
  truthy_str m = true ->
  let w' := run (AiChatFlows.generateConversationTitle promptAI now (Some m)
                   generating c msgs) w in
  (forall k, load_messages (getMessagesKey k) (store w')
             = load_messages (getMessagesKey k) (store w))
  /\ Forall2 (fun old new => new = old \/ (id old = c /\ retitled old new))
       (conversationsRef w) (conversationsRef w').
Proof.
  intros Hm w'. subst w'. unfold AiChatFlows.generateConversationTitle. rewrite Hm.
  assert (Hsame : forall l : list ConversationMeta,
            Forall2 (fun old new => new = old \/ (id old = c /\ retitled old new)) l l).
  { intros l. induction l; constructor; auto. }
  cbn [negb]. destruct (bool_decide (c ∈ generating)); [split; [reflexivity|apply Hsame]|].
  destruct (promptAI m (Conversations.titleRequest msgs)) as [r|];
    [|split; [reflexivity|apply Hsame]].
  destruct (truthy_str r); [|split; [reflexivity|apply Hsame]].
  unfold Conversations.updateConversationMeta. rewrite Hm. unfold_handler. simpl. split.
  - intros k. apply load_messages_save_ne. apply list_key_not_messages.
  - apply Forall2_map_same. intros x.
    destruct (decide (id x = c)) as [Hid|Hother]; [right|now left].
    split; [exact Hid|]. unfold retitled. simpl.
    split; [reflexivity|]. split; [reflexivity|]. split; [reflexivity|].
    split; [reflexivity|].
    eexists. split; [reflexivity|apply length_slice0].
Qed.

Definition enoughMessages (st : Store) (c : string) : Prop :=
  AiChatFlows.MIN_MESSAGES_FOR_TITLE
  <= length (default [] (load_messages (getMessagesKey c) st)).

Lemma titleTurn_step promptAI nowAt m generating conv (w : World) :
  truthy_str m = true ->
  let w' := run (AiChatFlows.titleTurn promptAI nowAt (Some m) generating conv) w in
  (forall k, load_messages (getMessagesKey k) (store w')
             = load_messages (getMessagesKey k) (store w))
  /\ Forall2 (fun old new =>
                new = old
                \/ (id old = id conv /\ enoughMessages (store w) (id conv)
                    /\ retitled old new))
       (conversationsRef w) (conversationsRef w').
Proof.
  intros Hm w'. subst w'. unfold AiChatFlows.titleTurn. rewrite run_bind.
  change (run (loadMessagesH (getMessagesKey (id conv))) w) with w.
  change (result (loadMessagesH (getMessagesKey (id conv))) w)
    with (load_messages (getMessagesKey (id conv)) (store w)).
  destruct (Nat.leb AiChatFlows.MIN_MESSAGES_FOR_TITLE
              (length (default [] (load_messages (getMessagesKey (id conv)) (store w)))))
    eqn:Henough.
  - apply Nat.leb_le in Henough.
    destruct (generateConversationTitle_step promptAI (nowAt (id conv)) m generating
                (id conv) (default [] (load_messages (getMessagesKey (id conv)) (store w)))
                w Hm) as [Hstore Hlist].
    split; [exact Hstore|].
    eapply Forall2_impl; [exact Hlist|]. intros old new [->|[Hid Hre]]; [now left|right].
    split; [exact Hid|]. split; [exact Henough|exact Hre].
  - split; [reflexivity|]. change (run (mret tt : Handler unit) w) with w.
    apply Forall2_unchanged.
Qed.

Lemma titleTurns_steps promptAI nowAt m generating (work : list ConversationMeta)
    (w0 w : World) :
  truthy_str m = true ->
  (forall k, load_messages (getMessagesKey k) (store w)
             = load_messages (getMessagesKey k) (store w0)) ->
  let w' := run (foldr (fun conv rest =>
                          AiChatFlows.titleTurn promptAI nowAt (Some m) generating conv;; rest)
                       (mret tt) work) w in
  (forall k, load_messages (getMessagesKey k) (store w')
             = load_messages (getMessagesKey k) (store w0))
  /\ Forall2 (fun old new =>
                new = old
                \/ (id old ∈ map id work /\ enoughMessages (store w0) (id old)
                    /\ retitled old new))
       (conversationsRef w) (conversationsRef w').
Proof.
  intros Hm. revert w. induction work as [|conv work IH]; intros w Hstore w'.
  - subst w'. split; [exact Hstore|]. apply Forall2_unchanged.
  - subst w'. cbn [foldr]. rewrite run_bind.
    destruct (titleTurn_step promptAI nowAt m generating conv w Hm) as [Hstore1 Hlist1].
    set (w1 := run (AiChatFlows.titleTurn promptAI nowAt (Some m) generating conv) w) in *.
    assert (Hstore1' : forall k, load_messages (getMessagesKey k) (store w1)
                                 = load_messages (getMessagesKey k) (store w0)).
    { intros k. now rewrite Hstore1. }
    destruct (IH w1 Hstore1') as [Hstore2 Hlist2]. split; [exact Hstore2|].
    eapply Forall2_compose; [|exact Hlist1|exact Hlist2].
    intros old mid new Hfirst Hsecond. simpl.
    assert (Hmid : id mid = id old).
    { destruct Hfirst as [->|(_ & _ & Hre)]; [reflexivity|apply Hre]. }
    destruct Hsecond as [->|(Hin & Henough & Hre)].
    + destruct Hfirst as [->|(Hid & Henough & Hre)]; [now left|right].
      split; [rewrite Hid; apply list_elem_of_here|].
      split; [|exact Hre].
      unfold enoughMessages in *. now rewrite Hid, <- Hstore.
    + right. rewrite Hmid in Hin, Henough.
      split; [now apply list_elem_of_further|]. split; [exact Henough|].
      destruct Hfirst as [->|(_ & _ & Hre1)]; [exact Hre|].
      now apply (retitled_trans old mid new).
Qed.

(** X14. [generateMissingTitles] keeps the list in place (same ids, same
    order) and writes no message record.  An entry changes only if its id
    is that of a conversation that had no title, was not generating one
    and has at least three persisted messages; it then carries a title of
    at most 50 characters and keeps its model, creation time and
    preview. *)
Theorem generateMissingTitles_bounds promptAI nowAt (m : string)
    (generating : gset string) (w : World) :
  truthy_str m = true ->
  let w' := run (AiChatFlows.generateMissingTitles promptAI nowAt (Some m) generating) w in
  let work := AiChatFlows.conversationsWithoutTitle generating (conversations w) in
  (forall k, load_messages (getMessagesKey k) (store w')
             = load_messages (getMessagesKey k) (store w))
  /\ map id (conversationsRef w') = map id (conversationsRef w)
  /\ (forall i old, conversationsRef w !! i = Some old ->
        exists new, conversationsRef w' !! i = Some new
          /\ (new = old
              \/ (id old ∈ map id work
                  /\ 3 <= length (default [] (load_messages (getMessagesKey (id old)) (store w)))
                  /\ retitled old new)))
  /\ (forall c, c ∈ work ->
        truthy (title c) = false /\ (id c ∉ generating) /\ c ∈ conversations w).
Proof.
  intros Hm w' work. subst w'. unfold AiChatFlows.generateMissingTitles. rewrite Hm.
  cbn [negb]. rewrite run_bind.
  change (run get_world w) with w. change (result get_world w) with w. fold work.
  destruct (titleTurns_steps promptAI nowAt m generating work w w Hm (fun k => eq_refl))
    as [Hstore Hlist].
  repeat split.
  - exact Hstore.
  - clear Hstore. induction Hlist as [|old new l l' Hon _ IH]; [reflexivity|].
    simpl. rewrite IH. f_equal.
    destruct Hon as [->|(_ & _ & Hre)]; [reflexivity|apply Hre].
  - intros i old Hi.
    destruct (Forall2_lookup_l _ _ _ i old Hlist Hi) as (new & Hnew & Hrel).
    exists new. split; [exact Hnew|exact Hrel].
  - subst work. unfold AiChatFlows.conversationsWithoutTitle in *.
    apply list_elem_of_filter in H1 as [Hcond _].
    apply andb_true_iff in Hcond as [Htitle _]. now apply negb_true_iff.
  - subst work. unfold AiChatFlows.conversationsWithoutTitle in *.
    apply list_elem_of_filter in H1 as [Hcond _].
    apply andb_true_iff in Hcond as [_ Hgen].
    now apply negb_true_iff, bool_decide_eq_false in Hgen.
  - subst work. unfold AiChatFlows.conversationsWithoutTitle in *.
    now apply list_elem_of_filter in H1 as [_ Hin].
Qed.

End MissingTitles.

(** ** The single-hook chat, continued *)

Module ChatMore.
Import Chat.

(** X15. [removeModel] on a hook with a selected model always drops the
    loaded instance, whether or not unloading succeeds.  When the engine
    removes the model, the lifecycle is [not_setup] with progress 0, no
    model is selected and the persisted selection is gone.  When the
    removal is rejected, status, selection and storage stay as they were
    while the instance is gone, so a send finds no model and does
    nothing. *)
Theorem removeModel_outcome (unloaded removed : outcome unit) (s : State) (sel : string) :
  selectedModelId s = Some sel ->
  truthy_str sel = true ->
  let s' := ChatRemoval.removeModel unloaded removed s in
  modelRef s' = None
  /\ ChatRemoval.removeModel Rejected removed s = ChatRemoval.removeModel (Resolved tt) removed s
  /\ (removed = Resolved tt ->
      modelStatus s' = not_setup /\ downloadProgress s' = 0%Z
      /\ selectedModelId s' = None
      /\ storage s' !! STORAGE_KEY_SELECTED_MODEL = None)
  /\ (removed = Rejected ->
      modelStatus s' = modelStatus s /\ downloadProgress s' = downloadProgress s
      /\ selectedModelId s' = Some sel /\ storage s' = storage s
      /\ forall userId aiId now, handleSendStart userId aiId now s' = (None, s')).
Proof.
  intros Hsel Htruthy s'. subst s'. unfold ChatRemoval.removeModel.
  assert (Hsend : forall s0 userId aiId now,
            modelRef s0 = None -> handleSendStart userId aiId now s0 = (None, s0)).
  { intros s0 userId aiId now Hnone. unfold handleSendStart. rewrite Hnone.
    rewrite (bool_decide_eq_false_2 (is_Some None)) by (intros [x Hx]; discriminate).
    now rewrite !orb_true_r. }
  destruct (modelRef s) eqn:Href, unloaded, removed; simpl;
    rewrite ?Hsel, ?Htruthy; simpl;
    (split; [try reflexivity; exact Href|]);
    (split; [reflexivity|]);
    (split; intros Hremoved; try discriminate Hremoved);
    repeat split; try exact Hsel; try apply lookup_delete_eq;
    intros userId aiId now; apply Hsend; try reflexivity; exact Href.
Qed.

(** X16. [removeModelById] for a model other than the selected one asks
    the engine to remove it and touches nothing of the lifecycle, whatever
    the outcome; for the selected model when it is not ready, a successful
    removal clears the selection, its persisted record and the status and
    a rejected one changes nothing; for the selected, ready model it is
    [removeModel]. *)
Theorem removeModelById_outcome (modelId : string) (unloaded removed : outcome unit)
    (s : State) :
  let s' := ChatRemoval.removeModelById modelId unloaded removed s in
  (selectedModelId s <> Some modelId ->
   s' = engine (Remove modelId) s)
  /\ (selectedModelId s = Some modelId -> modelStatus s <> ready ->
      engineCalls s' = engineCalls s ++ [Remove modelId]
      /\ modelRef s' = modelRef s
      /\ (removed = Resolved tt ->
          selectedModelId s' = None /\ modelStatus s' = not_setup
          /\ storage s' !! STORAGE_KEY_SELECTED_MODEL = None)
      /\ (removed = Rejected -> s' = engine (Remove modelId) s))
  /\ (selectedModelId s = Some modelId -> modelStatus s = ready ->
      s' = ChatRemoval.removeModel unloaded removed s).
Proof.
  intros s'. subst s'. unfold ChatRemoval.removeModelById. split; [|split].
  - intros Hother. rewrite (bool_decide_eq_false_2 _ Hother). simpl.
    rewrite (bool_decide_eq_false_2 _ Hother). now destruct removed.
  - intros Hsel Hnot.
    rewrite (bool_decide_eq_true_2 _ Hsel), (bool_decide_eq_false_2 _ Hnot). simpl.
    rewrite (bool_decide_eq_true_2 _ Hsel).
    split; [now destruct removed|]. split; [now destruct removed|].
    split; intros ->; [|reflexivity].
    simpl. repeat split. apply lookup_delete_eq.
  - intros Hsel Hready.
    now rewrite (bool_decide_eq_true_2 _ Hsel), (bool_decide_eq_true_2 _ Hready).
Qed.

(** X17. A failed download or prepare ends the setup: on a mounted hook
    the lifecycle is back at [not_setup] with progress 0 and the guard is
    down, while the selection, the loaded instance, storage and the engine
    log are as they were. *)
Theorem setup_failure_resets (t : SetupTask) (s : State) :
  task_point t = AwaitDownload \/ task_point t = AwaitPrepare ->
  isMountedRef s = true ->
  let '(next, s') := setupResume t Rejected s in
  next = None
  /\ modelStatus s' = not_setup /\ downloadProgress s' = 0%Z
  /\ isSetupInProgressRef s' = false
  /\ selectedModelId s' = selectedModelId s /\ modelRef s' = modelRef s
  /\ storage s' = storage s /\ engineCalls s' = engineCalls s.
Proof.
  intros [Hpoint|Hpoint] Hmounted; unfold setupResume, setupCatch, setupFinally;
    rewrite Hpoint, Hmounted; repeat split.
Qed.

(** X18. Failing to unload or remove the old model does not block the
    setup: on a mounted hook a rejected unload, or a removal however it
    ends, leads to the download of the new model, with the lifecycle at
    [downloading] and progress 0. *)
Theorem old_model_removal_never_blocks (t : SetupTask) (o : outcome unit) (s : State) :
  (task_point t = AwaitUnload /\ o = Rejected) \/ task_point t = AwaitRemoveOld ->
  isMountedRef s = true ->
  let '(next, s') := setupResume t o s in
  next = Some (mkSetupTask (task_modelId t) (task_selectedModelId t) AwaitDownload)
  /\ modelStatus s' = downloading /\ downloadProgress s' = 0%Z
  /\ engineCalls s' = engineCalls s ++ [Download (task_modelId t)]
  /\ isSetupInProgressRef s' = isSetupInProgressRef s.
Proof.
  intros Hpoint Hmounted.
  assert (Hafter : setupResume t o s
                   = setupAfterRemoval (task_modelId t) (task_selectedModelId t) s).
  { unfold setupResume. destruct Hpoint as [[Hpoint ->]|Hpoint]; rewrite Hpoint;
      [reflexivity|now destruct o]. }
  rewrite Hafter. unfold setupAfterRemoval, setupDownload. rewrite Hmounted. simpl.
  rewrite Hmounted. repeat split.
Qed.

(** What a torn-down hook keeps through setup events. *)
Definition display (s : State) : ModelStatus * Z * option string * Store :=
  (modelStatus s, downloadProgress s, selectedModelId s, storage s).

Lemma step_after_teardown (e : Event) (sys : System) :
  isMountedRef (hook sys) = false ->
  isMountedRef (hook (step e sys)) = false
  /\ display (hook (step e sys)) = display (hook sys).
Proof.
  intros Hdown. destruct e as [modelId sel status|i o|i p|]; simpl.
  - unfold setupModel, setupDownload.
    destruct (isSetupInProgressRef (hook sys)); [now split|].
    destruct (bool_decide (sel = Some modelId) && bool_decide (status = ready));
      [now split|].
    destruct (negb (bool_decide (sel = Some modelId)) && truthy sel).
    + simpl. destruct (modelRef (hook sys)); simpl; now split.
    + simpl. rewrite Hdown. simpl. now split.
  - destruct (tasks sys !! i) as [t|]; [|now split].
    unfold setupResume, setupAfterRemoval, setupDownload, setupCatch, setupFinally.
    destruct (task_point t), o as [[]|]; simpl; rewrite ?Hdown; simpl;
      rewrite ?Hdown; simpl; now split.
  - destruct (tasks sys !! i) as [t|]; [|now split].
    unfold setupProgress. simpl.
    destruct (task_point t), p; simpl; rewrite ?Hdown; now split.
  - unfold unmount. simpl.
    destruct (streamAbortControllerRef (hook sys)); simpl;
      destruct (modelRef (hook sys)); simpl; now split.
Qed.

(** X19. Once the screen is torn down, no call of [setupModel] and no
    engine call that settles afterwards changes the status, the progress,
    the selection or the persisted selection. *)
Theorem no_mutation_after_teardown (es : list Event) (sys : System) :
  isMountedRef (hook sys) = false ->
  modelStatus (hook (exec es sys)) = modelStatus (hook sys)
  /\ downloadProgress (hook (exec es sys)) = downloadProgress (hook sys)
  /\ selectedModelId (hook (exec es sys)) = selectedModelId (hook sys)
  /\ storage (hook (exec es sys)) = storage (hook sys).
Proof.
  intros Hdown.
  assert (Hall : isMountedRef (hook (exec es sys)) = false
                 /\ display (hook (exec es sys)) = display (hook sys)).
  { revert sys Hdown. induction es as [|e es IH]; intros sys Hdown; [now split|].
    simpl. destruct (step_after_teardown e sys Hdown) as [Hdown1 Hsame1].
    destruct (IH _ Hdown1) as [Hdown2 Hsame2]. split; [exact Hdown2|congruence]. }
  destruct Hall as [_ Hsame]. unfold display in Hsame.
  injection Hsame as Hstatus Hprogress Hselected Hstorage. now repeat split.
Qed.

(** X20. The guard is up exactly while a setup is suspended: after any
    schedule from a hook on which no setup was started, the guard is down
    if and only if no call of [setupModel] is suspended, so a setup that
    has ended, however it ended, never locks out the next one. *)
Theorem guard_is_released (es : list Event) (sys0 : System) :
  idle sys0 ->
  tasks (exec es sys0) = [] <-> isSetupInProgressRef (hook (exec es sys0)) = false.
Proof.
  intros Hidle.
  destruct (Lifecycle.exec_guarded es sys0 (Lifecycle.idle_guarded sys0 Hidle))
    as [[Hnone Hflag]|(t & Hone & Hflag)]; rewrite ?Hnone, ?Hone, Hflag;
    split; congruence.
Qed.

End ChatMore.

(** ** The message stream, continued *)

Module StreamMore.
Import Chat.


(** X21. [handleSend] does nothing at all when the input is blank, a
    response is being streamed, the model is not ready or no model
    instance is loaded: no message is added, the input is kept and the
    engine is not called. *)
Theorem handleSend_is_guarded (userId aiId now : string) (s : State) :
  truthy_str (trimStr (inputText s)) = false \/ isLoading s = true
  \/ modelStatus s <> ready \/ modelRef s = None ->
  handleSendStart userId aiId now s = (None, s).
Proof.
  intros Hguard. unfold handleSendStart.
  replace (negb (truthy_str (trimStr (inputText s))) || isLoading s
           || negb (bool_decide (modelStatus s = ready))
           || negb (bool_decide (is_Some (modelRef s)))) with true; [reflexivity|].
  symmetry. destruct Hguard as [Hblank|[Hloading|[Hstatus|Hmodel]]].
  - now rewrite Hblank.
  - rewrite Hloading. now rewrite orb_true_r.
  - rewrite (bool_decide_eq_false_2 _ Hstatus). simpl. now rewrite orb_true_r.
  - rewrite Hmodel.
    rewrite (bool_decide_eq_false_2 (is_Some None)) by (intros [x Hx]; discriminate).
    now rewrite !orb_true_r.
Qed.









Lemma dropWhile_head {A} (p : A -> bool) (l : list A) x rest :
  dropWhile p l = x :: rest -> p x = false.
Proof.
  induction l as [|y l IH]; [discriminate|].
  simpl. destruct (p y) eqn:Hy; [exact IH|]. intros Heq. injection Heq as <- _. exact Hy.
Qed.

Lemma dropWhile_stop {A} (p : A -> bool) x (rest : list A) :
  p x = false -> dropWhile p (x :: rest) = x :: rest.
Proof. intros Hx. simpl. now rewrite Hx. Qed.

Lemma trim_idempotent (l : list ascii) : trim (trim l) = trim l.
Proof.
  unfold trim. set (body := dropWhile isWhiteSpace l).
  set (kept := dropWhile isWhiteSpace (rev body)).
  assert (Hhead : dropWhile isWhiteSpace (rev kept) = rev kept).
  { destruct (rev kept) as [|y r] eqn:Hrev; [reflexivity|].
    apply dropWhile_stop.
    pose proof (SizeProperties.takeWhile_dropWhile isWhiteSpace (rev body)) as Hsplit.
    fold kept in Hsplit. apply (f_equal (@rev _)) in Hsplit.
    rewrite rev_app_distr, rev_involutive, Hrev in Hsplit.
    subst body. simpl in Hsplit. symmetry in Hsplit.
    now apply dropWhile_head in Hsplit. }
  rewrite Hhead, rev_involutive.
  assert (Hkept : dropWhile isWhiteSpace kept = kept).
  { subst kept. destruct (dropWhile isWhiteSpace (rev body)) as [|y r] eqn:Hk;
      [reflexivity|]. apply dropWhile_stop. now apply dropWhile_head in Hk. }
  now rewrite Hkept.
Qed.

Lemma trimStr_idempotent (s : string) : trimStr (trimStr s) = trimStr s.
Proof.
  unfold trimStr. now rewrite list_ascii_of_string_of_list_ascii, trim_idempotent.
Qed.

(** X23. The request of a send.  With context history it is the
    transcript before the send, oldest first, without the messages whose
    text is blank or whose id is the placeholder's, mapped to roles,
    followed by the new user message; without context history it is the
    trimmed input alone.  The transcript gains the user message and the
    empty placeholder and the input is cleared. *)
Theorem handleSend_request userId aiId now (s : State) g s1 :
  userId <> aiId ->
  handleSendStart userId aiId now s = (Some g, s1) ->
  let input := trimStr (inputText s) in
  exists model,
    modelRef s = Some model
    /\ engineCalls s1
       = engineCalls s
         ++ [StreamText model
               (if useContextHistory s
                then WithMessages
                       (map toPromptMessage
                          (filter (fun msg => negb (String.eqb (msg_id msg) aiId)
                                              && truthy_str (trimStr (text msg)) = true)
                                  (messages s))
                        ++ [mkPromptMessage "user" input])
                else WithPrompt input)]
    /\ messages s1
       = messages s ++ [mkMessage userId input true now None None;
                        mkMessage aiId "" false now None None]
    /\ inputText s1 = "" /\ isLoading s1 = true.
Proof.
  intros Hids. unfold handleSendStart.
  destruct (negb (truthy_str (trimStr (inputText s))) || isLoading s
            || negb (bool_decide (modelStatus s = ready))
            || negb (bool_decide (is_Some (modelRef s)))) eqn:Hpre; [discriminate|].
  apply orb_false_iff in Hpre as [Hpre _].
  apply orb_false_iff in Hpre as [Hpre _].
  apply orb_false_iff in Hpre as [Hinput _].
  apply negb_false_iff in Hinput.
  simpl. destruct (modelRef s) as [model|]; [|discriminate].
  destruct (isMountedRef s); [|discriminate].
  simpl. intros Hstart. injection Hstart as <- <-. simpl.
  exists model. repeat split. do 2 f_equal.
  destruct (useContextHistory s); [|reflexivity]. f_equal.
  rewrite filter_app, map_app. f_equal.
  rewrite filter_cons. simpl.
  assert (Huser : (userId =? aiId)%string = false) by now apply String.eqb_neq.
  rewrite trimStr_idempotent, Huser, Hinput. simpl.
  destruct (decide (true = true)) as [_|Hno]; [|contradiction].
  rewrite filter_cons. simpl. rewrite String.eqb_refl. simpl.
  destruct (decide (false = true)) as [Hno|_]; [discriminate|]. reflexivity.
Qed.

(** X24. [checkModelExists] by what the engine reports.  A model that is
    present and prepares is made ready, selected, loaded and persisted as
    the selection, and the call returns true; a model that is absent, or
    whose presence the engine fails to tell, leaves status, selection,
    loaded instance and storage alone and the call returns false. *)
Theorem checkModelExists_by_presence (m : string) (s : State) :
  truthy_str m = true ->
  (let '(found, s') := checkModelExists (Some m) (Resolved true) (Resolved tt) s in
   found = true /\ modelStatus s' = ready /\ selectedModelId s' = Some m
   /\ modelRef s' = Some m
   /\ load_string STORAGE_KEY_SELECTED_MODEL (storage s') = Some m)
  /\ (forall isDownloaded prepare,
        isDownloaded <> Resolved true ->
        let '(found, s') := checkModelExists (Some m) isDownloaded prepare s in
        found = false /\ modelStatus s' = modelStatus s
        /\ selectedModelId s' = selectedModelId s /\ modelRef s' = modelRef s
        /\ storage s' = storage s).
Proof.
  intros Hm. split.
  - pose proof (Lifecycle.checkModelExists_present m s Hm) as Hpresent.
    destruct (checkModelExists (Some m) (Resolved true) (Resolved tt) s) as [found s'].
    destruct Hpresent as (Hf & Hst & Hsel & Href & Hsto & _). now repeat split.
  - intros isDownloaded prepare Hnot.
    apply (Lifecycle.checkModelExists_absent (Some m) isDownloaded prepare s Hnot).
Qed.

End StreamMore.

(** ** The model catalogue *)

Section Sorting.
Context {A : Type} (cmp : A -> A -> Z).

Lemma insert_sorted_perm (x : A) (l : list A) : insert_sorted cmp x l ≡ₚ x :: l.
Proof.
  induction l as [|y rest IH]; [reflexivity|].
  simpl. destruct (0 <? cmp x y)%Z; [|reflexivity].
  rewrite IH. apply Permutation_swap.
Qed.

Lemma sort_perm (l : list A) : sort cmp l ≡ₚ l.
Proof.
  induction l as [|x rest IH]; [reflexivity|].
  unfold sort in *. cbn [foldr]. now rewrite insert_sorted_perm, IH.
Qed.




End Sorting.

Lemma filter_all {A} (P : A -> Prop) `{forall x, Decision (P x)} (l : list A) :
  Forall P l -> filter P l = l.
Proof.
  induction 1 as [|x rest Hx _ IH]; [reflexivity|].
  rewrite filter_cons. destruct (decide (P x)); [now rewrite IH|contradiction].
Qed.

Module CatalogMore.
Import Number Catalog.













(** The model [sortModels] and [displayModels] look for. *)
Definition selectedOf (models : list ModelInfo) (selectedModelId : option string)
    : option ModelInfo :=
  if truthy selectedModelId
  then List.find (fun m => String.eqb (model_id m) (default "" selectedModelId)) models
  else None.

Definition othersOf (models : list ModelInfo) (selectedModelId : option string)
    : list ModelInfo :=
  if truthy selectedModelId
  then filter (fun m => model_id m <> default "" selectedModelId) models
  else models.

Lemma sortModels_split (models : list ModelInfo) (sel : option string) :
  sortModels models sel
  = match selectedOf models sel with
    | Some m => m :: sort bySizeAsc (othersOf models sel)
    | None => sort bySizeAsc (othersOf models sel)
    end.
Proof. reflexivity. Qed.

Lemma find_none_others (l : list ModelInfo) (sel : string) :
  Forall (fun m => model_id m <> sel) l ->
  List.find (fun m => String.eqb (model_id m) sel) l = None.
Proof.
  induction 1 as [|x rest Hx _ IH]; [reflexivity|].
  simpl. apply String.eqb_neq in Hx. now rewrite Hx.
Qed.

Lemma find_selected (l : list ModelInfo) (sel : string) (m : ModelInfo) :
  List.find (fun m => String.eqb (model_id m) sel) l = Some m ->
  model_id m = sel /\ m ∈ l.
Proof.
  intros Hfind. apply find_some in Hfind as [Hin Heq].
  split; [now apply String.eqb_eq|now apply list_elem_of_In].
Qed.

Lemma others_sorted_apart (models : list ModelInfo) (sel : string) :
  Forall (fun m => model_id m <> sel)
    (sort bySizeAsc (filter (fun m => model_id m <> sel) models)).
Proof.
  eapply Permutation_Forall; [symmetry; apply sort_perm|].
  apply Forall_forall. intros x Hx. now apply list_elem_of_filter in Hx as [Hx _].
Qed.


(** X27. The list the model sheet shows, given the list of the chat hook:
    in ascending order it is the hook's list unchanged; in descending
    order the selected model, when the catalogue has it, stays on top and
    the others are reversed.  With nothing selected the hook's list is the
    ascending catalogue of useModels. *)
Theorem displayModels_of_sortModels (models : list ModelInfo) (sel : option string) :
  let sorted := sortModels models sel in
  displayModels sorted sel asc = sorted
  /\ displayModels sorted sel desc
     = match selectedOf models sel with
       | Some m => m :: rev (tail sorted)
       | None => rev sorted
       end
  /\ (truthy sel = false -> sorted = sortedModels models asc).
Proof.
  cbv zeta. rewrite sortModels_split. unfold selectedOf, othersOf, displayModels.
  destruct (truthy sel) eqn:Htruthy.
  2: { split; [reflexivity|split; reflexivity]. }
  destruct sel as [sel|]; [|discriminate]. change (default "" (Some sel)) with sel.
  pose proof (others_sorted_apart models sel) as Hapart.
  set (others := sort bySizeAsc (filter (fun m => model_id m <> sel) models)) in *.
  destruct (List.find (fun m => String.eqb (model_id m) sel) models) as [m|] eqn:Hfind.
  - apply find_selected in Hfind as [Hid _].
    cbn [List.find]. rewrite filter_cons.
    destruct (decide (model_id m <> sel)) as [Hne|_]; [contradiction|].
    rewrite Hid, String.eqb_refl.
    rewrite (filter_all _ _ Hapart).
    split; [reflexivity|split; [reflexivity|discriminate]].
  - rewrite (find_none_others _ _ Hapart), (filter_all _ _ Hapart).
    split; [reflexivity|split; [reflexivity|discriminate]].
Qed.

(** X28. A load of the catalogue never keeps the list it found and never
    empties a bundled catalogue: the models are those of the response,
    at least one and each with a non-empty size, when the response
    carries any, and the bundled list when the response carries none or
    the request fails.  The flag of the mode of the call is cleared and the
    other flag is as it was. *)
Theorem loadModels_outcome (AVAILABLE_MODELS : list ModelInfo) (isRefresh : bool)
    (fetched : outcome (option FetchResult)) (s : ModelsState) :
  let s' := loadModels AVAILABLE_MODELS isRefresh fetched s in
  (if isRefresh
   then isRefreshing s' = false /\ isLoading s' = isLoading s
   else isLoading s' = false /\ isRefreshing s' = isRefreshing s)
  /\ (forall response items,
        fetched = Resolved response -> apiModels response = Some items ->
        models s' = map toModelInfo items
        /\ models s' <> []
        /\ Forall (fun m => truthy_str (size m) = true) (models s'))
  /\ (fetched = Rejected
      \/ (exists response, fetched = Resolved response /\ apiModels response = None) ->
      models s' = AVAILABLE_MODELS)
  /\ (AVAILABLE_MODELS <> [] -> models s' <> []).
Proof.
  cbv zeta. unfold loadModels.
  assert (Hsize : forall items : list ApiModelData,
            Forall (fun m => truthy_str (size m) = true) (map toModelInfo items)).
  { intros items. apply Forall_forall. intros m Hm.
    apply list_elem_of_fmap in Hm as (item & -> & _).
    unfold toModelInfo, or_else. simpl.
    destruct (truthy (info1 item)) eqn:Ht; [|reflexivity].
    destruct (info1 item); [exact Ht|discriminate]. }
  assert (Hitems : forall r items, apiModels r = Some items -> map toModelInfo items <> []).
  { intros r items Hr. unfold apiModels in Hr.
    repeat case_match; simplify_eq. discriminate. }
  destruct fetched as [response|].
  - destruct (apiModels response) as [items|] eqn:Hapi.
    + pose proof (Hitems _ _ Hapi) as Hne.
      destruct isRefresh; simpl; (split; [now split|]).
      all: split; [intros r i Hr Hi; simplify_eq; now repeat split|].
      all: split; [|intros _; exact Hne].
      all: intros [Hrej|(r & Hr & Hnone)]; [discriminate|simplify_eq].
    + destruct isRefresh; simpl; (split; [now split|]).
      all: split; [intros r i Hr Hi; simplify_eq|].
      all: split; [reflexivity|tauto].
  - destruct isRefresh; simpl; (split; [now split|]).
    all: split; [intros r i Hr Hi; discriminate|].
    all: split; [reflexivity|tauto].
Qed.

End CatalogMore.

(** ** useModels: removal of a model *)

Section ModelRemoval.
Context `{KeyScheme}.

Lemma removeMessageRecords_other (l : list ConversationMeta) (st : Store) k :
  (forall c, c ∈ l -> k <> getMessagesKey (id c)) ->
  Conversations.removeMessageRecords l st !! k = st !! k.
Proof.
  unfold Conversations.removeMessageRecords.
  revert st. induction l as [|c rest IH]; intros st Hk; [reflexivity|].
  cbn [fold_left]. rewrite IH.
  - unfold remove. apply lookup_delete_ne. intros Heq.
    apply (Hk c); [apply list_elem_of_here|now symmetry].
  - intros c' Hc'. apply Hk. now apply list_elem_of_further.
Qed.

(** X29. [removeModel] of useModels.  When the engine removes the model,
    the call resolves and the conversation list record of the model, its
    last-active record, the record under the bare model id and the message
    record of every conversation on the persisted list are gone, while
    every other record is as it was.  When the engine fails, the call
    rejects and storage is not touched. *)
Theorem useModels_removeModel_cascade (modelId : string) (removed : outcome unit)
    (st : Store) :
  let listed := default [] (load_conversations (getConversationListKey modelId) st) in
  let '(res, st') := ModelsStore.removeModel modelId removed st in
  (removed = Rejected -> res = Rejected /\ st' = st)
  /\ (removed = Resolved tt ->
      res = Resolved tt
      /\ st' !! getConversationListKey modelId = None
      /\ st' !! getLastConversationKey modelId = None
      /\ st' !! modelId = None
      /\ (forall c, c ∈ listed -> st' !! getMessagesKey (id c) = None)
      /\ (forall k, k <> getConversationListKey modelId ->
                    k <> getLastConversationKey modelId -> k <> modelId ->
                    (forall c, c ∈ listed -> k <> getMessagesKey (id c)) ->
                    st' !! k = st !! k)).
Proof.
  cbv zeta. unfold ModelsStore.removeModel.
  destruct removed as [[]|]; (split; [|]); try discriminate; try (intros _; now split).
  intros _. split; [reflexivity|].
  set (listed := default [] (load_conversations (getConversationListKey modelId) st)).
  set (swept := Conversations.removeMessageRecords listed st).
  unfold remove. split; [|split; [|split; [|split]]].
  - destruct (decide (modelId = getConversationListKey modelId)) as [Heq|Hne].
    + rewrite <- Heq at 1. rewrite Heq at 1. rewrite <- Heq. apply lookup_delete_eq.
    + rewrite lookup_delete_ne by congruence.
      destruct (decide (getLastConversationKey modelId = getConversationListKey modelId))
        as [Heq|Hne'].
      * rewrite <- Heq at 1. apply lookup_delete_eq.
      * rewrite lookup_delete_ne by congruence. apply lookup_delete_eq.
  - destruct (decide (modelId = getLastConversationKey modelId)) as [Heq|Hne].
    + rewrite <- Heq. apply lookup_delete_eq.
    + rewrite lookup_delete_ne by congruence. apply lookup_delete_eq.
  - apply lookup_delete_eq.
  - intros c Hc.
    assert (Hgone : swept !! getMessagesKey (id c) = None)
      by now apply removeMessageRecords_removed.
    repeat (rewrite lookup_delete_None; right). exact Hgone.
  - intros k Hlist Hlast Hmodel Hmsgs.
    rewrite !lookup_delete_ne by congruence.
    now apply removeMessageRecords_other.
Qed.

End ModelRemoval.

(** ** Relative dates *)

Module DatesMore.
Import Dates.

(** X30. [formatDate] of a valid date by its age, the milliseconds from
    the date to the clock reading: below a minute, a date in the future
    included, it is "Just now"; from there on it counts whole minutes from
    1 to 59, then whole hours from 1 to 23, then whole days from 1 to 6;
    from a week on it is the rendering of the platform, as it is for an
    invalid date. *)
Theorem formatDate_by_age (time : string -> option Z)
    (toLocaleDateString : string -> string) (nowMs : Z) (dateStr : string) :
  let shown := formatDate time toLocaleDateString nowMs dateStr in
  (time dateStr = None -> shown = toLocaleDateString dateStr)
  /\ (forall t, time dateStr = Some t ->
        let age := (nowMs - t)%Z in
        ((age < 60000)%Z -> shown = "Just now")
        /\ ((60000 <= age < 3600000)%Z ->
            exists n, (1 <= n <= 59)%Z /\ (60000 * n <= age < 60000 * (n + 1))%Z
                      /\ shown = String.append (pretty n) "m ago")
        /\ ((3600000 <= age < 86400000)%Z ->
            exists n, (1 <= n <= 23)%Z /\ (3600000 * n <= age < 3600000 * (n + 1))%Z
                      /\ shown = String.append (pretty n) "h ago")
        /\ ((86400000 <= age < 604800000)%Z ->
            exists n, (1 <= n <= 6)%Z /\ (86400000 * n <= age < 86400000 * (n + 1))%Z
                      /\ shown = String.append (pretty n) "d ago")
        /\ ((604800000 <= age)%Z -> shown = toLocaleDateString dateStr)).
Proof.
  cbv zeta. unfold formatDate. split.
  - now intros ->.
  - intros t ->.
    set (age := (nowMs - t)%Z).
    pose proof (Z.div_mod age 60000 ltac:(lia)) as Hm.
    pose proof (Z.mod_pos_bound age 60000 ltac:(lia)) as Hmb.
    pose proof (Z.div_mod age 3600000 ltac:(lia)) as Hh.
    pose proof (Z.mod_pos_bound age 3600000 ltac:(lia)) as Hhb.
    pose proof (Z.div_mod age 86400000 ltac:(lia)) as Hd.
    pose proof (Z.mod_pos_bound age 86400000 ltac:(lia)) as Hdb.
    set (mins := (age / 60000)%Z) in *.
    set (hours := (age / 3600000)%Z) in *.
    set (days := (age / 86400000)%Z) in *.
    split; [|split; [|split; [|split]]].
    + intros Hage. destruct (Z.ltb_spec mins 1); [reflexivity|lia].
    + intros Hage. exists mins.
      destruct (Z.ltb_spec mins 1); [lia|].
      destruct (Z.ltb_spec mins 60); [|lia].
      split; [lia|split; [lia|reflexivity]].
    + intros Hage. exists hours.
      destruct (Z.ltb_spec mins 1); [lia|].
      destruct (Z.ltb_spec mins 60); [lia|].
      destruct (Z.ltb_spec hours 24); [|lia].
      split; [lia|split; [lia|reflexivity]].
    + intros Hage. exists days.
      destruct (Z.ltb_spec mins 1); [lia|].
      destruct (Z.ltb_spec mins 60); [lia|].
      destruct (Z.ltb_spec hours 24); [lia|].
      destruct (Z.ltb_spec days 7); [|lia].
      split; [lia|split; [lia|reflexivity]].
    + intros Hage.
      destruct (Z.ltb_spec mins 1); [lia|].
      destruct (Z.ltb_spec mins 60); [lia|].
      destruct (Z.ltb_spec hours 24); [lia|].
      destruct (Z.ltb_spec days 7); [lia|reflexivity].
Qed.

End DatesMore.

(** * Instances of the further properties *)

Module MoreExamples.
Import Sample StoreExamples MessageExamples.

Lemma listKey_m1_apart : getConversationListKey "m1" <> "m1".
Proof. discriminate. Qed.

Lemma conversations_need_a_model_witness :
  Conversations.deleteAllConversations None threeConversations = (tt, threeConversations).
Proof.
  destruct (conversations_need_a_model None threeConversations eq_refl)
    as (_ & _ & _ & _ & Hall & _).
  exact Hall.
Defined.

Lemma c9_is_new : "c9" ∉ map id (conversationsRef threeConversations).
Proof. apply (bool_decide_eq_false_1 _). vm_compute. reflexivity. Qed.

Lemma create_then_delete_restores_list_witness :
  conversations
    (run (Conversations.deleteConversation (Some "m1") "c9")
       (run ConversationEffects.syncConversationsRef
          (run (Conversations.createConversation "c9" "50" (Some "m1") None)
             threeConversations)))
  = conversationsRef threeConversations.
Proof.
  destruct (create_then_delete_restores_list "m1" "c9" "50" None threeConversations
              eq_refl c9_is_new) as (_ & _ & _ & _ & Hlist & _).
  exact Hlist.
Defined.

Lemma create_twice_needs_ref_sync_witness :
  load_messages (getMessagesKey "c9")
    (store (run (Conversations.createConversation "c8" "60" (Some "m1") None)
              (run (Conversations.createConversation "c9" "50" (Some "m1") None)
                 threeConversations)))
  = Some [].
Proof.
  destruct (create_twice_needs_ref_sync "m1" "c9" "c8" "50" "60" threeConversations
              eq_refl) as (_ & _ & Hleft).
  - discriminate.
  - exact c9_is_new.
  - exact Hleft.
Defined.

Lemma loadConversations_resolves_active_witness :
  activeConversationId (run (Conversations.loadConversations (Some "m1")) threeConversations)
  = Some "c1".
Proof.
  destruct (loadConversations_resolves_active "m1" threeConversations eq_refl)
    as (_ & _ & _ & Hpointer & _).
  apply Hpointer.
  - reflexivity.
  - reflexivity.
  - apply list_elem_of_here.
Defined.

Lemma operations_keep_list_persisted_witness :
  mirrors "m1" (run (Conversations.deleteConversation (Some "m1") "c2") threeConversations).
Proof.
  destruct (operations_keep_list_persisted "m1" threeConversations eq_refl)
    as (_ & _ & Hdelete & _).
  apply Hdelete.
Defined.

Lemma updateConversationMeta_touches_one_witness :
  map id (conversationsRef
            (run (Conversations.updateConversationMeta "60" (Some "m1") "c2"
                    (Conversations.mkMetaUpdates (Some (Some "Trip")) None None None))
               threeConversations))
  = ["c1"; "c2"; "c3"].
Proof.
  destruct (updateConversationMeta_touches_one "60" "m1" "c2"
              (Conversations.mkMetaUpdates (Some (Some "Trip")) None None None)
              threeConversations eq_refl) as (Hids & _).
  exact Hids.
Defined.

Lemma migrated_list_not_empty :
  conversations (run (ConversationEffects.init noTitle "c9" "50" (Some "m1")) legacyWorld)
  <> [].
Proof. vm_compute. discriminate. Qed.

Lemma init_activates_a_member_witness :
  exists c,
    ConversationEffects.activeConversation
      (run (ConversationEffects.init noTitle "c9" "50" (Some "m1")) legacyWorld) = Some c
    /\ activeConversationId
         (run (ConversationEffects.init noTitle "c9" "50" (Some "m1")) legacyWorld)
       = Some (id c)
    /\ c ∈ conversations
             (run (ConversationEffects.init noTitle "c9" "50" (Some "m1")) legacyWorld).
Proof.
  exact (init_activates_a_member noTitle "c9" "50" "m1" legacyWorld eq_refl
           migrated_list_not_empty).
Defined.

Lemma migrated_conversation_fields_witness :
  length (Conversations.titleRequest legacyMessages) <= 6.
Proof.
  destruct (migrated_conversation_fields noTitle "c9" "50" "m1" legacyWorld legacyMessages
              eq_refl listKey_m1_apart) as (Hrequest & _).
  - discriminate.
  - reflexivity.
  - left. reflexivity.
  - exact Hrequest.
Defined.

Lemma saveMessages_refreshes_preview_witness :
  load_conversations (getConversationListKey "m1")
    (store (run (AiChat.saveMessages "11" (Some "m1")) live))
  = Some (conversationsRef (run (AiChat.saveMessages "11" (Some "m1")) live)).
Proof.
  destruct (saveMessages_refreshes_preview "11" "m1" "c1" live
              (msg "2" "hello" false None) [msg "1" "hi" true (Some false)]
              eq_refl eq_refl eq_refl eq_refl eq_refl) as (Hlist & _).
  exact Hlist.
Defined.

Lemma live_buffer_not_empty : msgRef live <> [].
Proof. discriminate. Qed.

Lemma handleNewConversation_keeps_transcript_witness :
  load_messages (getMessagesKey "c1")
    (store (run (AiChatFlows.handleNewConversation "c9" "49" "50" (Some "m1")) live))
  = Some (Messages.flip (msgRef live)).
Proof.
  destruct (handleNewConversation_keeps_transcript "c9" "49" "50" "m1" "c1" live
              eq_refl eq_refl) as (Hkept & _).
  - discriminate.
  - reflexivity.
  - exact live_buffer_not_empty.
  - exact Hkept.
Defined.

Lemma switch_away_and_back_witness :
  messagesState
    (run (MessageEffects.switchConversation (Some "c2") (Some "c1"))
       (run (MessageEffects.switchConversation (Some "c1") (Some "c2")) live))
  = map Messages.withContextFlag (msgRef live).
Proof.
  destruct (switch_away_and_back "c1" (Some "c2") live eq_refl) as (_ & Hback & _).
  - discriminate.
  - exact live_buffer_not_empty.
  - exact Hback.
Defined.

Lemma switch_with_empty_buffer_writes_nothing_witness :
  store (run (MessageEffects.switchConversation (Some "c1") (Some "c2")) drained)
  = store drained.
Proof.
  exact (switch_with_empty_buffer_writes_nothing (Some "c1") (Some "c2") drained eq_refl).
Defined.

Lemma remainTokens_is_of_oldest_witness :
  MessageEffects.remainTokensOf
    (messagesState
       (run (MessageEffects.prependMessages [msg "3" "more" true None]) live))
  = MessageEffects.remainTokensOf (messagesState live).
Proof.
  destruct (remainTokens_is_of_oldest [msg "3" "more" true None] live) as (Hsame & _).
  - discriminate.
  - exact Hsame.
Defined.

Lemma generateMissingTitles_bounds_witness :
  map id (conversationsRef
            (run (AiChatFlows.generateMissingTitles noTitle (fun _ => "70") (Some "m1") ∅)
               threeConversations))
  = map id (conversationsRef threeConversations).
Proof.
  destruct (generateMissingTitles_bounds noTitle (fun _ => "70") "m1" ∅ threeConversations
              eq_refl) as (_ & Hids & _).
  exact Hids.
Defined.

End MoreExamples.

Module MoreChatExamples.
Import Chat ChatExamples.

Lemma removeModel_outcome_witness :
  modelRef (ChatRemoval.removeModel Rejected (Resolved tt) readyToSend) = None.
Proof.
  destruct (ChatMore.removeModel_outcome Rejected (Resolved tt) readyToSend "m1"
              eq_refl eq_refl) as (Hgone & _).
  exact Hgone.
Defined.

Lemma removeModelById_outcome_witness :
  ChatRemoval.removeModelById "m2" (Resolved tt) Rejected readyToSend
  = engine (Remove "m2") readyToSend.
Proof.
  destruct (ChatMore.removeModelById_outcome "m2" (Resolved tt) Rejected readyToSend)
    as (Hother & _).
  apply Hother. discriminate.
Defined.

Lemma setup_failure_resets_witness :
  modelStatus
    (snd (setupResume (mkSetupTask "m1" None AwaitDownload) Rejected Lifecycle.mounted))
  = not_setup.
Proof.
  generalize (ChatMore.setup_failure_resets (mkSetupTask "m1" None AwaitDownload)
                Lifecycle.mounted (or_introl eq_refl) eq_refl).
  destruct (setupResume (mkSetupTask "m1" None AwaitDownload) Rejected Lifecycle.mounted)
    as [next s'].
  intros (_ & Hstatus & _). exact Hstatus.
Defined.

Lemma old_model_removal_never_blocks_witness :
  modelStatus
    (snd (setupResume (mkSetupTask "m2" (Some "m1") AwaitRemoveOld) Rejected
            Lifecycle.mounted))
  = downloading.
Proof.
  generalize (ChatMore.old_model_removal_never_blocks
                (mkSetupTask "m2" (Some "m1") AwaitRemoveOld) Rejected Lifecycle.mounted
                (or_intror eq_refl) eq_refl).
  destruct (setupResume (mkSetupTask "m2" (Some "m1") AwaitRemoveOld) Rejected
              Lifecycle.mounted) as [next s'].
  intros (_ & Hstatus & _). exact Hstatus.
Defined.

Lemma no_mutation_after_teardown_witness :
  modelStatus
    (hook (exec [CallSetup "m1" None not_setup; Settle 0 (Resolved tt)]
             (mkSystem (unmount Lifecycle.mounted) [])))
  = not_setup.
Proof.
  destruct (ChatMore.no_mutation_after_teardown
              [CallSetup "m1" None not_setup; Settle 0 (Resolved tt)]
              (mkSystem (unmount Lifecycle.mounted) []) eq_refl) as (Hstatus & _).
  exact Hstatus.
Defined.

Lemma guard_is_released_witness :
  isSetupInProgressRef
    (hook (exec [CallSetup "m1" None not_setup; Settle 0 Rejected] freshSystem))
  = false.
Proof.
  apply (ChatMore.guard_is_released [CallSetup "m1" None not_setup; Settle 0 Rejected]
           freshSystem freshSystem_idle).
  reflexivity.
Defined.

Lemma handleSend_is_guarded_witness :
  handleSendStart "u2" "a2" "t1" (snd opened) = (None, snd opened).
Proof.
  apply (StreamMore.handleSend_is_guarded "u2" "a2" "t1" (snd opened)).
  right. left. reflexivity.
Defined.


Lemma users_differ : "u1" <> "a1".
Proof. discriminate. Qed.

Lemma handleSend_request_witness :
  engineCalls (snd opened)
  = [StreamText "m1" (WithMessages [mkPromptMessage "user" "hi"])].
Proof.
  destruct (StreamMore.handleSend_request "u1" "a1" "t0" readyToSend
              (fst opened) (snd opened) users_differ handleSend_opens)
    as (model & Hmodel & Hcalls & _).
  injection Hmodel as <-. exact Hcalls.
Defined.

Lemma checkModelExists_by_presence_witness :
  modelStatus (snd (checkModelExists (Some "m1") (Resolved true) (Resolved tt)
                      Lifecycle.mounted)) = ready.
Proof.
  destruct (StreamMore.checkModelExists_by_presence "m1" Lifecycle.mounted eq_refl)
    as (Hpresent & _).
  revert Hpresent.
  destruct (checkModelExists (Some "m1") (Resolved true) (Resolved tt) Lifecycle.mounted)
    as [found s'].
  intros (_ & Hstatus & _). exact Hstatus.
Defined.

End MoreChatExamples.

Module CatalogExamples.
Import Number Catalog CatalogMore.

(** A catalogue of three models, one id listed twice. *)
Definition catalogue : list ModelInfo :=
  [mkModelInfo "big" "Big" "2 GB"; mkModelInfo "small" "Small" "500 MB";
   mkModelInfo "mid" "Mid" "1.5GB"; mkModelInfo "small" "Small again" "600"].





Lemma displayModels_of_sortModels_witness :
  sortModels catalogue None = sortedModels catalogue asc.
Proof.
  destruct (displayModels_of_sortModels catalogue None) as (_ & _ & Hplain).
  apply Hplain. reflexivity.
Defined.

Lemma loadModels_outcome_witness :
  models (loadModels catalogue false Rejected (mkModelsState [] true false)) = catalogue.
Proof.
  destruct (loadModels_outcome catalogue false Rejected (mkModelsState [] true false))
    as (_ & _ & Hfallback & _).
  apply Hfallback. left. reflexivity.
Defined.

End CatalogExamples.

Module RemovalExamples.
Import Sample StoreExamples.

Lemma useModels_removeModel_cascade_witness :
  snd (ModelsStore.removeModel "m1" (Resolved tt) (store threeConversations))
  !! getMessagesKey "c2" = None.
Proof.
  generalize (useModels_removeModel_cascade "m1" (Resolved tt) (store threeConversations)).
  destruct (ModelsStore.removeModel "m1" (Resolved tt) (store threeConversations))
    as [res st'].
  intros (_ & Hresolved).
  destruct (Hresolved eq_refl) as (_ & _ & _ & _ & Hmessages & _).
  apply (Hmessages (conv "c2" "m1" "30")).
  apply list_elem_of_further, list_elem_of_here.
Defined.

End RemovalExamples.

Module DateExamples.

Lemma formatDate_by_age_witness :
  exists n, (1 <= n <= 59)%Z /\ (60000 * n <= 125000 - 0 < 60000 * (n + 1))%Z
            /\ Dates.formatDate (fun _ => Some 0%Z) (fun d => d) 125000 "2024-01-01"
               = String.append (pretty n) "m ago".
Proof.
  destruct (DatesMore.formatDate_by_age (fun _ => Some 0%Z) (fun d => d) 125000 "2024-01-01")
    as (_ & Hvalid).
  destruct (Hvalid 0%Z eq_refl) as (_ & Hminutes & _).
  apply Hminutes. lia.
Defined.

End DateExamples.
